(** * Social icons: a shallow embedding of [social-icons.js]

    The module keeps its state in the closure of [initSocialIcons] and talks
    to the browser through listeners, [requestAnimationFrame], an
    [IntersectionObserver], the glTF loader and one offscreen WebGL renderer.
    The embedding passes that state explicitly: [Closure] holds the closure
    variables, [Browser] what the page keeps on the module's behalf, and every
    handler of the source is a function on [State].  JavaScript numbers are
    the kernel's binary64 floats. *)

From Stdlib Require Import ZArith List Bool String Lia PeanoNat.
From Stdlib Require Uint63.
From Stdlib Require Floats.SpecFloat Floats.FloatOps.
From Stdlib Require Import Floats.PrimFloat.
Import ListNotations.

Set Warnings "-inexact-float,-register-all".
Set Implicit Arguments.
Open Scope string_scope.
Open Scope list_scope.

(** ** JavaScript numbers *)

Module Js.

(** [!x] for an object reference that may be [null]. *)
Definition is_null {A} (x : option A) : bool :=
  match x with Some _ => false | None => true end.

(** A small integer (an array index) as a number. *)
Definition of_nat (n : nat) : float :=
  PrimFloat.of_uint63 (Uint63.of_Z (Z.of_nat n)).

(** The integer part of a number, towards zero; 0 for NaN and the
    infinities. *)
Definition trunc (a : float) : Z :=
  match FloatOps.Prim2SF a with
  | SpecFloat.S754_finite s m e =>
      let n := Z.shiftl (Z.pos m) e in
      if s then (- n)%Z else n
  | _ => 0%Z
  end.

(** A number assigned to an [unsigned long] attribute that reflects a
    content attribute, as [canvas.width] and [canvas.height] do, and read
    back: the number is truncated and taken modulo 2^32, and outside
    0..2147483647 the attribute's default is stored in its place. *)
Definition reflect_unsigned_long (default : Z) (a : float) : float :=
  let n := (trunc a mod 2 ^ 32)%Z in
  PrimFloat.of_uint63 (Uint63.of_Z (if (n <=? 2147483647)%Z then n else default)).

(** [Math.min(a, b)]: NaN when either is NaN, and -0 below +0. *)
Definition Math_min (a b : float) : float :=
  if (is_nan a || is_nan b)%bool then nan
  else if (a <? b)%float then a
  else if (b <? a)%float then b
  else if (is_zero a && get_sign a)%bool then a else b.

(** [Math.max(a, b)]: NaN when either is NaN, and +0 above -0. *)
Definition Math_max (a b : float) : float :=
  if (is_nan a || is_nan b)%bool then nan
  else if (a <? b)%float then b
  else if (b <? a)%float then a
  else if (is_zero a && get_sign a)%bool then b else a.

(** [Math.max(a, b, c)] folds from -Infinity. *)
Definition Math_max3 (a b c : float) : float :=
  Math_max (Math_max (Math_max neg_infinity a) b) c.

End Js.

(** ** The part of three.js the module touches *)

Module Three.

Record Vector3 := vec3 { x : float; y : float; z : float }.

Definition zero3 : Vector3 := vec3 0 0 0.
Definition one3 : Vector3 := vec3 1 1 1.

(** [obj.material] is absent, one material, or an array of them. *)
Inductive MaterialSlot :=
| NoMaterial
| OneMaterial (m : nat)
| MaterialArray (ms : list nat).

Inductive Kind :=
| Scene
| Group
| AmbientLight (color : Z) (intensity : float)
| DirectionalLight (color : Z) (intensity : float)
| Other.

(** What the module reads or writes of one scene-graph node. *)
Record Props := {
  kind : Kind;
  geometry : option nat;
  material : MaterialSlot;
  position : Vector3;
  scale : Vector3;
  rotation_y : float;
}.

Inductive Object3D := Node (p : Props) (children : list Object3D).

Definition props (o : Object3D) : Props := let 'Node p _ := o in p.
Definition children (o : Object3D) : list Object3D := let 'Node _ cs := o in cs.

Definition bare (k : Kind) (pos : Vector3) : Props :=
  {| kind := k; geometry := None; material := NoMaterial;
     position := pos; scale := one3; rotation_y := 0 |}.

(** [obj.traverse(cb)]: the node itself, then every child's subtree. *)
Fixpoint traverse (o : Object3D) : list Props :=
  match o with
  | Node p cs => p :: flat_map traverse cs
  end.

Definition set_rotation_y (r : float) (o : Object3D) : Object3D :=
  let 'Node p cs := o in
  Node {| kind := kind p; geometry := geometry p; material := material p;
          position := position p; scale := scale p; rotation_y := r |} cs.

(** [model.scale.setScalar(s)] followed by [model.position.set(px, py, pz)]. *)
Definition set_scale_position (s : float) (pos : Vector3) (o : Object3D) : Object3D :=
  let 'Node p cs := o in
  Node {| kind := kind p; geometry := geometry p; material := material p;
          position := pos; scale := vec3 s s s; rotation_y := rotation_y p |} cs.






Record Camera := {
  fov : float; aspect : float; near : float; far : float;
  cam_position : Vector3;
}.

(** A [WebGLRenderer]: [rid] tells the instances apart. *)
Record WebGLRenderer := {
  rid : nat;
  r_width : float;
  r_height : float;
  r_pixelRatio : float;
}.

End Three.

Import Three.

(** ** Per-icon state *)

Inductive Handler :=
| mouseMoveHandler (i : nat)
| mouseUpHandler (i : nat)
| touchMoveHandler (i : nat)
| touchEndHandler (i : nat).

Record Canvas := { canvas_id : nat; canvas_width : float; canvas_height : float }.

(** [iconData].  [scene] lists the children the scene gets at construction
    (the two lights).  The pivot group that the load callback adds to the
    scene and stores in [pivot] is one object reached by two references; it
    is kept once, in [pivot], and [scene_children] puts it back among the
    scene's children. *)
Record Icon := {
  container : nat;
  canvas2d : Canvas;
  ctx : nat;
  scene : list Object3D;
  camera : Camera;
  link : string;
  modelPath : string;
  index : nat;
  pivot : option Object3D;
  modelLoaded : bool;
  manualRotation : float;
  isDragging : bool;
  hasDragged : bool;
  lastX : float;
  _windowListeners : list (string * Handler);
}.

Definition scene_children (ic : Icon) : list Object3D :=
  scene ic ++ match pivot ic with Some p => [p] | None => [] end.

Definition set_pivot (v : option Object3D) (ic : Icon) : Icon :=
  {| container := container ic; canvas2d := canvas2d ic; ctx := ctx ic;
     scene := scene ic; camera := camera ic; link := link ic;
     modelPath := modelPath ic; index := index ic; pivot := v;
     modelLoaded := modelLoaded ic; manualRotation := manualRotation ic;
     isDragging := isDragging ic; hasDragged := hasDragged ic;
     lastX := lastX ic; _windowListeners := _windowListeners ic |}.

Definition set_modelLoaded (v : bool) (ic : Icon) : Icon :=
  {| container := container ic; canvas2d := canvas2d ic; ctx := ctx ic;
     scene := scene ic; camera := camera ic; link := link ic;
     modelPath := modelPath ic; index := index ic; pivot := pivot ic;
     modelLoaded := v; manualRotation := manualRotation ic;
     isDragging := isDragging ic; hasDragged := hasDragged ic;
     lastX := lastX ic; _windowListeners := _windowListeners ic |}.

Definition set_manualRotation (v : float) (ic : Icon) : Icon :=
  {| container := container ic; canvas2d := canvas2d ic; ctx := ctx ic;
     scene := scene ic; camera := camera ic; link := link ic;
     modelPath := modelPath ic; index := index ic; pivot := pivot ic;
     modelLoaded := modelLoaded ic; manualRotation := v;
     isDragging := isDragging ic; hasDragged := hasDragged ic;
     lastX := lastX ic; _windowListeners := _windowListeners ic |}.

Definition set_isDragging (v : bool) (ic : Icon) : Icon :=
  {| container := container ic; canvas2d := canvas2d ic; ctx := ctx ic;
     scene := scene ic; camera := camera ic; link := link ic;
     modelPath := modelPath ic; index := index ic; pivot := pivot ic;
     modelLoaded := modelLoaded ic; manualRotation := manualRotation ic;
     isDragging := v; hasDragged := hasDragged ic;
     lastX := lastX ic; _windowListeners := _windowListeners ic |}.

Definition set_hasDragged (v : bool) (ic : Icon) : Icon :=
  {| container := container ic; canvas2d := canvas2d ic; ctx := ctx ic;
     scene := scene ic; camera := camera ic; link := link ic;
     modelPath := modelPath ic; index := index ic; pivot := pivot ic;
     modelLoaded := modelLoaded ic; manualRotation := manualRotation ic;
     isDragging := isDragging ic; hasDragged := v;
     lastX := lastX ic; _windowListeners := _windowListeners ic |}.

Definition set_lastX (v : float) (ic : Icon) : Icon :=
  {| container := container ic; canvas2d := canvas2d ic; ctx := ctx ic;
     scene := scene ic; camera := camera ic; link := link ic;
     modelPath := modelPath ic; index := index ic; pivot := pivot ic;
     modelLoaded := modelLoaded ic; manualRotation := manualRotation ic;
     isDragging := isDragging ic; hasDragged := hasDragged ic;
     lastX := v; _windowListeners := _windowListeners ic |}.

(** ** Drag-to-rotate, per icon *)

Definition onDragStart (clientX : float) (icon : Icon) : Icon :=
  set_lastX clientX (set_hasDragged false (set_isDragging true icon)).

Definition onDragMove (clientX : float) (icon : Icon) : Icon :=
  if (negb (isDragging icon) || Js.is_null (pivot icon))%bool then icon
  else
    let deltaX := (clientX - lastX icon)%float in
    let icon := if (2 <? abs deltaX)%float then set_hasDragged true icon else icon in
    let icon := set_manualRotation (manualRotation icon + deltaX * 0.02)%float icon in
    set_lastX clientX icon.

Definition onDragEnd (icon : Icon) : Icon := set_isDragging false icon.

(** The window's [touchmove] listener looks at [isDragging] itself first. *)
Definition touchMove (clientX : float) (icon : Icon) : Icon :=
  if isDragging icon then onDragMove clientX icon else icon.

(** A drag as the icon sees it: pointer-down at [x0], then moves to [xs]. *)
Definition drag (x0 : float) (xs : list float) (icon : Icon) : Icon :=
  fold_left (fun ic x => onDragMove x ic) xs (onDragStart x0 icon).

Definition set_windowListeners (v : list (string * Handler)) (ic : Icon) : Icon :=
  {| container := container ic; canvas2d := canvas2d ic; ctx := ctx ic;
     scene := scene ic; camera := camera ic; link := link ic;
     modelPath := modelPath ic; index := index ic; pivot := pivot ic;
     modelLoaded := modelLoaded ic; manualRotation := manualRotation ic;
     isDragging := isDragging ic; hasDragged := hasDragged ic;
     lastX := lastX ic; _windowListeners := v |}.

(** ** The page and the browser *)

(** One [.social-icon-container] element: its data attributes and what
    [closest('footer')] finds from it. *)
Record ContainerEl := {
  dataset_model : string;
  dataset_link : string;
  closest_footer : option nat;
}.

Record Page := {
  iconContainers : list ContainerEl;
  social_links_3d : option nat;
  devicePixelRatio : float;
}.

Inductive DrawOp :=
| Render (r : WebGLRenderer) (sceneChildren : list Object3D) (cam : Camera)
| ClearRect (c : nat) (w h : float)
| DrawImage (c : nat) (src : nat) (w h : float).

Inductive Resource :=
| GeometryRes (g : nat)
| MaterialRes (m : nat)
| RendererRes (r : nat).

(** What the browser holds for the module.  [dom] maps an injected canvas to
    the container it is a child of; [rafPending] are the frame callbacks
    requested and neither run nor cancelled; [inflight] the load requests whose
    callback has not run; the remaining lists record calls in order. *)
Record Browser := {
  dom : list (nat * nat);
  containerListeners : list (nat * string);
  windowListeners : list (string * Handler);
  observed : list nat;
  rafPending : list nat;
  rafNext : nat;
  loadRequests : list (nat * string);
  inflight : list nat;
  opened : list (string * string);
  renderers : list WebGLRenderer;
  drawLog : list DrawOp;
  disposed : list Resource;
}.

(** The variables of [initSocialIcons]'s closure. *)
Record Closure := {
  pixelRatio : float;
  sharedRenderer : option WebGLRenderer;
  icons : list Icon;
  modelsRequested : bool;
  animFrameId : option nat;
  isAnimating : bool;
}.

Record State := { browser : Browser; closure : Closure }.

Definition RENDER_SIZE : float := 80.

(** *** Field updates *)

Definition with_dom v (b : Browser) : Browser :=
  {| dom := v; containerListeners := containerListeners b;
     windowListeners := windowListeners b; observed := observed b;
     rafPending := rafPending b; rafNext := rafNext b;
     loadRequests := loadRequests b; inflight := inflight b;
     opened := opened b; renderers := renderers b; drawLog := drawLog b;
     disposed := disposed b |}.

Definition with_containerListeners v (b : Browser) : Browser :=
  {| dom := dom b; containerListeners := v;
     windowListeners := windowListeners b; observed := observed b;
     rafPending := rafPending b; rafNext := rafNext b;
     loadRequests := loadRequests b; inflight := inflight b;
     opened := opened b; renderers := renderers b; drawLog := drawLog b;
     disposed := disposed b |}.

Definition with_windowListeners v (b : Browser) : Browser :=
  {| dom := dom b; containerListeners := containerListeners b;
     windowListeners := v; observed := observed b;
     rafPending := rafPending b; rafNext := rafNext b;
     loadRequests := loadRequests b; inflight := inflight b;
     opened := opened b; renderers := renderers b; drawLog := drawLog b;
     disposed := disposed b |}.

Definition with_observed v (b : Browser) : Browser :=
  {| dom := dom b; containerListeners := containerListeners b;
     windowListeners := windowListeners b; observed := v;
     rafPending := rafPending b; rafNext := rafNext b;
     loadRequests := loadRequests b; inflight := inflight b;
     opened := opened b; renderers := renderers b; drawLog := drawLog b;
     disposed := disposed b |}.

Definition with_raf pending next (b : Browser) : Browser :=
  {| dom := dom b; containerListeners := containerListeners b;
     windowListeners := windowListeners b; observed := observed b;
     rafPending := pending; rafNext := next;
     loadRequests := loadRequests b; inflight := inflight b;
     opened := opened b; renderers := renderers b; drawLog := drawLog b;
     disposed := disposed b |}.

Definition with_loads reqs fl (b : Browser) : Browser :=
  {| dom := dom b; containerListeners := containerListeners b;
     windowListeners := windowListeners b; observed := observed b;
     rafPending := rafPending b; rafNext := rafNext b;
     loadRequests := reqs; inflight := fl;
     opened := opened b; renderers := renderers b; drawLog := drawLog b;
     disposed := disposed b |}.

Definition with_opened v (b : Browser) : Browser :=
  {| dom := dom b; containerListeners := containerListeners b;
     windowListeners := windowListeners b; observed := observed b;
     rafPending := rafPending b; rafNext := rafNext b;
     loadRequests := loadRequests b; inflight := inflight b;
     opened := v; renderers := renderers b; drawLog := drawLog b;
     disposed := disposed b |}.

Definition with_renderers v (b : Browser) : Browser :=
  {| dom := dom b; containerListeners := containerListeners b;
     windowListeners := windowListeners b; observed := observed b;
     rafPending := rafPending b; rafNext := rafNext b;
     loadRequests := loadRequests b; inflight := inflight b;
     opened := opened b; renderers := v; drawLog := drawLog b;
     disposed := disposed b |}.

Definition with_drawLog v (b : Browser) : Browser :=
  {| dom := dom b; containerListeners := containerListeners b;
     windowListeners := windowListeners b; observed := observed b;
     rafPending := rafPending b; rafNext := rafNext b;
     loadRequests := loadRequests b; inflight := inflight b;
     opened := opened b; renderers := renderers b; drawLog := v;
     disposed := disposed b |}.

Definition with_disposed v (b : Browser) : Browser :=
  {| dom := dom b; containerListeners := containerListeners b;
     windowListeners := windowListeners b; observed := observed b;
     rafPending := rafPending b; rafNext := rafNext b;
     loadRequests := loadRequests b; inflight := inflight b;
     opened := opened b; renderers := renderers b; drawLog := drawLog b;
     disposed := v |}.

Definition with_sharedRenderer v (c : Closure) : Closure :=
  {| pixelRatio := pixelRatio c; sharedRenderer := v; icons := icons c;
     modelsRequested := modelsRequested c; animFrameId := animFrameId c;
     isAnimating := isAnimating c |}.

Definition with_icons v (c : Closure) : Closure :=
  {| pixelRatio := pixelRatio c; sharedRenderer := sharedRenderer c; icons := v;
     modelsRequested := modelsRequested c; animFrameId := animFrameId c;
     isAnimating := isAnimating c |}.

Definition with_modelsRequested v (c : Closure) : Closure :=
  {| pixelRatio := pixelRatio c; sharedRenderer := sharedRenderer c;
     icons := icons c; modelsRequested := v; animFrameId := animFrameId c;
     isAnimating := isAnimating c |}.

Definition with_animFrameId v (c : Closure) : Closure :=
  {| pixelRatio := pixelRatio c; sharedRenderer := sharedRenderer c;
     icons := icons c; modelsRequested := modelsRequested c; animFrameId := v;
     isAnimating := isAnimating c |}.

Definition with_isAnimating v (c : Closure) : Closure :=
  {| pixelRatio := pixelRatio c; sharedRenderer := sharedRenderer c;
     icons := icons c; modelsRequested := modelsRequested c;
     animFrameId := animFrameId c; isAnimating := v |}.

Definition on_browser (f : Browser -> Browser) (s : State) : State :=
  {| browser := f (browser s); closure := closure s |}.

Definition on_closure (f : Closure -> Closure) (s : State) : State :=
  {| browser := browser s; closure := f (closure s) |}.

(** The icon objects are told apart by their place in [icons]; a handler that
    captured icon [i] mutates the [i]-th entry. *)
Fixpoint update_at {A} (i : nat) (f : A -> A) (l : list A) : list A :=
  match l, i with
  | [], _ => []
  | a :: l', O => f a :: l'
  | a :: l', S i' => a :: update_at i' f l'
  end.

Definition on_icon (i : nat) (f : Icon -> Icon) (s : State) : State :=
  on_closure (fun c => with_icons (update_at i f (icons c)) c) s.

(** *** Listener registration *)

Definition Handler_eq_dec (a b : Handler) : {a = b} + {a <> b}.
Proof. decide equality; apply Nat.eq_dec. Defined.

Definition listener_eq_dec (a b : string * Handler) : {a = b} + {a <> b}.
Proof. decide equality; [apply Handler_eq_dec | apply string_dec]. Defined.

Definition clistener_eq_dec (a b : nat * string) : {a = b} + {a <> b}.
Proof. decide equality; [apply string_dec | apply Nat.eq_dec]. Defined.

(** [addEventListener] ignores a listener that is already registered. *)
Definition add_listener {A} (dec : forall a b : A, {a = b} + {a <> b})
    (x : A) (l : list A) : list A :=
  if in_dec dec x l then l else l ++ [x].

Definition addWindowListener (type : string) (h : Handler) (b : Browser) : Browser :=
  with_windowListeners (add_listener listener_eq_dec (type, h) (windowListeners b)) b.

Definition removeWindowListener (type : string) (h : Handler) (b : Browser) : Browser :=
  with_windowListeners (remove listener_eq_dec (type, h) (windowListeners b)) b.

Definition addContainerListener (i : nat) (type : string) (b : Browser) : Browser :=
  with_containerListeners (add_listener clistener_eq_dec (i, type) (containerListeners b)) b.

(** [parent.appendChild(canvas)] and [canvas.parentNode]. *)
Definition appendChild (parent canvas : nat) (b : Browser) : Browser :=
  with_dom (filter (fun e => negb (Nat.eqb (fst e) canvas)) (dom b) ++ [(canvas, parent)]) b.

Fixpoint parentNode (canvas : nat) (d : list (nat * nat)) : option nat :=
  match d with
  | [] => None
  | (c, p) :: d' => if Nat.eqb c canvas then Some p else parentNode canvas d'
  end.

Definition removeChild (canvas : nat) (b : Browser) : Browser :=
  with_dom (filter (fun e => negb (Nat.eqb (fst e) canvas)) (dom b)) b.

(** ** [initSocialIcons] *)

Definition newIcon (pixelRatio : float) (c : ContainerEl) (index : nat) : Icon :=
  {| container := index;
     canvas2d := {| canvas_id := index;
                    canvas_width :=
                      Js.reflect_unsigned_long 300 (RENDER_SIZE * pixelRatio);
                    canvas_height :=
                      Js.reflect_unsigned_long 150 (RENDER_SIZE * pixelRatio) |};
     ctx := index;
     scene := [ Node (bare (AmbientLight 16777215 0.8) zero3) [];
                Node (bare (DirectionalLight 16777215 1.2) (vec3 2 2 2)) [] ];
     camera := {| fov := 50; aspect := 1; near := 0.1; far := 1000;
                  cam_position := vec3 0 0 3 |};
     link := dataset_link c;
     modelPath := dataset_model c;
     index := index;
     pivot := None;
     modelLoaded := false;
     manualRotation := 0;
     isDragging := false;
     hasDragged := false;
     lastX := 0;
     _windowListeners := [] |}.

(** The first [forEach]: one icon per container, its canvas appended to the
    container.  Container [k] of the node list and the canvas made for it are
    both named [k].  [canvas_width] and [canvas_height] hold what the canvas
    keeps of the numbers assigned to it, which is what [animate] reads
    back. *)
Fixpoint createIcons (pixelRatio : float) (cs : list ContainerEl) (index : nat)
    (b : Browser) : Browser * list Icon :=
  match cs with
  | [] => (b, [])
  | c :: cs' =>
      let ic := newIcon pixelRatio c index in
      let b := appendChild (container ic) (canvas_id (canvas2d ic)) b in
      let (b, rest) := createIcons pixelRatio cs' (S index) b in
      (b, ic :: rest)
  end.

(** The second [forEach]: the listeners of icon [i], in source order. *)
Fixpoint attachListeners (i : nat) (ics : list Icon) (b : Browser)
    : Browser * list Icon :=
  match ics with
  | [] => (b, [])
  | icon :: rest =>
      let b := addContainerListener (container icon) "mousedown" b in
      let b := addWindowListener "mousemove" (mouseMoveHandler i) b in
      let b := addWindowListener "mouseup" (mouseUpHandler i) b in
      let b := addContainerListener (container icon) "touchstart" b in
      let b := addWindowListener "touchmove" (touchMoveHandler i) b in
      let b := addWindowListener "touchend" (touchEndHandler i) b in
      let b := addContainerListener (container icon) "click" b in
      let icon := set_windowListeners
                    [ ("mousemove", mouseMoveHandler i);
                      ("mouseup", mouseUpHandler i);
                      ("touchmove", touchMoveHandler i);
                      ("touchend", touchEndHandler i) ] icon in
      let (b, rest) := attachListeners (S i) rest b in
      (b, icon :: rest)
  end.

(** [a || b] on element references. *)
Definition orElse {A} (a b : option A) : option A :=
  match a with Some _ => a | None => b end.

(** The result is [None] when the function returns [undefined] early. *)
Definition initSocialIcons (page : Page) (b : Browser) : Browser * option Closure :=
  match iconContainers page with
  | [] => (b, None)
  | c0 :: _ =>
      match orElse (closest_footer c0) (social_links_3d page) with
      | None => (b, None)
      | Some footer =>
          let pixelRatio := Js.Math_min (devicePixelRatio page) 2 in
          let (b, icons) := createIcons pixelRatio (iconContainers page) 0 b in
          let (b, icons) := attachListeners 0 icons b in
          let b := with_observed [footer] b in
          (b, Some {| pixelRatio := pixelRatio; sharedRenderer := None;
                      icons := icons; modelsRequested := false;
                      animFrameId := None; isAnimating := false |})
      end
  end.

(** ** Shared renderer *)

Definition getSharedRenderer (s : State) : WebGLRenderer * State :=
  match sharedRenderer (closure s) with
  | Some r => (r, s)
  | None =>
      let r := {| rid := List.length (renderers (browser s));
                  r_width := RENDER_SIZE; r_height := RENDER_SIZE;
                  r_pixelRatio := pixelRatio (closure s) |} in
      (r, on_closure (with_sharedRenderer (Some r))
            (on_browser (fun b => with_renderers (renderers b ++ [r]) b) s))
  end.

(** ** Model loading *)

(** [gltfLoader.load(path, cb)] for every icon, in order. *)
Fixpoint requestLoads (i : nat) (ics : list Icon) (b : Browser) : Browser :=
  match ics with
  | [] => b
  | icon :: rest =>
      requestLoads (S i) rest
        (with_loads (loadRequests b ++ [(i, modelPath icon)]) (inflight b ++ [i]) b)
  end.

Definition loadModels (s : State) : State :=
  if modelsRequested (closure s) then s
  else
    let s := on_closure (with_modelsRequested true) s in
    on_browser (requestLoads 0 (icons (closure s))) s.

(** What the loader hands to the callback.  The two bounding boxes are
    computed by three.js: [box_size] is
    [new Box3().setFromObject(model).getSize()] for the model as loaded, and
    [scaled_center s] is [new Box3().setFromObject(model).getCenter()] once
    the model's scale has been set to the scalar [s]. *)
Record Gltf := {
  gltf_scene : Object3D;
  box_size : Vector3;
  scaled_center : float -> Vector3;
}.

(** The callback of [gltfLoader.load] for one icon. *)
Definition onModelLoaded (gltf : Gltf) (icon : Icon) : Icon :=
  let model := gltf_scene gltf in
  let size := box_size gltf in
  let maxDim := Js.Math_max3 (x size) (y size) (z size) in
  let scale := (1.8 / maxDim)%float in
  let center := scaled_center gltf scale in
  let model := set_scale_position scale
                 (vec3 (- x center) (- y center) (- z center))%float model in
  let pivot := Node (bare Group zero3) [model] in
  set_modelLoaded true (set_pivot (Some pivot) icon).

(** ** Click *)

Definition onClick (i : nat) (s : State) : State :=
  match nth_error (icons (closure s)) i with
  | None => s
  | Some icon =>
      if negb (hasDragged icon)
      then on_browser (fun b => with_opened (opened b ++ [(link icon, "_blank")]) b) s
      else s
  end.

(** ** Animation loop *)

Definition requestAnimationFrame (s : State) : State :=
  let id := rafNext (browser s) in
  on_closure (with_animFrameId (Some id))
    (on_browser (fun b => with_raf (rafPending b ++ [id]) (S id) b) s).

Definition cancelAnimationFrame (id : nat) (b : Browser) : Browser :=
  with_raf (remove Nat.eq_dec id (rafPending b)) (rafNext b) b.

(** The body of [animate]'s [forEach] for one icon: the icon as it leaves the
    body and the drawing calls made.  [None] is the [TypeError] of reading
    [rotation] on a [null] pivot. *)
Definition frameIcon (renderer : WebGLRenderer) (time : float) (icon : Icon)
    : option (Icon * list DrawOp) :=
  if negb (modelLoaded icon) then Some (icon, [])
  else
    let rotated :=
      if isDragging icon then
        match pivot icon with
        | Some p => Some (set_pivot (Some (set_rotation_y (manualRotation icon) p)) icon)
        | None => None
        end
      else
        let autoRotation := (time + Js.of_nat (index icon) * 0.5)%float in
        let icon := set_manualRotation autoRotation icon in
        match pivot icon with
        | Some p => Some (set_pivot (Some (set_rotation_y autoRotation p)) icon)
        | None => None
        end in
    match rotated with
    | None => None
    | Some icon =>
        let w := canvas_width (canvas2d icon) in
        let h := canvas_height (canvas2d icon) in
        Some (icon, [ Render renderer (scene_children icon) (camera icon);
                      ClearRect (ctx icon) w h;
                      DrawImage (ctx icon) (rid renderer) w h ])
    end.

Fixpoint frameIcons (renderer : WebGLRenderer) (time : float) (ics : list Icon)
    : option (list Icon * list DrawOp) :=
  match ics with
  | [] => Some ([], [])
  | icon :: rest =>
      match frameIcon renderer time icon with
      | None => None
      | Some (icon', ops) =>
          match frameIcons renderer time rest with
          | None => None
          | Some (rest', ops') => Some (icon' :: rest', ops ++ ops')
          end
      end
  end.

(** [now] is what [Date.now()] reads during the call. *)
Definition animate (now : float) (s : State) : option State :=
  if negb (isAnimating (closure s)) then Some s
  else
    let s := requestAnimationFrame s in
    let (renderer, s) := getSharedRenderer s in
    let time := (now * 0.001)%float in
    match frameIcons renderer time (icons (closure s)) with
    | None => None
    | Some (ics, ops) =>
        Some (on_closure (with_icons ics)
                (on_browser (fun b => with_drawLog (drawLog b ++ ops) b) s))
    end.

Definition startAnimating (now : float) (s : State) : option State :=
  if isAnimating (closure s) then Some s
  else animate now (loadModels (on_closure (with_isAnimating true) s)).

Definition stopAnimating (s : State) : State :=
  let s := on_closure (with_isAnimating false) s in
  match animFrameId (closure s) with
  | Some id =>
      on_closure (with_animFrameId None) (on_browser (cancelAnimationFrame id) s)
  | None => s
  end.

(** The observer's callback over its entries ([isIntersecting] of each). *)
Fixpoint onIntersection (now : float) (entries : list bool) (s : State)
    : option State :=
  match entries with
  | [] => Some s
  | isIntersecting :: rest =>
      if isIntersecting then
        match startAnimating now s with
        | Some s' => onIntersection now rest s'
        | None => None
        end
      else onIntersection now rest (stopAnimating s)
  end.

(** ** [dispose] *)

(** The callback given to [scene.traverse]: the [dispose()] calls one node
    causes. *)
Definition disposeObject (p : Props) : list Resource :=
  match geometry p with Some g => [GeometryRes g] | None => [] end ++
  match material p with
  | NoMaterial => []
  | OneMaterial m => [MaterialRes m]
  | MaterialArray ms => map MaterialRes ms
  end.

Definition sceneObject (icon : Icon) : Object3D :=
  Node (bare Scene zero3) (scene_children icon).

Definition removeIconListeners (b : Browser) (icon : Icon) : Browser :=
  fold_left (fun b eh => removeWindowListener (fst eh) (snd eh) b)
            (_windowListeners icon) b.

Definition disposeIcon (b : Browser) (icon : Icon) : Browser :=
  let b := with_disposed
             (disposed b ++ flat_map disposeObject (traverse (sceneObject icon))) b in
  match parentNode (canvas_id (canvas2d icon)) (dom b) with
  | Some _ => removeChild (canvas_id (canvas2d icon)) b
  | None => b
  end.

Definition dispose (s : State) : State :=
  let s := stopAnimating s in
  let s := on_browser (with_observed []) s in
  let s := on_browser (fun b => fold_left removeIconListeners (icons (closure s)) b) s in
  let s := on_browser (fun b => fold_left disposeIcon (icons (closure s)) b) s in
  match sharedRenderer (closure s) with
  | Some r =>
      on_closure (with_sharedRenderer None)
        (on_browser (fun b => with_disposed (disposed b ++ [RendererRes (rid r)]) b) s)
  | None => s
  end.

(** ** Events *)

(** What can happen to an initialised module: an event on container [i]
    ([mousedown], [touchstart], [click]), an event on the window, a delivery
    of intersection entries, a frame callback coming due, the loader finishing
    (or failing) icon [i]'s request, and the page calling [dispose()].
    [clientX] is the pointer's (or first touch's) x; [now] is [Date.now()]
    while the callback runs.  The browser delivers entries only while the
    observer is connected, runs a frame callback only while it is pending,
    and completes a load only once per request; [step] ignores an event that
    cannot occur. *)
Inductive Event :=
| ContainerEvent (i : nat) (type : string) (clientX : float)
| WindowEvent (type : string) (clientX : float)
| Intersection (entries : list bool) (now : float)
| AnimationFrame (id : nat) (now : float)
| ModelLoaded (i : nat) (gltf : Gltf)
| ModelFailed (i : nat)
| Dispose.

(** The listeners registered on container [i]; container [i] belongs to icon
    [i]. *)
Definition containerHandler (i : nat) (type : string) (clientX : float)
    (s : State) : State :=
  if string_dec type "mousedown" then on_icon i (onDragStart clientX) s
  else if string_dec type "touchstart" then on_icon i (onDragStart clientX) s
  else if string_dec type "click" then onClick i s
  else s.

Definition windowHandler (h : Handler) (clientX : float) (s : State) : State :=
  match h with
  | mouseMoveHandler i => on_icon i (onDragMove clientX) s
  | mouseUpHandler i => on_icon i onDragEnd s
  | touchMoveHandler i => on_icon i (touchMove clientX) s
  | touchEndHandler i => on_icon i onDragEnd s
  end.

Definition dispatchWindow (type : string) (clientX : float) (s : State) : State :=
  fold_left
    (fun s eh => if string_dec (fst eh) type then windowHandler (snd eh) clientX s else s)
    (windowListeners (browser s)) s.

Definition in_natb (n : nat) (l : list nat) : bool :=
  if in_dec Nat.eq_dec n l then true else false.

(** One event; [None] when a handler throws.  A frame callback leaves the
    pending list as it starts to run. *)
Definition step (s : State) (e : Event) : option State :=
  match e with
  | ContainerEvent i type clientX =>
      if in_dec clistener_eq_dec (i, type) (containerListeners (browser s))
      then Some (containerHandler i type clientX s)
      else Some s
  | WindowEvent type clientX => Some (dispatchWindow type clientX s)
  | Intersection entries now =>
      match observed (browser s) with
      | [] => Some s
      | _ :: _ => onIntersection now entries s
      end
  | AnimationFrame id now =>
      if in_natb id (rafPending (browser s))
      then animate now (on_browser (cancelAnimationFrame id) s)
      else Some s
  | ModelLoaded i gltf =>
      if in_natb i (inflight (browser s))
      then Some (on_icon i (onModelLoaded gltf)
                   (on_browser (fun b => with_loads (loadRequests b)
                                           (remove Nat.eq_dec i (inflight b)) b) s))
      else Some s
  | ModelFailed i =>
      Some (on_browser (fun b => with_loads (loadRequests b)
                                   (remove Nat.eq_dec i (inflight b)) b) s)
  | Dispose => Some (dispose s)
  end.

Fixpoint run (s : State) (es : list Event) : option State :=
  match es with
  | [] => Some s
  | e :: es' =>
      match step s e with
      | Some s' => run s' es'
      | None => None
      end
  end.

(** A page with nothing of the module in it yet. *)
Definition fresh : Browser :=
  {| dom := []; containerListeners := []; windowListeners := [];
     observed := []; rafPending := []; rafNext := 0; loadRequests := [];
     inflight := []; opened := []; renderers := []; drawLog := [];
     disposed := [] |}.

(** The module right after [initSocialIcons] on a fresh page. *)
Definition boot (page : Page) : option State :=
  match initSocialIcons page fresh with
  | (b, Some c) => Some {| browser := b; closure := c |}
  | (_, None) => None
  end.

(** [s] is a state the module can be in on [page]. *)
Definition reachable (page : Page) (s : State) : Prop :=
  exists s0 es, boot page = Some s0 /\ run s0 es = Some s.

(** *** A sample page, for the concrete checks below *)

Definition samplePage : Page :=
  {| iconContainers :=
       [ {| dataset_model := "a.glb"; dataset_link := "https://a.example";
            closest_footer := Some 100 |};
         {| dataset_model := "b.glb"; dataset_link := "https://b.example";
            closest_footer := Some 100 |} ];
     social_links_3d := None;
     devicePixelRatio := 3 |}.

(** The same page on a screen whose pixel ratio is 4/3. *)
Definition sampleFractionalPage : Page :=
  {| iconContainers := iconContainers samplePage;
     social_links_3d := None;
     devicePixelRatio := 1.3333333333333333 |}.

Definition sampleMesh : Object3D :=
  Node (bare Group zero3)
       [ Node {| kind := Other; geometry := Some 7; material := OneMaterial 8;
                 position := zero3; scale := one3; rotation_y := 0 |} [];
         Node {| kind := Other; geometry := Some 9; material := MaterialArray [10; 11];
                 position := zero3; scale := one3; rotation_y := 0 |} [] ].

Definition sampleGltf : Gltf :=
  {| gltf_scene := sampleMesh;
     box_size := vec3 3 2 1;
     scaled_center := fun s => vec3 (1.5 * s) s (0.5 * s) |}.

(** The sample page after [es], for the concrete checks. *)
Definition sampleAfter (es : list Event) : State :=
  let idle := {| pixelRatio := 0; sharedRenderer := None; icons := [];
                 modelsRequested := false; animFrameId := None;
                 isAnimating := false |} in
  match boot samplePage with
  | Some s0 => match run s0 es with Some s => s | None => s0 end
  | None => {| browser := fresh; closure := idle |}
  end.

(** The footer comes into view, icon 0's model arrives and a frame runs. *)
Definition sampleShown : list Event :=
  [ Intersection [true] 1000; ModelLoaded 0 sampleGltf; AnimationFrame 0 2000 ].

Definition sampleIcon : Icon :=
  newIcon 2 {| dataset_model := "a.glb"; dataset_link := "https://a.example";
               closest_footer := Some 100 |} 0.

Definition sampleLoadedIcon : Icon := onModelLoaded sampleGltf sampleIcon.

(** ** Drag distance, as the specification words it and as the code tests it *)

(** Displacement of the pointer from where the drag started. *)
Definition net_movement (x0 : float) (xs : list float) : float :=
  abs (last xs x0 - x0).

(** Distance the pointer travelled since the drag started. *)
Fixpoint path_length (x0 : float) (xs : list float) : float :=
  match xs with
  | [] => 0
  | x1 :: rest => abs (x1 - x0) + path_length x1 rest
  end.

(** Some single move went further than 2px from the position before it. *)
Fixpoint some_move_exceeds (x0 : float) (xs : list float) : bool :=
  match xs with
  | [] => false
  | x1 :: rest => (2 <? abs (x1 - x0))%float || some_move_exceeds x1 rest
  end.

(** ** What stays true while the module runs *)

(** The fields of an icon that are fixed once [initSocialIcons] returns. *)
Definition static (ic : Icon) :=
  (container ic, canvas2d ic, ctx ic, scene ic, camera ic, link ic,
   modelPath ic, index ic, _windowListeners ic).

(** [modelLoaded] is only set together with [pivot], and nothing marks a
    drag on an icon that has no pivot yet. *)
Definition icon_ok (ic : Icon) : Prop :=
  (modelLoaded ic = true -> pivot ic <> None) /\
  (pivot ic = None -> hasDragged ic = false).

(** While animating exactly one frame callback is pending, the one
    [animFrameId] names; otherwise none is. *)
Definition raf_ok (s : State) : Prop :=
  if isAnimating (closure s)
  then exists id, animFrameId (closure s) = Some id /\ rafPending (browser s) = [id]
  else animFrameId (closure s) = None /\ rafPending (browser s) = [].

(** The renderer the first frame constructs. *)
Definition renderer0 (page : Page) : WebGLRenderer :=
  {| rid := 0; r_width := RENDER_SIZE; r_height := RENDER_SIZE;
     r_pixelRatio := Js.Math_min (devicePixelRatio page) 2 |}.

Definition renderer_ok (page : Page) (s : State) : Prop :=
  pixelRatio (closure s) = Js.Math_min (devicePixelRatio page) 2 /\
  (observed (browser s) = [] -> isAnimating (closure s) = false) /\
  match sharedRenderer (closure s) with
  | Some r => r = renderer0 page /\ renderers (browser s) = [r]
  | None => renderers (browser s) = [] \/
            (observed (browser s) = [] /\ renderers (browser s) = [renderer0 page])
  end.

(** One load request per icon, in order, from position [i] on. *)
Fixpoint requests (i : nat) (ics : list Icon) : list (nat * string) :=
  match ics with
  | [] => []
  | icon :: rest => (i, modelPath icon) :: requests (S i) rest
  end.

Definition loads_ok (s : State) : Prop :=
  loadRequests (browser s)
  = if modelsRequested (closure s) then requests 0 (icons (closure s)) else [].

(** A window listener of the module sits under the event its handler is for. *)
Definition std_listener (eh : string * Handler) : Prop :=
  match snd eh with
  | mouseMoveHandler _ => fst eh = "mousemove"
  | mouseUpHandler _ => fst eh = "mouseup"
  | touchMoveHandler _ => fst eh = "touchmove"
  | touchEndHandler _ => fst eh = "touchend"
  end.

Definition listeners_ok (s : State) : Prop :=
  Forall std_listener (windowListeners (browser s)) /\
  incl (windowListeners (browser s))
       (flat_map _windowListeners (icons (closure s))) /\
  (forall i, i < List.length (icons (closure s)) ->
             In (i, "click") (containerListeners (browser s))).

Record Inv (page : Page) (s : State) : Prop := {
  inv_icons : Forall icon_ok (icons (closure s));
  inv_raf : raf_ok s;
  inv_renderer : renderer_ok page s;
  inv_loads : loads_ok s;
  inv_listeners : listeners_ok s;
}.

(** A loaded icon has its pivot: what a frame needs to run. *)
Definition loaded_has_pivot (ic : Icon) : Prop :=
  modelLoaded ic = true -> pivot ic <> None.

(** The [dispose()] calls [scene.traverse] makes for one icon. *)
Definition icon_resources (ic : Icon) : list Resource :=
  flat_map disposeObject (traverse (sceneObject ic)).

Definition not_canvas_of (ic : Icon) (e : nat * nat) : bool :=
  negb (Nat.eqb (fst e) (canvas_id (canvas2d ic))).

(** [removeEventListener] for every listener in [L]. *)
Definition remove_all (L wl : list (string * Handler)) : list (string * Handler) :=
  fold_left (fun l eh => remove listener_eq_dec eh l) L wl.

(** The browser fields neither [forEach] of [initSocialIcons] touches. *)
Definition untouched (b : Browser) :=
  (observed b, rafPending b, rafNext b, loadRequests b, inflight b, opened b,
   renderers b, drawLog b, disposed b).

Definition pristine (ic : Icon) : Prop :=
  pivot ic = None /\ modelLoaded ic = false /\ hasDragged ic = false.

(** What one step may change outside the icons' mutable fields: it adds no
    listener and leaves the icons' fixed fields alone. *)
Definition frame (s s' : State) : Prop :=
  containerListeners (browser s') = containerListeners (browser s) /\
  incl (windowListeners (browser s')) (windowListeners (browser s)) /\
  map static (icons (closure s')) = map static (icons (closure s)).

(** The footer's entries say it is in view. *)
Definition shows (e : Event) : bool :=
  match e with
  | Intersection entries _ => existsb (fun isIntersecting => isIntersecting) entries
  | _ => false
  end.

(** ** One frame, as the specification describes it *)

(** The yaw a frame at [time] gives a loaded icon. *)
Definition frame_yaw (time : float) (ic : Icon) : float :=
  if isDragging ic then manualRotation ic
  else (time + Js.of_nat (index ic) * 0.5)%float.

(** An icon before and after a frame at [time]. *)
Definition frame_rel (time : float) (ic ic' : Icon) : Prop :=
  if modelLoaded ic then
    exists p, pivot ic = Some p /\
      ic' = set_pivot (Some (set_rotation_y (frame_yaw time ic) p))
                      (set_manualRotation (frame_yaw time ic) ic)
  else ic' = ic.

(** The renderer and canvas calls a frame makes for an icon. *)
Definition frame_draws (renderer : WebGLRenderer) (ic : Icon) : list DrawOp :=
  if modelLoaded ic then
    [ Render renderer (scene_children ic) (camera ic);
      ClearRect (ctx ic) (canvas_width (canvas2d ic)) (canvas_height (canvas2d ic));
      DrawImage (ctx ic) (rid renderer)
                (canvas_width (canvas2d ic)) (canvas_height (canvas2d ic)) ]
  else [].

(** An icon before and after the footer comes into view at [time]: the
    loaded flag stays, and the rotation stays unless the frame that showing
    runs auto-rotates the icon. *)
Definition show_rel (time : float) (ic ic' : Icon) : Prop :=
  modelLoaded ic' = modelLoaded ic /\
  manualRotation ic'
  = if (modelLoaded ic && negb (isDragging ic))%bool
    then (time + Js.of_nat (index ic) * 0.5)%float
    else manualRotation ic.

(** ** What initialisation sets up, and what stays of it *)

(** The window listeners of icon [i], as its second [forEach] round adds and
    stashes them, and the events its container listens to. *)
Definition stdListeners (i : nat) : list (string * Handler) :=
  [ ("mousemove", mouseMoveHandler i); ("mouseup", mouseUpHandler i);
    ("touchmove", touchMoveHandler i); ("touchend", touchEndHandler i) ].

Definition containerEvents (i : nat) : list (nat * string) :=
  [ (i, "mousedown"); (i, "touchstart"); (i, "click") ].

(** The icon a window handler closed over. *)
Definition handler_icon (h : Handler) : nat :=
  match h with
  | mouseMoveHandler i | mouseUpHandler i
  | touchMoveHandler i | touchEndHandler i => i
  end.

(** What the module put on the page, and the log of [dispose()] calls. *)
Definition page_setup (b : Browser) :=
  (dom b, containerListeners b, windowListeners b, observed b, disposed b).

(** The module is running and [dispose()] has not disconnected its observer. *)
Definition live (page : Page) (s : State) : Prop :=
  reachable page s /\ observed (browser s) <> [].

(** What a window event of the given type does to one icon while the four
    listeners of every icon are registered. *)
Definition window_effect (type : string) (clientX : float) (ic : Icon) : Icon :=
  if string_dec "mousemove" type then onDragMove clientX ic
  else if string_dec "mouseup" type then onDragEnd ic
  else if string_dec "touchmove" type then touchMove clientX ic
  else if string_dec "touchend" type then onDragEnd ic
  else ic.

(** What a window handler does to the icon it closed over. *)
Definition handler_fun (h : Handler) (clientX : float) : Icon -> Icon :=
  match h with
  | mouseMoveHandler _ => onDragMove clientX
  | mouseUpHandler _ => onDragEnd
  | touchMoveHandler _ => touchMove clientX
  | touchEndHandler _ => onDragEnd
  end.

(** What the listeners [L], run in order for an event of the given type, do
    to icon [j]. *)
Definition apply_listeners (type : string) (clientX : float) (j : nat)
    (L : list (string * Handler)) (ic : Icon) : Icon :=
  fold_left
    (fun ic eh =>
       if string_dec (fst eh) type
       then if Nat.eqb (handler_icon (snd eh)) j
            then handler_fun (snd eh) clientX ic else ic
       else ic)
    L ic.

(** A mouse gesture on icon [k]: button down at [x0] over the icon, the
    pointer moved through [xs], the button released, and the click the
    browser then delivers to the icon. *)
Definition mouseGesture (k : nat) (x0 : float) (xs : list float) (xEnd : float)
    : list Event :=
  ContainerEvent k "mousedown" x0
  :: map (WindowEvent "mousemove") xs
  ++ [ WindowEvent "mouseup" xEnd; ContainerEvent k "click" xEnd ].

(** Every icon's window and container listeners are in place. *)
Definition wired (s : State) : Prop :=
  windowListeners (browser s)
  = flat_map stdListeners (seq 0 (List.length (icons (closure s)))) /\
  containerListeners (browser s)
  = flat_map containerEvents (seq 0 (List.length (icons (closure s)))).

(** The state a frame leaves, given the icons as the [forEach] leaves them. *)
Definition after_frame (s : State) (ics' : list Icon) : State :=
  on_closure (with_icons ics')
    (on_browser
       (fun b => with_drawLog
          (drawLog b
             ++ flat_map (frame_draws (fst (getSharedRenderer (requestAnimationFrame s))))
                         ics') b)
       (snd (getSharedRenderer (requestAnimationFrame s)))).

Definition is_dispose (e : Event) : bool :=
  match e with Dispose => true | _ => false end.

(** Whether an icon has its model, by either of the two fields that say so. *)
Definition loaded_view (ic : Icon) : bool * bool :=
  (Js.is_null (pivot ic), modelLoaded ic).

Definition unloaded (ic : Icon) : Prop :=
  pivot ic = None /\ modelLoaded ic = false.

(** Loading, as the module and the loader keep it: every request in flight is
    for an icon that has no model yet, no icon has two requests, an icon is
    marked loaded exactly when it has its pivot, and before the models are
    requested nothing is in flight or loaded. *)
Definition load_ok (s : State) : Prop :=
  NoDup (inflight (browser s)) /\
  (forall i, In i (inflight (browser s)) ->
     exists ic, nth_error (icons (closure s)) i = Some ic /\ unloaded ic) /\
  Forall (fun ic => modelLoaded ic = true <-> pivot ic <> None) (icons (closure s)) /\
  (modelsRequested (closure s) = false ->
     inflight (browser s) = [] /\ Forall unloaded (icons (closure s))).

(** The four handlers a pointer event can run on an icon. *)
Inductive drag_handler : (Icon -> Icon) -> Prop :=
| dh_start x : drag_handler (onDragStart x)
| dh_move x : drag_handler (onDragMove x)
| dh_touch x : drag_handler (touchMove x)
| dh_end : drag_handler onDragEnd.

(** The same gesture made with a finger: [touchstart] on icon [k], the
    finger moved through [xs], lifted, and the click delivered to the icon. *)
Definition touchGesture (k : nat) (x0 : float) (xs : list float) (xEnd : float)
    : list Event :=
  ContainerEvent k "touchstart" x0
  :: map (WindowEvent "touchmove") xs
  ++ [ WindowEvent "touchend" xEnd; ContainerEvent k "click" xEnd ].

(** ** The loaded model and its bounding box *)







(** ** What reaches the screen *)

(** The two lights and the camera every icon's scene is given. *)
Definition sceneLights : list Object3D :=
  [ Node (bare (AmbientLight 16777215 0.8) zero3) [];
    Node (bare (DirectionalLight 16777215 1.2) (vec3 2 2 2)) [] ].

Definition iconCamera : Camera :=
  {| fov := 50; aspect := 1; near := 0.1; far := 1000; cam_position := vec3 0 0 3 |}.

(** What the page's canvases keep of the size assigned to them. *)
Definition canvasWidth (page : Page) : float :=
  Js.reflect_unsigned_long 300 (RENDER_SIZE * Js.Math_min (devicePixelRatio page) 2).

Definition canvasHeight (page : Page) : float :=
  Js.reflect_unsigned_long 150 (RENDER_SIZE * Js.Math_min (devicePixelRatio page) 2).

(** What a frame reads of an icon besides its pivot, as initialisation
    leaves it. *)
Definition drawn_as (page : Page) (ic : Icon) : Prop :=
  scene ic = sceneLights /\ camera ic = iconCamera /\
  canvas_width (canvas2d ic) = canvasWidth page /\
  canvas_height (canvas2d ic) = canvasHeight page.

(** Two nodes that differ in their yaw at most. *)
Definition same_but_yaw (q p : Object3D) : Prop :=
  children q = children p /\
  kind (props q) = kind (props p) /\
  geometry (props q) = geometry (props p) /\
  material (props q) = material (props p) /\
  position (props q) = position (props p) /\
  scale (props q) = scale (props p).

(** A renderer as [getSharedRenderer] sets it up on [page]. *)
Definition renderer_std (page : Page) (r : WebGLRenderer) : Prop :=
  r_width r = RENDER_SIZE /\ r_height r = RENDER_SIZE /\
  r_pixelRatio r = Js.Math_min (devicePixelRatio page) 2.

(** The icon [ic] drawn once: its scene, that is its lights and its pivot at
    some yaw, rendered with its camera, then its own context cleared and the
    renderer's image copied onto it, both over its canvas's width and
    height. *)
Definition blit (page : Page) (ic : Icon) (ops : list DrawOp) : Prop :=
  exists r p q,
    pivot ic = Some p /\ same_but_yaw q p /\ renderer_std page r /\
    ops = [ Render r (scene ic ++ [q]) (camera ic);
            ClearRect (ctx ic) (canvas_width (canvas2d ic)) (canvas_height (canvas2d ic));
            DrawImage (ctx ic) (rid r)
                      (canvas_width (canvas2d ic)) (canvas_height (canvas2d ic)) ].

(** A draw log made of drawings of the icons [ics] and nothing else. *)
Definition draws_ok (page : Page) (ics : list Icon) (log : list DrawOp) : Prop :=
  exists groups,
    log = List.concat groups /\
    Forall (fun ops => exists ic, In ic ics /\ blit page ic ops) groups.

(** Every icon of [ics] that has a pivot is still among [ics'], with the
    same pivot up to its yaw. *)
Definition pivots_kept (ics ics' : list Icon) : Prop :=
  forall ic p, In ic ics -> pivot ic = Some p ->
    exists ic' p', In ic' ics' /\ static ic' = static ic /\
                   pivot ic' = Some p' /\ same_but_yaw p' p.

(** The module has done no loading, rendering or scheduling. *)
Definition dormant (s : State) : Prop :=
  isAnimating (closure s) = false /\ animFrameId (closure s) = None /\
  modelsRequested (closure s) = false /\ sharedRenderer (closure s) = None /\
  loadRequests (browser s) = [] /\ inflight (browser s) = [] /\
  renderers (browser s) = [] /\ drawLog (browser s) = [] /\
  rafPending (browser s) = [] /\ Forall unloaded (icons (closure s)).

(** * Properties *)

(** ** Dragging *)

Section Drag.

Variable icon : Icon.

Lemma onDragMove_unloaded clientX :
  pivot icon = None -> onDragMove clientX icon = icon.
Proof.
  intros H. unfold onDragMove. rewrite H. simpl.
  now rewrite orb_true_r.
Qed.

Lemma onDragMove_idle clientX :
  isDragging icon = false -> onDragMove clientX icon = icon.
Proof. intros H. unfold onDragMove. now rewrite H. Qed.

Lemma onDragMove_loaded clientX p :
  isDragging icon = true -> pivot icon = Some p ->
  let icon' := onDragMove clientX icon in
  isDragging icon' = true /\ pivot icon' = Some p /\
  lastX icon' = clientX /\
  hasDragged icon' = ((2 <? abs (clientX - lastX icon))%float || hasDragged icon)%bool /\
  manualRotation icon' = (manualRotation icon + (clientX - lastX icon) * 0.02)%float.
Proof.
  intros Hd Hp. unfold onDragMove. rewrite Hd, Hp. simpl.
  destruct (2 <? abs (clientX - lastX icon))%float; simpl; auto.
Qed.

End Drag.

Lemma moves_loaded xs : forall icon p,
  isDragging icon = true -> pivot icon = Some p ->
  hasDragged (fold_left (fun ic x => onDragMove x ic) xs icon)
  = (hasDragged icon || some_move_exceeds (lastX icon) xs)%bool.
Proof.
  induction xs as [|x1 rest IH]; intros icon p Hd Hp; simpl.
  - now rewrite orb_false_r.
  - destruct (onDragMove_loaded icon x1 Hd Hp) as (Hd' & Hp' & Hx & Hh & _).
    rewrite (IH _ p Hd' Hp'), Hh, Hx.
    destruct (2 <? abs (x1 - lastX icon))%float, (hasDragged icon); reflexivity.
Qed.

Lemma moves_unloaded xs : forall icon,
  pivot icon = None -> fold_left (fun ic x => onDragMove x ic) xs icon = icon.
Proof.
  induction xs as [|x1 rest IH]; intros icon Hp; simpl; [reflexivity|].
  rewrite onDragMove_unloaded by assumption. now apply IH.
Qed.

(** C1.  What the code does where the claim speaks of the movement since
    the drag started: on an icon whose model has loaded, a drag that starts at
    [x0] and moves through [xs] leaves [hasDragged] true exactly when some
    single move is more than 2px away from the pointer position before it.
    The two drags the claim names come out as it says: +10px then -15px sets
    the flag, 1px does not. *)
Theorem C1_hasDragged_per_move (icon : Icon) (p : Object3D) (x0 : float)
    (xs : list float) :
  pivot icon = Some p ->
  hasDragged (drag x0 xs icon) = some_move_exceeds x0 xs /\
  hasDragged (drag 100 [110; 95]%float icon) = true /\
  hasDragged (drag 100 [101]%float icon) = false.
Proof.
  intros Hp.
  assert (G : forall y0 ys, hasDragged (drag y0 ys icon) = some_move_exceeds y0 ys).
  { intros y0 ys. unfold drag.
    rewrite (@moves_loaded ys (onDragStart y0 icon) p); [reflexivity | reflexivity | exact Hp]. }
  repeat split; [apply G | rewrite G; reflexivity | rewrite G; reflexivity].
Qed.

Lemma C1_hasDragged_per_move_witness :
  pivot sampleLoadedIcon <> None /\
  hasDragged (drag 100 [110; 95]%float sampleLoadedIcon) = true.
Proof.
  split; [discriminate|].
  exact (proj1 (proj2 (@C1_hasDragged_per_move sampleLoadedIcon _ 0 [] eq_refl))).
Defined.

(** C1 does not hold of the code.  Three moves of 1px each on a loaded icon
    leave [hasDragged] false although the pointer has moved 3px since the
    drag started, by displacement and by distance travelled alike; and on an
    icon whose model has not loaded the drag of +10px then -15px leaves it
    false. *)
Lemma C1_counterexample :
  ~ (hasDragged (drag 0 [1; 2; 3]%float sampleLoadedIcon) = true
     <-> (2 <? net_movement 0 [1; 2; 3])%float = true) /\
  ~ (hasDragged (drag 0 [1; 2; 3]%float sampleLoadedIcon) = true
     <-> (2 <? path_length 0 [1; 2; 3])%float = true) /\
  hasDragged (drag 100 [110; 95]%float sampleIcon) = false.
Proof.
  repeat split.
  - intros [_ H]. specialize (H eq_refl). vm_compute in H. discriminate.
  - intros [_ H]. specialize (H eq_refl). vm_compute in H. discriminate.
Qed.

(** Seen from the pointer: a whole gesture of three 1px moves turns the
    loaded icon by 0.06, and the click that ends it still opens the link,
    although the comment on the click listener says a click navigates only
    if the user did not drag. *)
Example slow_drag_still_navigates :
  let s := sampleAfter sampleShown in
  exists s',
    run s (mouseGesture 0 0 [1; 2; 3]%float 3) = Some s' /\
    option_map manualRotation (nth_error (icons (closure s)) 0) = Some 2%float /\
    option_map manualRotation (nth_error (icons (closure s')) 0) = Some 2.06%float /\
    opened (browser s) = [] /\
    opened (browser s') = [("https://a.example", "_blank")].
Proof.
  intros s. eexists. split; [vm_compute; reflexivity|].
  repeat split; vm_compute; reflexivity.
Qed.

(** ** Lists of icons updated in place *)

Section UpdateAt.

Context {A : Type}.
Variable f : A -> A.

Lemma update_at_length i (l : list A) :
  List.length (update_at i f l) = List.length l.
Proof.
  revert i; induction l as [|a l IH]; intros [|i]; simpl; auto.
Qed.

Lemma Forall_update_at (P : A -> Prop) i (l : list A) :
  (forall a, P a -> P (f a)) -> Forall P l -> Forall P (update_at i f l).
Proof.
  intros Hf H; revert i; induction H as [|a l Ha Hl IH]; intros [|i]; simpl;
    constructor; auto.
Qed.

Lemma map_update_at {B} (g : A -> B) i (l : list A) :
  (forall a, g (f a) = g a) -> map g (update_at i f l) = map g l.
Proof.
  intros Hg; revert i; induction l as [|a l IH]; intros [|i]; simpl;
    rewrite ?Hg, ?IH; reflexivity.
Qed.

Lemma nth_error_update_at_same i (l : list A) a :
  nth_error l i = Some a -> nth_error (update_at i f l) i = Some (f a).
Proof.
  revert i; induction l as [|b l IH]; intros [|i]; simpl; try discriminate.
  - now intros [= ->].
  - apply IH.
Qed.

Lemma nth_error_update_at_other i j (l : list A) :
  i <> j -> nth_error (update_at i f l) j = nth_error l j.
Proof.
  revert i j; induction l as [|b l IH]; intros [|i] [|j] H; simpl; auto.
  congruence.
Qed.

Lemma update_at_fixed i (l : list A) a :
  nth_error l i = Some a -> f a = a -> update_at i f l = l.
Proof.
  revert i; induction l as [|b l IH]; intros [|i]; simpl; try discriminate.
  - intros [= ->] ->. reflexivity.
  - intros H1 H2. now rewrite IH.
Qed.

End UpdateAt.

Lemma fold_left_inv {A B} (P : B -> Prop) (f : B -> A -> B) (l : list A) :
  (forall b a, P b -> P (f b a)) -> forall b, P b -> P (fold_left f l b).
Proof.
  intros Hf; induction l as [|a l IH]; simpl; auto.
Qed.

Lemma requests_static ics : forall ics' i,
  map static ics' = map static ics -> requests i ics' = requests i ics.
Proof.
  induction ics as [|a l IH]; intros [|a' l'] i H; cbn [map] in H;
    try discriminate; auto.
  injection H as _ _ _ _ _ _ Hmp _ _ Hl. cbn [requests].
  now rewrite (IH _ _ Hl), Hmp.
Qed.

Lemma listeners_static ics : forall ics',
  map static ics' = map static ics ->
  flat_map _windowListeners ics' = flat_map _windowListeners ics.
Proof.
  induction ics as [|a l IH]; intros [|a' l'] H; cbn [map] in H;
    try discriminate; auto.
  injection H as _ _ _ _ _ _ _ _ Hwl Hl. cbn [flat_map].
  now rewrite (IH _ Hl), Hwl.
Qed.

Lemma length_static ics ics' :
  map static ics' = map static ics -> List.length ics' = List.length ics.
Proof.
  intros H. now rewrite <- (length_map static ics'), H, length_map.
Qed.

(** ** The handlers keep an icon well-formed and its fixed fields fixed *)

Lemma onDragStart_static x ic : static (onDragStart x ic) = static ic.
Proof. reflexivity. Qed.

Lemma onDragEnd_static ic : static (onDragEnd ic) = static ic.
Proof. reflexivity. Qed.

Lemma onDragMove_static x ic : static (onDragMove x ic) = static ic.
Proof.
  unfold onDragMove.
  destruct (negb (isDragging ic) || Js.is_null (pivot ic))%bool; [reflexivity|].
  destruct (2 <? abs (x - lastX ic))%float; reflexivity.
Qed.

Lemma touchMove_static x ic : static (touchMove x ic) = static ic.
Proof. unfold touchMove. destruct (isDragging ic); auto using onDragMove_static. Qed.

Lemma onModelLoaded_static g ic : static (onModelLoaded g ic) = static ic.
Proof. reflexivity. Qed.

Lemma onDragStart_ok x ic : icon_ok ic -> icon_ok (onDragStart x ic).
Proof. intros [H1 H2]. split; simpl; auto. Qed.

Lemma onDragEnd_ok ic : icon_ok ic -> icon_ok (onDragEnd ic).
Proof. intros [H1 H2]. split; simpl; auto. Qed.

Lemma onDragMove_ok x ic : icon_ok ic -> icon_ok (onDragMove x ic).
Proof.
  intros [H1 H2]. unfold onDragMove.
  destruct (isDragging ic); simpl; [|split; auto].
  destruct (pivot ic) as [p|] eqn:Hp; simpl; [|split; auto; now rewrite Hp].
  destruct (2 <? abs (x - lastX ic))%float; split; simpl; rewrite ?Hp; auto;
    discriminate.
Qed.

Lemma touchMove_ok x ic : icon_ok ic -> icon_ok (touchMove x ic).
Proof. unfold touchMove. destruct (isDragging ic); auto using onDragMove_ok. Qed.

Lemma onModelLoaded_ok g ic : icon_ok (onModelLoaded g ic).
Proof. split; simpl; discriminate. Qed.

Create HintDb icon_facts.

#[local] Hint Resolve onDragStart_ok onDragEnd_ok onDragMove_ok touchMove_ok
  onModelLoaded_ok onDragStart_static onDragEnd_static onDragMove_static
  touchMove_static onModelLoaded_static : icon_facts.

(** ** Frames of the invariant's parts *)

Lemma frame_refl s : frame s s.
Proof. repeat split; auto using incl_refl. Qed.

Lemma frame_trans s1 s2 s3 : frame s1 s2 -> frame s2 s3 -> frame s1 s3.
Proof.
  intros (A1 & B1 & C1) (A2 & B2 & C2). repeat split; try congruence.
  eapply incl_tran; eauto.
Qed.

Lemma listeners_ok_frame s s' : frame s s' -> listeners_ok s -> listeners_ok s'.
Proof.
  intros (Hc & Hw & Hs) (H1 & H2 & H3). repeat split.
  - rewrite Forall_forall in *. auto.
  - rewrite (listeners_static _ _ Hs). eapply incl_tran; eauto.
  - rewrite Hc, (length_static _ _ Hs). exact H3.
Qed.

Lemma loads_ok_same s s' :
  loadRequests (browser s') = loadRequests (browser s) ->
  modelsRequested (closure s') = modelsRequested (closure s) ->
  map static (icons (closure s')) = map static (icons (closure s)) ->
  loads_ok s -> loads_ok s'.
Proof.
  unfold loads_ok. intros -> -> Hs ->. now rewrite (requests_static _ _ 0 Hs).
Qed.

Lemma on_icon_frame i f s :
  (forall ic, static (f ic) = static ic) -> frame s (on_icon i f s).
Proof.
  intros Hf. repeat split; simpl; auto using incl_refl.
  now apply map_update_at.
Qed.

Lemma on_icon_Inv page i f s :
  (forall ic, icon_ok ic -> icon_ok (f ic)) ->
  (forall ic, static (f ic) = static ic) ->
  Inv page s -> Inv page (on_icon i f s).
Proof.
  intros Hok Hst [Hi Hr Hn Hl Hw]. constructor.
  - simpl. now apply Forall_update_at.
  - exact Hr.
  - exact Hn.
  - eapply loads_ok_same; [| | |exact Hl]; simpl; auto using map_update_at.
  - eapply listeners_ok_frame; [|exact Hw]. now apply on_icon_frame.
Qed.

Lemma onClick_frame i s : frame s (onClick i s).
Proof.
  unfold onClick. destruct (nth_error _ i) as [ic|]; [|apply frame_refl].
  destruct (negb (hasDragged ic)); [|apply frame_refl].
  repeat split; simpl; auto using incl_refl.
Qed.

Lemma onClick_Inv page i s : Inv page s -> Inv page (onClick i s).
Proof.
  unfold onClick. destruct (nth_error _ i) as [ic|]; auto.
  destruct (negb (hasDragged ic)); auto.
  intros [Hi Hr Hn Hl Hw]. constructor; assumption.
Qed.

Lemma windowHandler_Inv page h x s : Inv page s -> Inv page (windowHandler h x s).
Proof.
  destruct h; simpl; apply on_icon_Inv; auto with icon_facts.
Qed.

Lemma dispatchWindow_Inv page type x s : Inv page s -> Inv page (dispatchWindow type x s).
Proof.
  unfold dispatchWindow. apply fold_left_inv.
  intros b eh Hb. destruct (string_dec (fst eh) type); auto using windowHandler_Inv.
Qed.

Lemma containerHandler_Inv page i type x s :
  Inv page s -> Inv page (containerHandler i type x s).
Proof.
  intros H. unfold containerHandler.
  repeat match goal with |- context [string_dec ?a ?b] => destruct (string_dec a b) end;
    auto using onClick_Inv, on_icon_Inv with icon_facts.
Qed.

(** *** Stopping *)

Lemma stopAnimating_spec s :
  isAnimating (closure (stopAnimating s)) = false /\
  animFrameId (closure (stopAnimating s)) = None /\
  icons (closure (stopAnimating s)) = icons (closure s) /\
  sharedRenderer (closure (stopAnimating s)) = sharedRenderer (closure s) /\
  modelsRequested (closure (stopAnimating s)) = modelsRequested (closure s) /\
  pixelRatio (closure (stopAnimating s)) = pixelRatio (closure s) /\
  browser (stopAnimating s)
  = match animFrameId (closure s) with
    | Some id => cancelAnimationFrame id (browser s)
    | None => browser s
    end.
Proof.
  unfold stopAnimating. cbn.
  destruct (animFrameId (closure s)) eqn:E; cbn; rewrite ?E; repeat split; reflexivity.
Qed.

Lemma stopAnimating_Inv page s : Inv page s -> Inv page (stopAnimating s).
Proof.
  intros [Hi Hr Hn Hl Hw].
  destruct (stopAnimating_spec s) as (A & B & C & D & E & F & G).
  assert (Hb : forall (X : Type) (g : Browser -> X),
             (forall id b, g (cancelAnimationFrame id b) = g b) ->
             g (browser (stopAnimating s)) = g (browser s)).
  { intros X g Hg. rewrite G. destruct (animFrameId (closure s)); auto. }
  constructor.
  - now rewrite C.
  - unfold raf_ok in *. rewrite A, B. split; [reflexivity|].
    rewrite G. destruct (isAnimating (closure s)).
    + destruct Hr as (id & -> & Hp). simpl. rewrite Hp. simpl.
      destruct (Nat.eq_dec id id); [reflexivity | congruence].
    + destruct Hr as (-> & Hp). exact Hp.
  - destruct Hn as (N1 & N2 & N3). unfold renderer_ok.
    rewrite A, D, F, (Hb _ observed), (Hb _ renderers) by reflexivity. auto.
  - unfold loads_ok in *. rewrite E, C, (Hb _ loadRequests) by reflexivity. exact Hl.
  - eapply listeners_ok_frame; [|exact Hw]. repeat split.
    + now rewrite (Hb _ containerListeners).
    + rewrite (Hb _ windowListeners) by reflexivity. apply incl_refl.
    + now rewrite C.
Qed.

(** *** Loading *)

Lemma requestLoads_spec ics : forall i b,
  requestLoads i ics b
  = with_loads (loadRequests b ++ requests i ics)
               (inflight b ++ seq i (List.length ics)) b.
Proof.
  induction ics as [|ic rest IH]; intros i b; simpl.
  - rewrite !app_nil_r. now destruct b.
  - rewrite IH. unfold with_loads; simpl. now rewrite <- !app_assoc.
Qed.

Lemma loadModels_spec s :
  loadModels s
  = if modelsRequested (closure s) then s
    else {| browser := with_loads
                         (loadRequests (browser s) ++ requests 0 (icons (closure s)))
                         (inflight (browser s)
                            ++ seq 0 (List.length (icons (closure s))))
                         (browser s);
            closure := with_modelsRequested true (closure s) |}.
Proof.
  unfold loadModels. destruct (modelsRequested (closure s)); [reflexivity|].
  unfold on_browser, on_closure; simpl. now rewrite requestLoads_spec.
Qed.

Lemma loadModels_idem s : loadModels (loadModels s) = loadModels s.
Proof.
  rewrite (loadModels_spec s).
  destruct (modelsRequested (closure s)) eqn:E.
  - rewrite loadModels_spec, E. reflexivity.
  - rewrite loadModels_spec. reflexivity.
Qed.

Lemma loadModels_requested s : modelsRequested (closure (loadModels s)) = true.
Proof.
  rewrite loadModels_spec. destruct (modelsRequested (closure s)) eqn:E; auto.
Qed.

Lemma loadModels_loads_ok s : loads_ok s -> loads_ok (loadModels s).
Proof.
  unfold loads_ok. rewrite loadModels_spec.
  destruct (modelsRequested (closure s)) eqn:E; [now rewrite E|].
  simpl. now intros ->.
Qed.

(** *** One frame *)

Lemma frameIcon_spec r t ic :
  loaded_has_pivot ic ->
  exists ic', frameIcon r t ic = Some (ic', frame_draws r ic') /\ frame_rel t ic ic'.
Proof.
  intros H. unfold frameIcon, frame_rel, frame_draws, frame_yaw, loaded_has_pivot in *.
  destruct (modelLoaded ic) eqn:Hm; simpl.
  - destruct (pivot ic) as [p|] eqn:Hp; [|now elim H].
    destruct (isDragging ic) eqn:Hd; simpl; rewrite ?Hp, ?Hm; simpl.
    + exists (set_pivot (Some (set_rotation_y (manualRotation ic) p)) ic).
      cbn. rewrite Hm. split; [reflexivity|]. exists p; split; [reflexivity|].
      destruct ic; reflexivity.
    + exists (set_pivot
                (Some (set_rotation_y (t + Js.of_nat (index ic) * 0.5)%float p))
                (set_manualRotation (t + Js.of_nat (index ic) * 0.5)%float ic)).
      cbn. rewrite Hm. split; [reflexivity|]. exists p; split; reflexivity.
  - exists ic. rewrite Hm. auto.
Qed.

Lemma frameIcons_spec r t ics :
  Forall loaded_has_pivot ics ->
  exists ics', frameIcons r t ics = Some (ics', flat_map (frame_draws r) ics') /\
               Forall2 (frame_rel t) ics ics'.
Proof.
  induction 1 as [|ic rest Hic Hrest (rest' & E & F)]; simpl.
  - exists []; auto.
  - destruct (frameIcon_spec r t Hic) as (ic' & E1 & F1).
    exists (ic' :: rest'). rewrite E1, E. simpl. auto.
Qed.

Lemma frame_rel_static t ic ic' : frame_rel t ic ic' -> static ic' = static ic.
Proof.
  unfold frame_rel. destruct (modelLoaded ic).
  - intros (p & _ & ->). reflexivity.
  - now intros ->.
Qed.

Lemma frame_rel_ok t ic ic' : frame_rel t ic ic' -> icon_ok ic -> icon_ok ic'.
Proof.
  unfold frame_rel. destruct (modelLoaded ic).
  - intros (p & _ & ->) _. split; simpl; discriminate.
  - now intros ->.
Qed.

Lemma frame_rel_modelLoaded t ic ic' :
  frame_rel t ic ic' -> modelLoaded ic' = modelLoaded ic.
Proof.
  unfold frame_rel. destruct (modelLoaded ic) eqn:E.
  - intros (p & _ & ->). exact E.
  - now intros ->.
Qed.

Lemma Forall2_frame_static t ics ics' :
  Forall2 (frame_rel t) ics ics' -> map static ics' = map static ics.
Proof.
  induction 1; simpl; auto. f_equal; eauto using frame_rel_static.
Qed.

Lemma Forall2_frame_ok t ics ics' :
  Forall2 (frame_rel t) ics ics' -> Forall icon_ok ics -> Forall icon_ok ics'.
Proof.
  induction 1; intros Hf; inversion Hf; subst; constructor;
    eauto using frame_rel_ok.
Qed.

Lemma icon_ok_loaded ics : Forall icon_ok ics -> Forall loaded_has_pivot ics.
Proof. apply Forall_impl. now intros ic [H _]. Qed.

Lemma getSharedRenderer_icons s :
  icons (closure (snd (getSharedRenderer s))) = icons (closure s).
Proof. unfold getSharedRenderer. now destruct (sharedRenderer (closure s)). Qed.

Lemma animate_idle now s : isAnimating (closure s) = false -> animate now s = Some s.
Proof. unfold animate. now intros ->. Qed.

Lemma animate_running now s :
  isAnimating (closure s) = true ->
  Forall loaded_has_pivot (icons (closure s)) ->
  exists ics',
    Forall2 (frame_rel (now * 0.001)) (icons (closure s)) ics' /\
    animate now s
    = Some (on_closure (with_icons ics')
             (on_browser
                (fun b => with_drawLog
                   (drawLog b
                      ++ flat_map
                           (frame_draws (fst (getSharedRenderer (requestAnimationFrame s))))
                           ics') b)
                (snd (getSharedRenderer (requestAnimationFrame s))))).
Proof.
  intros Ha Hp. unfold animate. rewrite Ha. cbn [negb].
  pose proof (getSharedRenderer_icons (requestAnimationFrame s)) as Hi.
  destruct (getSharedRenderer (requestAnimationFrame s)) as [r s2].
  cbn [fst snd] in *. rewrite Hi. cbn [requestAnimationFrame on_closure on_browser closure icons with_animFrameId].
  destruct (frameIcons_spec r (now * 0.001) Hp) as (ics' & E & F).
  exists ics'. split; [exact F|]. now rewrite E.
Qed.

Lemma animate_Inv page now s :
  isAnimating (closure s) = true ->
  rafPending (browser s) = [] ->
  observed (browser s) <> [] ->
  Forall icon_ok (icons (closure s)) ->
  renderer_ok page s -> loads_ok s -> listeners_ok s ->
  exists s', animate now s = Some s' /\ Inv page s' /\ frame s s' /\
             observed (browser s') = observed (browser s) /\
             isAnimating (closure s') = true.
Proof.
  intros Ha Hp Ho Hi (N1 & N2 & N3) Hl Hw.
  destruct (animate_running now s Ha (icon_ok_loaded Hi)) as (ics' & F & E).
  rewrite E. eexists; split; [reflexivity|].
  pose proof (Forall2_frame_static F) as Hs.
  unfold getSharedRenderer, requestAnimationFrame. cbn.
  destruct (sharedRenderer (closure s)) as [r|] eqn:Er; cbn.
  - split; [constructor|]; cbn.
    + eauto using Forall2_frame_ok.
    + unfold raf_ok; cbn. rewrite Ha, Hp. eexists; split; reflexivity.
    + unfold renderer_ok; cbn. rewrite Er. auto.
    + eapply loads_ok_same; [| | |exact Hl]; cbn; auto.
    + eapply listeners_ok_frame; [|exact Hw]. repeat split; cbn; auto using incl_refl.
    + repeat split; cbn; auto using incl_refl.
  - destruct N3 as [N3|[N3 _]]; [|contradiction].
    split; [constructor|]; cbn.
    + eauto using Forall2_frame_ok.
    + unfold raf_ok; cbn. rewrite Ha, Hp. eexists; split; reflexivity.
    + unfold renderer_ok; cbn. rewrite N3, N1. cbn. auto.
    + eapply loads_ok_same; [| | |exact Hl]; cbn; auto.
    + eapply listeners_ok_frame; [|exact Hw]. repeat split; cbn; auto using incl_refl.
    + repeat split; cbn; auto using incl_refl.
Qed.

Lemma startAnimating_Inv page now s :
  Inv page s -> observed (browser s) <> [] ->
  exists s', startAnimating now s = Some s' /\ Inv page s' /\ frame s s' /\
             observed (browser s') = observed (browser s) /\
             isAnimating (closure s') = true.
Proof.
  intros [Hi Hr Hn Hl Hw] Ho. unfold startAnimating.
  destruct (isAnimating (closure s)) eqn:Ha.
  - exists s. split; [reflexivity|]. split; [now constructor|].
    split; [apply frame_refl|]. split; [reflexivity | exact Ha].
  - unfold raf_ok in Hr. rewrite Ha in Hr. destruct Hr as [Hf Hp].
    destruct Hn as (N1 & N2 & N3).
    set (s1 := on_closure (with_isAnimating true) s).
    assert (L : loads_ok (loadModels s1)) by (apply loadModels_loads_ok; exact Hl).
    assert (Fr : frame s (loadModels s1)).
    { rewrite loadModels_spec. destruct (modelsRequested (closure s1));
        repeat split; cbn; auto using incl_refl. }
    assert (V : forall (X : Type) (g : State -> X),
               (forall l f, g {| browser := with_loads l f (browser s1);
                                 closure := with_modelsRequested true (closure s1) |}
                            = g s1) ->
               g (loadModels s1) = g s1).
    { intros X g Hg. rewrite loadModels_spec.
      destruct (modelsRequested (closure s1)); auto. }
    destruct (@animate_Inv page now (loadModels s1)) as (s' & E & I & F' & O & A).
    + now rewrite (V _ (fun s => isAnimating (closure s))).
    + now rewrite (V _ (fun s => rafPending (browser s))).
    + now rewrite (V _ (fun s => observed (browser s))).
    + now rewrite (V _ (fun s => icons (closure s))).
    + unfold renderer_ok.
      rewrite (V _ (fun s => pixelRatio (closure s))),
              (V _ (fun s => observed (browser s))),
              (V _ (fun s => isAnimating (closure s))),
              (V _ (fun s => sharedRenderer (closure s))),
              (V _ (fun s => renderers (browser s))) by reflexivity.
      cbn. split; [exact N1|]. split; [intros X; now elim Ho | exact N3].
    + exact L.
    + eapply listeners_ok_frame; eauto.
    + exists s'. split; [exact E|]. split; [exact I|].
      split; [eapply frame_trans; eauto|]. split; [|exact A].
      now rewrite O, (V _ (fun s => observed (browser s))).
Qed.

Lemma stopAnimating_frame s : frame s (stopAnimating s).
Proof.
  destruct (stopAnimating_spec s) as (_ & _ & C & _ & _ & _ & G).
  unfold frame. rewrite C, G.
  destruct (animFrameId (closure s)); repeat split; cbn; auto using incl_refl.
Qed.

Lemma stopAnimating_observed s :
  observed (browser (stopAnimating s)) = observed (browser s).
Proof.
  destruct (stopAnimating_spec s) as (_ & _ & _ & _ & _ & _ & G).
  rewrite G. now destruct (animFrameId (closure s)).
Qed.

Lemma onIntersection_Inv page now entries : forall s,
  Inv page s -> observed (browser s) <> [] ->
  exists s', onIntersection now entries s = Some s' /\ Inv page s' /\ frame s s' /\
             observed (browser s') = observed (browser s).
Proof.
  induction entries as [|e rest IH]; intros s HI Ho; simpl.
  - exists s. auto using frame_refl.
  - destruct e.
    + destruct (startAnimating_Inv now HI Ho) as (s1 & E & I1 & F1 & O1 & _).
      rewrite E. destruct (IH s1 I1) as (s' & E' & I' & F' & O'); [congruence|].
      exists s'. split; [exact E'|]. split; [exact I'|].
      split; [eapply frame_trans; eauto | congruence].
    + destruct (IH (stopAnimating s)) as (s' & E' & I' & F' & O').
      * now apply stopAnimating_Inv.
      * now rewrite stopAnimating_observed.
      * exists s'. split; [exact E'|]. split; [exact I'|]. split.
        -- eapply frame_trans; eauto using stopAnimating_frame.
        -- now rewrite O', stopAnimating_observed.
Qed.

(** *** Disposal *)

Lemma parentNode_None c d :
  parentNode c d = None <-> forall e, In e d -> fst e <> c.
Proof.
  induction d as [|[c' p] d IH]; simpl.
  - split; [intros _ e [] | reflexivity].
  - destruct (Nat.eqb_spec c' c) as [->|Hne].
    + split; [discriminate|]. intros H. now elim (H (c, p)); auto.
    + rewrite IH. split.
      * intros H e [<-|He]; auto.
      * intros H e He. apply H. auto.
Qed.

Lemma filter_parentNode_None c d :
  parentNode c d = None -> filter (fun e => negb (Nat.eqb (fst e) c)) d = d.
Proof.
  rewrite parentNode_None. intros H.
  induction d as [|e d IH]; simpl; auto.
  destruct (Nat.eqb_spec (fst e) c) as [E|_]; simpl.
  - elim (H e); auto. now left.
  - rewrite IH; auto. intros e' He'. apply H. now right.
Qed.

Lemma disposeIcon_spec b ic :
  disposeIcon b ic
  = with_dom (filter (not_canvas_of ic) (dom b))
             (with_disposed (disposed b ++ icon_resources ic) b).
Proof.
  unfold disposeIcon, icon_resources, not_canvas_of. cbn.
  destruct (parentNode _ (dom b)) eqn:E; [reflexivity|].
  now rewrite (filter_parentNode_None _ _ E).
Qed.

Lemma fold_disposeIcon ics : forall b,
  fold_left disposeIcon ics b
  = with_dom (fold_left (fun d ic => filter (not_canvas_of ic) d) ics (dom b))
             (with_disposed (disposed b ++ flat_map icon_resources ics) b).
Proof.
  induction ics as [|ic rest IH]; intros b; simpl.
  - rewrite app_nil_r. now destruct b.
  - rewrite IH, disposeIcon_spec. unfold with_dom, with_disposed; cbn.
    now rewrite <- app_assoc.
Qed.

Lemma fold_removeIconListeners ics : forall b,
  fold_left removeIconListeners ics b
  = with_windowListeners
      (remove_all (flat_map _windowListeners ics) (windowListeners b)) b.
Proof.
  assert (One : forall L b,
    fold_left (fun b eh => removeWindowListener (fst eh) (snd eh) b) L b
    = with_windowListeners (remove_all L (windowListeners b)) b).
  { induction L as [|[e h] L IH]; intros b; simpl; [now destruct b|].
    rewrite IH. reflexivity. }
  induction ics as [|ic rest IH]; intros b; simpl; [now destruct b|].
  rewrite IH. unfold removeIconListeners. rewrite One. cbn.
  unfold remove_all. now rewrite fold_left_app.
Qed.

Lemma In_remove_all L : forall wl x,
  In x (remove_all L wl) <-> In x wl /\ ~ In x L.
Proof.
  induction L as [|a L IH]; intros wl x; simpl.
  - tauto.
  - unfold remove_all in *. simpl. rewrite IH. split.
    + intros [H1 H2]. apply in_remove in H1. destruct H1 as [Hx Hne].
      split; auto. intros [->|Hx']; auto.
    + intros [H1 H2]. split; [|tauto].
      apply in_in_remove; auto.
Qed.

Lemma remove_all_incl L wl : incl wl L -> remove_all L wl = [].
Proof.
  intros Hin. destruct (remove_all L wl) as [|x l] eqn:E; [reflexivity|].
  assert (Hx : In x (remove_all L wl)) by (rewrite E; now left).
  apply In_remove_all in Hx. destruct Hx as [H1 H2]. elim H2. auto.
Qed.

Lemma In_fold_filter ics : forall d e,
  In e (fold_left (fun d ic => filter (not_canvas_of ic) d) ics d)
  <-> In e d /\ forall ic, In ic ics -> fst e <> canvas_id (canvas2d ic).
Proof.
  induction ics as [|ic rest IH]; intros d e; simpl.
  - split; [intros H; split; auto; intros ? [] | tauto].
  - rewrite IH, filter_In. unfold not_canvas_of.
    destruct (Nat.eqb_spec (fst e) (canvas_id (canvas2d ic))) as [E|N]; simpl.
    + split; [intros [[_ H] _]; discriminate|].
      intros [_ H]. elim (H ic); auto.
    + split.
      * intros [[H1 _] H2]. split; auto. intros ic' [<-|H']; auto.
      * intros [H1 H2]. auto.
Qed.

Lemma dispose_spec s :
  let s' := dispose s in
  (isAnimating (closure s') = false /\
   animFrameId (closure s') = None /\
   sharedRenderer (closure s') = None /\
   icons (closure s') = icons (closure s) /\
   modelsRequested (closure s') = modelsRequested (closure s) /\
   pixelRatio (closure s') = pixelRatio (closure s)) /\
  (observed (browser s') = [] /\
   containerListeners (browser s') = containerListeners (browser s) /\
   renderers (browser s') = renderers (browser s) /\
   loadRequests (browser s') = loadRequests (browser s) /\
   drawLog (browser s') = drawLog (browser s) /\
   opened (browser s') = opened (browser s)) /\
  rafPending (browser s')
  = match animFrameId (closure s) with
    | Some id => remove Nat.eq_dec id (rafPending (browser s))
    | None => rafPending (browser s)
    end /\
  windowListeners (browser s')
  = remove_all (flat_map _windowListeners (icons (closure s)))
               (windowListeners (browser s)) /\
  dom (browser s')
  = fold_left (fun d ic => filter (not_canvas_of ic) d) (icons (closure s))
              (dom (browser s)) /\
  disposed (browser s')
  = disposed (browser s) ++ flat_map icon_resources (icons (closure s))
      ++ match sharedRenderer (closure s) with
         | Some r => [RendererRes (rid r)]
         | None => []
         end.
Proof.
  unfold dispose, on_browser, on_closure. cbn [browser closure].
  rewrite fold_disposeIcon, fold_removeIconListeners.
  destruct (stopAnimating_spec s) as (A & B & C & D & E & F & G).
  rewrite D, C, G.
  destruct (sharedRenderer (closure s)) as [r|], (animFrameId (closure s)) as [id|];
    cbn; rewrite ?app_nil_r, <- ?app_assoc; repeat split; assumption || reflexivity.
Qed.

Lemma remove_all_sub L wl : incl (remove_all L wl) wl.
Proof. intros x Hx. now apply In_remove_all in Hx. Qed.

Lemma dispose_frame s : frame s (dispose s).
Proof.
  destruct (dispose_spec s) as ((_ & _ & _ & Hi & _) & (_ & Hc & _) & _ & Hw & _).
  repeat split.
  - exact Hc.
  - rewrite Hw. apply remove_all_sub.
  - now rewrite Hi.
Qed.

Lemma dispose_Inv page s : Inv page s -> Inv page (dispose s).
Proof.
  intros [Hi Hr Hn Hl Hw].
  destruct (dispose_spec s)
    as ((A1 & A2 & A3 & A4 & A5 & A6) & (B1 & B2 & B3 & B4 & B5 & B6) & R & W & D & X).
  constructor.
  - now rewrite A4.
  - unfold raf_ok in *. rewrite A1, A2, R. split; [reflexivity|].
    destruct (isAnimating (closure s)).
    + destruct Hr as (id & -> & ->). simpl.
      destruct (Nat.eq_dec id id); [reflexivity | congruence].
    + now destruct Hr as (-> & ->).
  - destruct Hn as (N1 & N2 & N3). unfold renderer_ok.
    rewrite A1, A3, A6, B1, B3. repeat split; auto.
    destruct (sharedRenderer (closure s)) as [r|].
    + destruct N3 as [-> ->]. auto.
    + destruct N3 as [N3|[_ N3]]; auto.
  - unfold loads_ok in *. now rewrite B4, A5, A4.
  - eapply listeners_ok_frame; [apply dispose_frame | exact Hw].
Qed.

(** *** Every step keeps the invariant, and no handler throws *)

Lemma step_Inv page s e :
  Inv page s -> exists s', step s e = Some s' /\ Inv page s' /\ frame s s'.
Proof.
  intros HI. destruct e as [i type x|type x|entries now|id now|i g|i|]; simpl.
  - destruct (in_dec _ _ _); eexists; (split; [reflexivity|]); split;
      auto using containerHandler_Inv, frame_refl.
    unfold containerHandler.
    repeat match goal with |- context [string_dec ?a ?b] => destruct (string_dec a b) end;
      auto using onClick_frame, on_icon_frame, frame_refl with icon_facts.
  - eexists; split; [reflexivity|]. split; [now apply dispatchWindow_Inv|].
    unfold dispatchWindow.
    apply (fold_left_inv (fun s' => frame s s')); [|apply frame_refl].
    intros b eh Hb. destruct (string_dec (fst eh) type); auto.
    eapply frame_trans; [exact Hb|].
    destruct (snd eh); simpl; apply on_icon_frame; auto with icon_facts.
  - destruct (observed (browser s)) as [|o os] eqn:Eo.
    + exists s. auto using frame_refl.
    + destruct (@onIntersection_Inv page now entries s HI) as (s' & E & I & F & _).
      * rewrite Eo. discriminate.
      * exists s'. auto.
  - destruct (in_natb id (rafPending (browser s))) eqn:Ein;
      [|exists s; auto using frame_refl].
    destruct HI as [Hi Hr Hn Hl Hw].
    unfold in_natb in Ein. destruct (in_dec _ _ _) as [Hin|]; [|discriminate].
    unfold raf_ok in Hr. destruct (isAnimating (closure s)) eqn:Ea.
    + destruct Hr as (id' & Hf & Hp). rewrite Hp in Hin.
      destruct Hin as [->|[]].
      destruct Hn as (N1 & N2 & N3).
      destruct (@animate_Inv page now (on_browser (cancelAnimationFrame id) s))
        as (s' & E & I & F & _); cbn; auto.
      * rewrite Hp. simpl. destruct (Nat.eq_dec id id); [reflexivity | congruence].
      * intros Ho. rewrite (N2 Ho) in Ea. discriminate.
      * repeat split; auto.
      * exists s'. split; [exact E|]. split; [exact I|].
        eapply frame_trans; [|exact F]. repeat split; cbn; auto using incl_refl.
    + destruct Hr as (_ & Hp). rewrite Hp in Hin. destruct Hin.
  - destruct (in_natb i (inflight (browser s)));
      [|exists s; auto using frame_refl].
    eexists; split; [reflexivity|]. split.
    + apply on_icon_Inv; auto with icon_facts.
      destruct HI as [Hi Hr Hn Hl Hw]. constructor; assumption.
    + apply (@frame_trans _ (on_browser (fun b => with_loads (loadRequests b)
                 (remove Nat.eq_dec i (inflight b)) b) s)).
      * repeat split; cbn; auto using incl_refl.
      * apply on_icon_frame. auto with icon_facts.
  - eexists; split; [reflexivity|]. split.
    + destruct HI as [Hi Hr Hn Hl Hw]. constructor; assumption.
    + repeat split; cbn; auto using incl_refl.
  - exists (dispose s). auto using dispose_Inv, dispose_frame.
Qed.

Lemma run_Inv page es : forall s,
  Inv page s -> exists s', run s es = Some s' /\ Inv page s' /\ frame s s'.
Proof.
  induction es as [|e es IH]; intros s HI; simpl.
  - exists s. auto using frame_refl.
  - destruct (step_Inv e HI) as (s1 & E & I1 & F1). rewrite E.
    destruct (IH s1 I1) as (s' & E' & I' & F').
    exists s'. split; [exact E'|]. split; [exact I'|]. eapply frame_trans; eauto.
Qed.

(** *** The state [initSocialIcons] leaves *)

Lemma createIcons_spec pr cs : forall k b,
  let r := createIcons pr cs k b in
  untouched (fst r) = untouched b /\
  windowListeners (fst r) = windowListeners b /\
  containerListeners (fst r) = containerListeners b /\
  map container (snd r) = seq k (List.length cs) /\
  Forall pristine (snd r).
Proof.
  induction cs as [|c cs IH]; intros k b; simpl.
  - auto.
  - specialize (IH (S k) (appendChild k k b)).
    destruct (createIcons pr cs (S k) (appendChild k k b)) as [b' rest].
    simpl in *. destruct IH as (A & B & C & D & E).
    rewrite A, B, C, D. repeat split; auto.
    constructor; [|exact E]. repeat split.
Qed.

Lemma In_add_listener {A} (dec : forall a b : A, {a = b} + {a <> b}) x l y :
  In y (add_listener dec x l) <-> y = x \/ In y l.
Proof.
  unfold add_listener. destruct (in_dec dec x l) as [H|H].
  - split; auto. intros [->|]; auto.
  - rewrite in_app_iff. simpl. intuition congruence.
Qed.

Lemma attachListeners_spec ics : forall i b,
  let r := attachListeners i ics b in
  untouched (fst r) = untouched b /\
  (Forall std_listener (windowListeners b) ->
   Forall std_listener (windowListeners (fst r))) /\
  (forall x, In x (windowListeners (fst r)) ->
             In x (windowListeners b) \/ In x (flat_map _windowListeners (snd r))) /\
  (forall x, In x (containerListeners b) -> In x (containerListeners (fst r))) /\
  (forall ic, In ic ics -> In (container ic, "click") (containerListeners (fst r))) /\
  map container (snd r) = map container ics /\
  (Forall pristine ics -> Forall pristine (snd r)).
Proof.
  induction ics as [|ic rest IH]; intros i b; simpl.
  - repeat split; auto. intros ic [].
  - match goal with |- context [attachListeners (S i) rest ?b1] =>
      specialize (IH (S i) b1); destruct (attachListeners (S i) rest b1) as [b' rest']
    end.
    cbn [fst snd] in *. destruct IH as (A & B & C & D & E & F & G).
    split; [rewrite A; reflexivity|].
    split.
    { intros Hs. apply B. cbn.
      rewrite Forall_forall in *. intros x Hx.
      repeat (apply In_add_listener in Hx; destruct Hx as [->|Hx]; [reflexivity|]).
      auto. }
    split.
    { intros x Hx. cbn [flat_map set_windowListeners _windowListeners].
      destruct (C x Hx) as [Hb|Hr]; [|right; apply in_or_app; auto].
      cbn in Hb.
      repeat (apply In_add_listener in Hb; destruct Hb as [->|Hb];
              [right; apply in_or_app; left; simpl; tauto|]).
      auto. }
    split.
    { intros x Hx. apply D. cbn. repeat (apply In_add_listener; right). exact Hx. }
    split.
    { intros ic' [<-|Hin]; [|auto].
      apply D. cbn. apply In_add_listener. now left. }
    split.
    { cbn. now rewrite F. }
    intros Hp. inversion Hp as [|? ? Hic Hrest]; subst.
    constructor; [exact Hic | auto].
Qed.

Lemma pristine_ok ic : pristine ic -> icon_ok ic.
Proof. intros (A & B & C). split; auto. rewrite B. discriminate. Qed.

Lemma boot_Inv page s0 : boot page = Some s0 -> Inv page s0.
Proof.
  unfold boot, initSocialIcons.
  destruct (iconContainers page) as [|c0 cs] eqn:Ec; [discriminate|].
  destruct (orElse _ _) as [footer|]; [|discriminate].
  rewrite <- Ec.
  pose proof (createIcons_spec (Js.Math_min (devicePixelRatio page) 2)
                (iconContainers page) 0 fresh) as H1.
  destruct (createIcons _ _ 0 fresh) as [b1 ics1]. cbn [fst snd] in H1.
  destruct H1 as (A1 & B1 & C1 & D1 & E1).
  pose proof (attachListeners_spec ics1 0 b1) as H2.
  destruct (attachListeners 0 ics1 b1) as [b2 ics2]. cbn [fst snd] in H2.
  destruct H2 as (A2 & B2 & C2 & D2 & E2 & F2 & G2).
  intros [= <-].
  assert (U : untouched b2 = untouched fresh) by congruence.
  unfold untouched in U. cbn in U.
  injection U as U1 U2 U3 U4 U5 U6 U7 U8 U9.
  constructor; cbn.
  - eapply Forall_impl; [apply pristine_ok | auto].
  - unfold raf_ok; cbn. auto.
  - unfold renderer_ok; cbn. repeat split; auto; discriminate.
  - unfold loads_ok; cbn. exact U4.
  - repeat split; cbn.
    + apply B2. rewrite B1. constructor.
    + intros x Hx. destruct (C2 x Hx) as [Hb|Hr]; [|exact Hr].
      rewrite B1 in Hb. destruct Hb.
    + intros i Hi.
      assert (Hin : In i (map container ics1)).
      { rewrite D1. apply in_seq.
        rewrite <- (length_map container ics2), F2, D1, length_seq in Hi. lia. }
      apply in_map_iff in Hin. destruct Hin as (ic & <- & Hic). auto.
Qed.

Lemma reachable_Inv page s : reachable page s -> Inv page s.
Proof.
  intros (s0 & es & Hb & Hr).
  destruct (run_Inv es (boot_Inv _ Hb)) as (s' & E & I & _).
  congruence.
Qed.

Lemma reachable_step page s e :
  reachable page s -> exists s', step s e = Some s' /\ reachable page s'.
Proof.
  intros Hr. destruct (step_Inv e (reachable_Inv Hr)) as (s' & E & _).
  exists s'. split; [exact E|].
  destruct Hr as (s0 & es & Hb & Hrun). exists s0, (es ++ [e]). split; [exact Hb|].
  clear Hb. revert s0 Hrun. induction es as [|e' es IH]; intros s0; simpl.
  - intros [= ->]. now rewrite E.
  - destruct (step s0 e'); [apply IH | discriminate].
Qed.

(** ** Model loading is requested once *)

Lemma filter_requests_later ics : forall k j,
  j < k -> filter (fun r => Nat.eqb (fst r) j) (requests k ics) = [].
Proof.
  induction ics as [|ic rest IH]; intros k j Hlt; simpl; [reflexivity|].
  destruct (Nat.eqb_spec k j); [lia|]. apply IH. lia.
Qed.

Lemma filter_requests ics : forall k i icon,
  nth_error ics i = Some icon ->
  filter (fun r => Nat.eqb (fst r) (k + i)) (requests k ics) = [(k + i, modelPath icon)].
Proof.
  induction ics as [|ic rest IH]; intros k [|i] icon H; simpl in *; try discriminate.
  - injection H as ->. rewrite Nat.add_0_r, Nat.eqb_refl.
    now rewrite filter_requests_later by lia.
  - destruct (Nat.eqb_spec k (k + S i)); [lia|].
    replace (k + S i) with (S k + i) by lia. now apply IH.
Qed.

Lemma requests_length ics : forall k,
  List.length (requests k ics) = List.length ics.
Proof. induction ics as [|ic rest IH]; intros k; simpl; auto. Qed.

Lemma iter_loadModels n s : Nat.iter (S n) loadModels s = loadModels s.
Proof.
  induction n as [|n IH]; [reflexivity|].
  change (loadModels (Nat.iter (S n) loadModels s) = loadModels s).
  rewrite IH. apply loadModels_idem.
Qed.

(** C2.  However many times [loadModels] is invoked on the running module,
    once it has been invoked at all the load requests issued since the page
    was set up are exactly one per icon, for that icon's model path, and a
    further invocation changes nothing. *)
Theorem C2_loadModels_once (page : Page) (s : State) (n : nat) :
  reachable page s ->
  let s' := Nat.iter (S n) loadModels s in
  modelsRequested (closure s') = true /\
  icons (closure s') = icons (closure s) /\
  loadRequests (browser s') = requests 0 (icons (closure s)) /\
  List.length (loadRequests (browser s')) = List.length (icons (closure s)) /\
  (forall i icon, nth_error (icons (closure s)) i = Some icon ->
     filter (fun r => Nat.eqb (fst r) i) (loadRequests (browser s'))
     = [(i, modelPath icon)]) /\
  loadModels s' = s'.
Proof.
  intros Hr. cbv zeta. rewrite iter_loadModels.
  pose proof (loadModels_loads_ok (inv_loads (reachable_Inv Hr))) as L.
  unfold loads_ok in L. rewrite loadModels_requested in L.
  assert (Hi : icons (closure (loadModels s)) = icons (closure s)).
  { rewrite loadModels_spec. now destruct (modelsRequested (closure s)). }
  rewrite Hi in L. rewrite L.
  split; [apply loadModels_requested|]. split; [exact Hi|]. split; [reflexivity|].
  split.
  { apply requests_length. }
  split; [|apply loadModels_idem].
  intros i icon H. exact (filter_requests _ 0 _ H).
Qed.

Lemma C2_loadModels_once_witness :
  exists s, reachable samplePage s /\
    loadRequests (browser (Nat.iter 3 loadModels s)) = [(0, "a.glb"); (1, "b.glb")].
Proof.
  assert (R : reachable samplePage (sampleAfter []))
    by (exists (sampleAfter []), []; split; vm_compute; reflexivity).
  exists (sampleAfter []). split; [exact R|].
  exact (proj1 (proj2 (proj2 (@C2_loadModels_once samplePage _ 2 R)))).
Defined.

(** ** Click *)

Lemma containerHandler_click i x s : containerHandler i "click" x s = onClick i s.
Proof. reflexivity. Qed.

Lemma app_one_neq {A} (l : list A) (a : A) : l ++ [a] <> l.
Proof.
  intros H. apply (f_equal (@List.length A)) in H.
  rewrite length_app in H. simpl in H. lia.
Qed.

Lemma click_opens s i icon x :
  nth_error (icons (closure s)) i = Some icon ->
  In (i, "click") (containerListeners (browser s)) ->
  hasDragged icon = false ->
  exists s', step s (ContainerEvent i "click" x) = Some s' /\
             opened (browser s') = opened (browser s) ++ [(link icon, "_blank")].
Proof.
  intros Hn Hl Hd. simpl.
  destruct (in_dec _ _ _) as [_|N]; [|contradiction].
  rewrite containerHandler_click. unfold onClick. rewrite Hn, Hd. simpl.
  eexists; split; reflexivity.
Qed.

(** C3.  A click on icon [i]'s container opens the icon's link in a new
    browsing context exactly when [hasDragged] is false at that moment; either
    way the module's own state is untouched, and when [hasDragged] is true
    nothing changes at all. *)
Theorem C3_click_navigates_unless_dragged (s : State) (i : nat) (icon : Icon)
    (clientX : float) :
  nth_error (icons (closure s)) i = Some icon ->
  In (i, "click") (containerListeners (browser s)) ->
  exists s',
    step s (ContainerEvent i "click" clientX) = Some s' /\
    closure s' = closure s /\
    (opened (browser s') = opened (browser s) ++ [(link icon, "_blank")]
     <-> hasDragged icon = false) /\
    (hasDragged icon = false ->
     browser s' = with_opened (opened (browser s) ++ [(link icon, "_blank")]) (browser s)) /\
    (hasDragged icon = true -> s' = s).
Proof.
  intros Hn Hl. simpl.
  destruct (in_dec _ _ _) as [_|N]; [|contradiction].
  rewrite containerHandler_click. unfold onClick. rewrite Hn.
  destruct (hasDragged icon); simpl; eexists; (split; [reflexivity|]); simpl.
  - split; [reflexivity|]. split; [|split; [discriminate | reflexivity]].
    split; [|discriminate]. intros H. symmetry in H. now apply app_one_neq in H.
  - split; [reflexivity|]. split; [tauto|]. split; [reflexivity | discriminate].
Qed.

Lemma C3_click_navigates_unless_dragged_witness :
  exists s', step (sampleAfter sampleShown) (ContainerEvent 1 "click" 0) = Some s' /\
             opened (browser s') = [("https://b.example", "_blank")].
Proof.
  edestruct (@C3_click_navigates_unless_dragged (sampleAfter sampleShown) 1)
    as (s' & E & _ & H & _).
  - reflexivity.
  - vm_compute. auto 10.
  - exists s'. split; [exact E|]. exact (proj2 H eq_refl).
Defined.

(** ** Initialisation that finds nothing to do *)

(** C9.  With no matching container, or with neither a [footer] ancestor of
    the first container nor the fallback element, [initSocialIcons] returns
    at once and leaves the page exactly as it was: no canvas in the DOM, no
    renderer, no observer target, no listener. *)
Theorem C9_init_aborts_silently (page : Page) (b : Browser) :
  iconContainers page = [] \/
  (exists c0 rest, iconContainers page = c0 :: rest /\
                   closest_footer c0 = None /\ social_links_3d page = None) ->
  initSocialIcons page b = (b, None) /\
  boot page = None /\
  let b' := fst (initSocialIcons page b) in
  dom b' = dom b /\ renderers b' = renderers b /\ observed b' = observed b /\
  windowListeners b' = windowListeners b /\
  containerListeners b' = containerListeners b.
Proof.
  intros H.
  assert (E : forall b0, initSocialIcons page b0 = (b0, None)).
  { intros b0. unfold initSocialIcons.
    destruct H as [->|(c0 & rest & -> & -> & ->)]; reflexivity. }
  split; [apply E|]. split.
  - unfold boot. now rewrite E.
  - rewrite E. cbn. auto.
Qed.

Lemma C9_init_aborts_silently_witness :
  initSocialIcons {| iconContainers := []; social_links_3d := Some 5;
                     devicePixelRatio := 1 |} fresh = (fresh, None) /\
  initSocialIcons {| iconContainers := [ {| dataset_model := "a.glb";
                                            dataset_link := "https://a.example";
                                            closest_footer := None |} ];
                     social_links_3d := None; devicePixelRatio := 1 |} fresh
  = (fresh, None).
Proof.
  split.
  - apply C9_init_aborts_silently. now left.
  - apply C9_init_aborts_silently. right. do 2 eexists. repeat split.
Defined.

(** ** One animation frame *)



Lemma set_rotation_y_same_but_yaw r p : same_but_yaw (set_rotation_y r p) p.
Proof. destruct p. repeat split. Qed.



(** ** Moves over an icon whose model has not arrived *)

Lemma fold_left_inv_Forall {A B} (Q : A -> Prop) (P : B -> Prop)
    (f : B -> A -> B) (l : list A) :
  Forall Q l -> (forall b a, Q a -> P b -> P (f b a)) ->
  forall b, P b -> P (fold_left f l b).
Proof.
  intros Hl Hf. induction Hl as [|a l Ha Hl IH]; simpl; auto.
Qed.

Lemma on_icon_keeps i j f s icon :
  nth_error (icons (closure s)) i = Some icon ->
  (j = i -> f icon = icon) ->
  nth_error (icons (closure (on_icon j f s))) i = Some icon.
Proof.
  intros Hn Hf. simpl. destruct (Nat.eq_dec j i) as [->|Hne].
  - rewrite (update_at_fixed f _ _ Hn); auto.
  - now rewrite nth_error_update_at_other.
Qed.

Lemma dispatch_move_unloaded type x s i icon :
  type = "mousemove" \/ type = "touchmove" ->
  Forall std_listener (windowListeners (browser s)) ->
  nth_error (icons (closure s)) i = Some icon ->
  pivot icon = None ->
  nth_error (icons (closure (dispatchWindow type x s))) i = Some icon.
Proof.
  intros Ht Hstd Hn Hp. unfold dispatchWindow.
  apply (@fold_left_inv_Forall _ _ std_listener
           (fun s' => nth_error (icons (closure s')) i = Some icon)); auto.
  intros s' [e h] Hs Hn'. simpl. destruct (string_dec e type) as [->|]; auto.
  unfold std_listener in Hs. simpl in Hs.
  destruct h as [j|j|j|j]; simpl; destruct Ht as [-> | ->]; try discriminate;
    apply on_icon_keeps; auto; intros _.
  - now apply onDragMove_unloaded.
  - unfold touchMove. destruct (isDragging icon); auto using onDragMove_unloaded.
Qed.

(** C10.  For an icon of the running module whose model has not arrived
    ([pivot] is [null]): a pointer move is a no-op on it, whether it reaches
    [onDragMove] directly or through the window's [mousemove] and [touchmove]
    listeners, so a whole drag leaves the icon as pointer-down left it;
    [hasDragged] is false; and a click on it opens its link. *)
Theorem C10_unloaded_moves_are_noops (page : Page) (s : State) (i : nat)
    (icon : Icon) :
  reachable page s ->
  nth_error (icons (closure s)) i = Some icon ->
  pivot icon = None ->
  (forall x, onDragMove x icon = icon /\ touchMove x icon = icon) /\
  (forall x0 xs, drag x0 xs icon = onDragStart x0 icon) /\
  (forall x,
     nth_error (icons (closure (dispatchWindow "mousemove" x s))) i = Some icon /\
     nth_error (icons (closure (dispatchWindow "touchmove" x s))) i = Some icon) /\
  hasDragged icon = false /\
  (forall x, exists s',
     step s (ContainerEvent i "click" x) = Some s' /\
     opened (browser s') = opened (browser s) ++ [(link icon, "_blank")]).
Proof.
  intros Hr Hn Hp.
  destruct (reachable_Inv Hr) as [Hi _ _ _ (Hstd & _ & Hclick)].
  assert (Hd : hasDragged icon = false).
  { rewrite Forall_forall in Hi. apply (Hi icon); [|exact Hp].
    eapply nth_error_In; eauto. }
  split.
  { intros x. split; [now apply onDragMove_unloaded|].
    unfold touchMove. destruct (isDragging icon); auto using onDragMove_unloaded. }
  split.
  { intros x0 xs. unfold drag. now apply moves_unloaded. }
  split.
  { intros x. split; apply dispatch_move_unloaded; auto. }
  split; [exact Hd|].
  intros x.
  assert (Hl : In (i, "click") (containerListeners (browser s))).
  { apply Hclick. apply nth_error_Some. congruence. }
  destruct (@click_opens s i icon x Hn Hl Hd) as (s' & E & O).
  exists s'. auto.
Qed.

Ltac sample_reachable :=
  match goal with
  | |- reachable samplePage (sampleAfter ?es) =>
      exists (sampleAfter []), es; split; vm_compute; reflexivity
  end.

Lemma C10_unloaded_moves_are_noops_witness :
  let s := sampleAfter (sampleShown ++ [ ContainerEvent 1 "mousedown" 5;
                                         WindowEvent "mousemove" 50 ]) in
  exists icon s',
    nth_error (icons (closure s)) 1 = Some icon /\
    pivot icon = None /\ isDragging icon = true /\
    step s (ContainerEvent 1 "click" 0) = Some s' /\
    opened (browser s') = [("https://b.example", "_blank")].
Proof.
  intros s.
  assert (R : reachable samplePage s) by (subst s; simpl app; sample_reachable).
  destruct (nth_error (icons (closure s)) 1) as [icon|] eqn:E;
    [|vm_compute in E; discriminate].
  assert (Hp : pivot icon = None).
  { vm_compute in E. injection E as <-. reflexivity. }
  destruct (@C10_unloaded_moves_are_noops samplePage s 1 icon R E Hp)
    as (_ & _ & _ & _ & H).
  destruct (H 0%float) as (s' & E' & O).
  exists icon, s'. split; [reflexivity|]. split; [exact Hp|].
  split; [vm_compute in E; injection E as <-; reflexivity|].
  split; [exact E'|].
  rewrite O. vm_compute in E. injection E as <-. vm_compute. reflexivity.
Defined.

(** ** The load callback *)

(** What the callback of [gltfLoader.load] does to an icon: the model gets
    the uniform scale [1.8 / maxDim] and the position opposite to the centre
    three.js reports for the scaled model, a fresh group holding it becomes
    the icon's pivot and the last child of its scene, and [modelLoaded] is
    set.  Every other field of the icon stays. *)
Lemma onModelLoaded_shape (gltf : Gltf) (icon : Icon) :
  let size := box_size gltf in
  let scale := (1.8 / Js.Math_max3 (x size) (y size) (z size))%float in
  let center := scaled_center gltf scale in
  let model := set_scale_position scale
                 (vec3 (- x center) (- y center) (- z center))%float
                 (gltf_scene gltf) in
  let icon' := onModelLoaded gltf icon in
  modelLoaded icon' = true /\
  pivot icon' = Some (Node (bare Group zero3) [model]) /\
  scene_children icon' = scene icon ++ [Node (bare Group zero3) [model]] /\
  static icon' = static icon /\
  (manualRotation icon', isDragging icon', hasDragged icon', lastX icon')
  = (manualRotation icon, isDragging icon, hasDragged icon, lastX icon).
Proof. cbv zeta. repeat split. Qed.

(** In binary64 the scale [1.8 / maxDim] need not bring [maxDim] back to 1.8:
    for a model 3 units wide, [3 * (1.8 / 3)] is 1.7999999999999998. *)
Remark rescale_is_rounded :
  onModelLoaded sampleGltf sampleIcon = sampleLoadedIcon /\
  (3 * (1.8 / Js.Math_max3 3 2 1) =? 1.8)%float = false.
Proof. split; [reflexivity | vm_compute; reflexivity]. Qed.




(** ** The visibility gate *)

Lemma stopAnimating_drawLog s :
  drawLog (browser (stopAnimating s)) = drawLog (browser s).
Proof.
  destruct (stopAnimating_spec s) as (_ & _ & _ & _ & _ & _ & G).
  rewrite G. now destruct (animFrameId (closure s)).
Qed.

Lemma onIntersection_hidden now entries : forall s,
  existsb (fun isIntersecting => isIntersecting) entries = false ->
  isAnimating (closure s) = false ->
  exists s', onIntersection now entries s = Some s' /\
             isAnimating (closure s') = false /\
             drawLog (browser s') = drawLog (browser s) /\
             observed (browser s') = observed (browser s).
Proof.
  induction entries as [|[|] rest IH]; intros s He Ha; simpl in *; try discriminate.
  - exists s. auto.
  - destruct (IH (stopAnimating s) He) as (s' & E & A & D & O).
    + apply stopAnimating_spec.
    + exists s'. split; [exact E|]. split; [exact A|].
      now rewrite D, O, stopAnimating_drawLog, stopAnimating_observed.
Qed.

(** While the loop is stopped, nothing but the footer coming into view draws,
    and a disconnected observer stays disconnected. *)
Lemma step_quiet s e :
  isAnimating (closure s) = false -> shows e = false ->
  exists s', step s e = Some s' /\ isAnimating (closure s') = false /\
             drawLog (browser s') = drawLog (browser s) /\
             (observed (browser s) = [] -> observed (browser s') = []).
Proof.
  intros Ha Hs. destruct e as [i type x|type x|entries now|id now|i g|i|]; simpl.
  - destruct (in_dec _ _ _); [|exists s; auto].
    eexists; split; [reflexivity|]. unfold containerHandler, onClick.
    repeat match goal with |- context [string_dec ?a ?b] => destruct (string_dec a b) end;
      auto.
    destruct (nth_error _ i) as [ic|]; auto. destruct (negb (hasDragged ic)); auto.
  - eexists; split; [reflexivity|]. unfold dispatchWindow.
    apply (fold_left_inv
             (fun s' => isAnimating (closure s') = false /\
                        drawLog (browser s') = drawLog (browser s) /\
                        (observed (browser s) = [] -> observed (browser s') = [])));
      auto.
    intros b eh Hb. destruct (string_dec (fst eh) type); auto.
    destruct (snd eh); exact Hb.
  - destruct (observed (browser s)) eqn:Eo; [exists s; auto|].
    destruct (onIntersection_hidden now entries s Hs Ha) as (s' & E & A & D & O).
    exists s'. rewrite O, Eo. auto.
  - destruct (in_natb id (rafPending (browser s))); [|exists s; auto].
    rewrite animate_idle by exact Ha. eexists; split; [reflexivity|]. auto.
  - destruct (in_natb i (inflight (browser s))); [|exists s; auto].
    eexists; split; [reflexivity|]. auto.
  - eexists; split; [reflexivity|]. auto.
  - exists (dispose s). split; [reflexivity|].
    destruct (dispose_spec s) as ((A1 & _) & (B1 & _ & _ & _ & B5 & _) & _). auto.
Qed.

Lemma run_quiet es : forall s,
  isAnimating (closure s) = false ->
  forallb (fun e => negb (shows e)) es = true ->
  exists s', run s es = Some s' /\ isAnimating (closure s') = false /\
             drawLog (browser s') = drawLog (browser s).
Proof.
  induction es as [|e es IH]; intros s Ha Hq; simpl in *.
  - exists s. auto.
  - apply andb_true_iff in Hq. destruct Hq as [He Hq].
    apply negb_true_iff in He.
    destruct (@step_quiet s e Ha He) as (s1 & E & A1 & D1 & _). rewrite E.
    destruct (IH s1 A1 Hq) as (s' & E' & A' & D').
    exists s'. split; [exact E'|]. split; [exact A'|]. congruence.
Qed.

(** Once the observer is disconnected and the loop stopped, no event draws. *)
Lemma run_disconnected es : forall s,
  observed (browser s) = [] -> isAnimating (closure s) = false ->
  exists s', run s es = Some s' /\ drawLog (browser s') = drawLog (browser s).
Proof.
  induction es as [|e es IH]; intros s Ho Ha; simpl.
  - exists s. auto.
  - assert (H : exists s1, step s e = Some s1 /\ isAnimating (closure s1) = false /\
                           drawLog (browser s1) = drawLog (browser s) /\
                           observed (browser s1) = []).
    { destruct (shows e) eqn:Es.
      - destruct e; try discriminate. simpl. rewrite Ho. exists s. auto.
      - destruct (@step_quiet s e Ha Es) as (s1 & E & A & D & O). exists s1. auto. }
    destruct H as (s1 & E & A & D & O). rewrite E.
    destruct (IH s1 O A) as (s' & E' & D').
    exists s'. split; [exact E'|]. congruence.
Qed.

Lemma frame_rel_show t ic ic' : frame_rel t ic ic' -> show_rel t ic ic'.
Proof.
  unfold frame_rel, show_rel, frame_yaw. destruct (modelLoaded ic) eqn:Em.
  - intros (p & _ & ->). simpl. split; [exact Em|].
    now destruct (isDragging ic).
  - intros ->. rewrite Em. auto.
Qed.

Lemma startAnimating_stopped now s :
  isAnimating (closure s) = false ->
  Forall loaded_has_pivot (icons (closure s)) ->
  exists s', startAnimating now s = Some s' /\
             modelsRequested (closure s') = true /\
             Forall2 (frame_rel (now * 0.001)) (icons (closure s)) (icons (closure s')).
Proof.
  intros Ha Hp. unfold startAnimating. rewrite Ha.
  set (s1 := on_closure (with_isAnimating true) s).
  assert (Hi : icons (closure (loadModels s1)) = icons (closure s)).
  { rewrite loadModels_spec. now destruct (modelsRequested (closure s1)). }
  assert (Hr : isAnimating (closure (loadModels s1)) = true).
  { rewrite loadModels_spec. now destruct (modelsRequested (closure s1)). }
  destruct (animate_running now (loadModels s1) Hr) as (ics' & F & E).
  { now rewrite Hi. }
  rewrite E. eexists; split; [reflexivity|]. rewrite Hi in F. split; [|exact F].
  pose proof (loadModels_requested s1) as Hm.
  unfold getSharedRenderer, requestAnimationFrame. cbn.
  destruct (sharedRenderer (closure (loadModels s1))); cbn; exact Hm.
Qed.

(** C4, as amended.  While the observer is connected and the module runs:
    at most one frame callback is ever pending; the footer coming into view
    while the loop runs changes nothing; coming into view while the loop is
    stopped starts it with exactly one pending callback, has the models
    requested (one request per icon), and runs a frame at once, which keeps
    every icon's [modelLoaded] and keeps [manualRotation] for the icons that
    are not loaded or are being dragged, a loaded icon that is not being
    dragged getting [time + index * 0.5]; the footer going out of view stops the
    loop, cancels the pending callback and leaves every icon as it was, and
    from then on no render, clear or draw call is made by any sequence of
    events in which the footer does not come into view. *)
Theorem C4_visibility_gate (page : Page) (s : State) (now : float) :
  reachable page s ->
  observed (browser s) <> [] ->
  List.length (rafPending (browser s)) <= 1 /\
  (isAnimating (closure s) = true -> step s (Intersection [true] now) = Some s) /\
  (isAnimating (closure s) = false ->
   exists s' id,
     step s (Intersection [true] now) = Some s' /\
     isAnimating (closure s') = true /\
     animFrameId (closure s') = Some id /\
     rafPending (browser s') = [id] /\
     modelsRequested (closure s') = true /\
     loadRequests (browser s') = requests 0 (icons (closure s)) /\
     Forall2 (show_rel (now * 0.001)) (icons (closure s)) (icons (closure s'))) /\
  exists s',
    step s (Intersection [false] now) = Some s' /\
    s' = stopAnimating s /\
    isAnimating (closure s') = false /\
    animFrameId (closure s') = None /\
    rafPending (browser s') = [] /\
    icons (closure s') = icons (closure s) /\
    forall es, forallb (fun e => negb (shows e)) es = true ->
      exists s'', run s' es = Some s'' /\
                  drawLog (browser s'') = drawLog (browser s).
Proof.
  intros Hr Ho. pose proof (reachable_Inv Hr) as HI.
  assert (Hstep : forall entries,
            step s (Intersection entries now) = onIntersection now entries s).
  { intros entries. simpl. now destruct (observed (browser s)). }
  rewrite !Hstep. split.
  { pose proof (inv_raf HI) as R. unfold raf_ok in R.
    destruct (isAnimating (closure s)).
    - destruct R as (id & _ & ->). simpl. lia.
    - destruct R as (_ & ->). simpl. lia. }
  split.
  { intros Ha. simpl. unfold startAnimating. now rewrite Ha. }
  split.
  { intros Ha.
    destruct (startAnimating_Inv now HI Ho) as (s' & E & I' & F' & _ & A').
    destruct (startAnimating_stopped now s Ha (icon_ok_loaded (inv_icons HI)))
      as (s2 & E2 & M & F2).
    assert (s2 = s') by congruence. subst s2.
    pose proof (inv_raf I') as R. unfold raf_ok in R. rewrite A' in R.
    destruct R as (id & Rf & Rp).
    exists s', id. simpl. rewrite E.
    repeat (split; [assumption || reflexivity|]). split.
    - pose proof (inv_loads I') as L. unfold loads_ok in L. rewrite M in L.
      rewrite L. apply requests_static. apply F'.
    - eapply Forall2_impl; [|exact F2]. apply frame_rel_show. }
  exists (stopAnimating s). split; [reflexivity|]. split; [reflexivity|].
  destruct (stopAnimating_spec s) as (A & B & C & _).
  pose proof (inv_raf (stopAnimating_Inv HI)) as R. unfold raf_ok in R.
  rewrite A in R. destruct R as (_ & Rp).
  repeat (split; [assumption|]).
  intros es Hq. destruct (run_quiet es _ A Hq) as (s'' & E & _ & D).
  exists s''. split; [exact E|]. now rewrite D, stopAnimating_drawLog.
Qed.

Lemma C4_visibility_gate_witness :
  let s := sampleAfter sampleShown in
  observed (browser s) = [100] /\
  step s (Intersection [true] 3000) = Some s /\
  exists s', step s (Intersection [false] 3000) = Some s' /\
             rafPending (browser s') = [] /\
             icons (closure s') = icons (closure s).
Proof.
  intros s.
  assert (R : reachable samplePage s) by (subst s; sample_reachable).
  assert (O : observed (browser s) <> []) by (vm_compute; discriminate).
  destruct (@C4_visibility_gate samplePage s 3000 R O)
    as (_ & Hshow & _ & s' & E & _ & _ & _ & P & I & _).
  split; [vm_compute; reflexivity|].
  split; [apply Hshow; vm_compute; reflexivity|].
  exists s'. split; [exact E|]. split; [exact P | exact I].
Defined.

(** C4 as stated fails for the rotation.  On the sample page, with icon 0
    loaded and spinning, the footer going out of view and coming back changes
    icon 0's [manualRotation] from 2 to 5: the frame that showing runs
    overwrites it with the time-based angle. *)
Lemma C4_counterexample :
  let s := sampleAfter sampleShown in
  reachable samplePage s /\
  exists s1 s2,
    step s (Intersection [false] 3000) = Some s1 /\
    step s1 (Intersection [true] 5000) = Some s2 /\
    map modelLoaded (icons (closure s)) = [true; false] /\
    map isDragging (icons (closure s)) = [false; false] /\
    map manualRotation (icons (closure s)) = [2; 0]%float /\
    map manualRotation (icons (closure s2)) = [5; 0]%float /\
    map manualRotation (icons (closure s2)) <> map manualRotation (icons (closure s)).
Proof.
  intros s. split; [subst s; sample_reachable|].
  exists (sampleAfter (sampleShown ++ [Intersection [false] 3000])),
         (sampleAfter (sampleShown ++ [Intersection [false] 3000;
                                       Intersection [true] 5000])).
  do 6 (split; [vm_compute; reflexivity|]).
  intros H.
  apply (f_equal (fun l => match l with
                           | r :: _ => (r =? 2)%float
                           | [] => true
                           end)) in H.
  vm_compute in H. discriminate.
Qed.

(** ** The shared renderer *)

Lemma getSharedRenderer_again s :
  getSharedRenderer (snd (getSharedRenderer s)) = getSharedRenderer s.
Proof.
  unfold getSharedRenderer.
  destruct (sharedRenderer (closure s)) as [r|] eqn:E; cbn; now rewrite ?E.
Qed.

(** C7.  Over the whole run of the module at most one renderer is
    constructed, and it is 80 by 80 with pixel ratio
    [min(devicePixelRatio, 2)]; while the observer is connected (the only time
    the loop calls it) [getSharedRenderer] returns that one renderer, whether
    it has to construct it or not; and calling it again returns the same
    object and constructs nothing. *)
Theorem C7_shared_renderer_singleton (page : Page) (s : State) :
  reachable page s ->
  List.length (renderers (browser s)) <= 1 /\
  (forall r, In r (renderers (browser s)) ->
     rid r = 0 /\ r_width r = 80%float /\ r_height r = 80%float /\
     r_pixelRatio r = Js.Math_min (devicePixelRatio page) 2) /\
  (forall r, sharedRenderer (closure s) = Some r -> renderers (browser s) = [r]) /\
  (observed (browser s) <> [] ->
     fst (getSharedRenderer s) = renderer0 page /\
     renderers (browser (snd (getSharedRenderer s))) = [renderer0 page]) /\
  getSharedRenderer (snd (getSharedRenderer s))
  = (fst (getSharedRenderer s), snd (getSharedRenderer s)).
Proof.
  intros Hr. destruct (inv_renderer (reachable_Inv Hr)) as (N1 & N2 & N3).
  assert (H0 : renderers (browser s) = [] \/ renderers (browser s) = [renderer0 page]).
  { destruct (sharedRenderer (closure s)) as [r|].
    - destruct N3 as [-> ->]. auto.
    - destruct N3 as [N3|[_ N3]]; auto. }
  split; [destruct H0 as [-> | ->]; simpl; lia|].
  split.
  { intros r Hin. destruct H0 as [H0|H0]; rewrite H0 in Hin; [destruct Hin|].
    destruct Hin as [<-|[]]. repeat split. }
  split.
  { intros r E. rewrite E in N3. apply N3. }
  split.
  { intros Ho. unfold getSharedRenderer.
    destruct (sharedRenderer (closure s)) as [r|]; cbn.
    - destruct N3 as [-> ->]. auto.
    - destruct N3 as [N3|[N3 _]]; [|contradiction].
      rewrite N3, N1. cbn. auto. }
  rewrite getSharedRenderer_again. now destruct (getSharedRenderer s).
Qed.

Lemma C7_shared_renderer_singleton_witness :
  let s := sampleAfter sampleShown in
  renderers (browser s)
  = [ {| rid := 0; r_width := 80; r_height := 80; r_pixelRatio := 2 |} ] /\
  List.length (renderers (browser s)) <= 1.
Proof.
  intros s.
  assert (R : reachable samplePage s) by (subst s; sample_reachable).
  split; [vm_compute; reflexivity|].
  exact (proj1 (@C7_shared_renderer_singleton samplePage s R)).
Defined.

(** ** Tearing down *)

Lemma In_disposeObject p :
  (forall g, geometry p = Some g -> In (GeometryRes g) (disposeObject p)) /\
  (forall m, material p = OneMaterial m -> In (MaterialRes m) (disposeObject p)) /\
  (forall ms m, material p = MaterialArray ms -> In m ms ->
                In (MaterialRes m) (disposeObject p)).
Proof.
  unfold disposeObject. repeat split.
  - intros g ->. apply in_or_app. left. now left.
  - intros m ->. apply in_or_app. right. now left.
  - intros ms m -> Hm. apply in_or_app. right. now apply in_map.
Qed.

(** C8.  On the running module [dispose()] stops the loop (no callback stays
    pending), disconnects the observer, leaves no window listener registered,
    calls [dispose()] on the geometry and on every material of every node of
    every icon's scene and on the shared renderer if one was made, forgets the
    renderer, and leaves no icon's canvas with a parent in the page; whatever
    happens afterwards, nothing is rendered or drawn any more. *)
Theorem C8_dispose_releases_everything (page : Page) (s : State) :
  reachable page s ->
  let s' := dispose s in
  step s Dispose = Some s' /\
  (isAnimating (closure s') = false /\ animFrameId (closure s') = None /\
   rafPending (browser s') = []) /\
  observed (browser s') = [] /\
  windowListeners (browser s') = [] /\
  (forall ic p, In ic (icons (closure s)) -> In p (traverse (sceneObject ic)) ->
     (forall g, geometry p = Some g -> In (GeometryRes g) (disposed (browser s'))) /\
     (forall m, material p = OneMaterial m -> In (MaterialRes m) (disposed (browser s'))) /\
     (forall ms m, material p = MaterialArray ms -> In m ms ->
                   In (MaterialRes m) (disposed (browser s')))) /\
  (forall r, sharedRenderer (closure s) = Some r ->
             In (RendererRes (rid r)) (disposed (browser s'))) /\
  sharedRenderer (closure s') = None /\
  (forall ic, In ic (icons (closure s)) ->
              parentNode (canvas_id (canvas2d ic)) (dom (browser s')) = None) /\
  (forall es, exists s'', run s' es = Some s'' /\
                          drawLog (browser s'') = drawLog (browser s)).
Proof.
  intros Hr. cbv zeta. pose proof (reachable_Inv Hr) as HI.
  destruct (dispose_spec s)
    as ((A1 & A2 & A3 & A4 & A5 & A6) & (B1 & B2 & B3 & B4 & B5 & B6) & R & W & D & X).
  split; [reflexivity|].
  split.
  { pose proof (inv_raf (dispose_Inv HI)) as Rf. unfold raf_ok in Rf.
    rewrite A1 in Rf. tauto. }
  split; [exact B1|].
  split.
  { rewrite W. apply remove_all_incl. apply (inv_listeners HI). }
  split.
  { intros ic p Hic Hp.
    assert (Hsub : incl (disposeObject p) (disposed (browser (dispose s)))).
    { rewrite X. intros res Hres. apply in_or_app. right. apply in_or_app. left.
      apply in_flat_map. exists ic. split; [exact Hic|].
      unfold icon_resources. apply in_flat_map. eauto. }
    destruct (In_disposeObject p) as (G & M1 & M2).
    repeat split; intros; apply Hsub; eauto. }
  split.
  { intros r E. rewrite X, E. apply in_or_app. right. apply in_or_app. right. now left. }
  split; [exact A3|].
  split.
  { intros ic Hic. apply parentNode_None. intros e He. rewrite D in He.
    apply In_fold_filter in He. destruct He as [_ He]. auto. }
  intros es. destruct (run_disconnected es _ B1 A1) as (s'' & E & Dl).
  exists s''. split; [exact E|]. now rewrite Dl.
Qed.

Lemma C8_dispose_releases_everything_witness :
  let s := sampleAfter sampleShown in
  windowListeners (browser (dispose s)) = [] /\
  dom (browser (dispose s)) = [] /\
  disposed (browser (dispose s))
  = [ GeometryRes 7; MaterialRes 8; GeometryRes 9; MaterialRes 10;
      MaterialRes 11; RendererRes 0 ].
Proof.
  intros s.
  assert (R : reachable samplePage s) by (subst s; sample_reachable).
  destruct (@C8_dispose_releases_everything samplePage s R) as (_ & _ & _ & W & _).
  split; [exact W|]. split; vm_compute; reflexivity.
Defined.

(** * Further properties of the module *)

(** ** What [initSocialIcons] sets up *)

Lemma add_listener_new {A} (dec : forall a b : A, {a = b} + {a <> b}) x l :
  ~ In x l -> add_listener dec x l = l ++ [x].
Proof. intros H. unfold add_listener. now destruct (in_dec dec x l). Qed.

Lemma filter_keeps_all {A} (f : A -> bool) l :
  (forall a, In a l -> f a = true) -> filter f l = l.
Proof.
  induction l as [|a l IH]; intros H; simpl; [reflexivity|].
  rewrite (H a) by now left. rewrite IH; auto. intros b Hb. apply H. now right.
Qed.

Lemma createIcons_exact pr cs : forall k b,
  (forall e, In e (dom b) -> fst e < k) ->
  createIcons pr cs k b
  = (with_dom (dom b ++ map (fun j => (j, j)) (seq k (List.length cs))) b,
     map (fun jc => newIcon pr (snd jc) (fst jc))
         (combine (seq k (List.length cs)) cs)).
Proof.
  induction cs as [|c cs IH]; intros k b Hb; simpl.
  - rewrite app_nil_r. now destruct b.
  - rewrite IH.
    + unfold appendChild. cbn.
      rewrite filter_keeps_all.
      * now rewrite <- app_assoc.
      * intros e He. apply Hb in He.
        destruct (Nat.eqb_spec (fst e) k); [lia | reflexivity].
    + unfold appendChild. cbn. intros e He. apply in_app_or in He.
      destruct He as [He|[<-|[]]]; [|simpl; lia].
      apply filter_In in He. destruct He as [He _]. apply Hb in He. lia.
Qed.

Ltac fresh_listener Hold :=
  let Hin := fresh "Hin" in
  intros Hin;
  repeat (apply in_app_or in Hin; destruct Hin as [Hin|Hin]);
  [ apply Hold in Hin; simpl in Hin; lia
  | simpl in Hin; intuition discriminate .. ].

Lemma attachListeners_exact ics : forall i b,
  (forall eh, In eh (windowListeners b) -> handler_icon (snd eh) < i) ->
  (forall ce, In ce (containerListeners b) -> fst ce < i) ->
  map container ics = seq i (List.length ics) ->
  attachListeners i ics b
  = (with_containerListeners
       (containerListeners b ++ flat_map containerEvents (seq i (List.length ics)))
       (with_windowListeners
          (windowListeners b ++ flat_map stdListeners (seq i (List.length ics))) b),
     map (fun jic => set_windowListeners (stdListeners (fst jic)) (snd jic))
         (combine (seq i (List.length ics)) ics)).
Proof.
  induction ics as [|ic rest IH]; intros i b Hw Hc Hm.
  - simpl. rewrite !app_nil_r. now destruct b.
  - cbn [List.length seq map] in Hm. injection Hm as Hci Hrest.
    cbn [attachListeners]. rewrite Hci.
    unfold addContainerListener, addWindowListener.
    cbn [containerListeners windowListeners with_containerListeners
         with_windowListeners].
    rewrite (add_listener_new clistener_eq_dec (i, "mousedown")) by fresh_listener Hc.
    rewrite (add_listener_new listener_eq_dec ("mousemove", mouseMoveHandler i))
      by fresh_listener Hw.
    rewrite (add_listener_new listener_eq_dec ("mouseup", mouseUpHandler i))
      by fresh_listener Hw.
    rewrite (add_listener_new clistener_eq_dec (i, "touchstart")) by fresh_listener Hc.
    rewrite (add_listener_new listener_eq_dec ("touchmove", touchMoveHandler i))
      by fresh_listener Hw.
    rewrite (add_listener_new listener_eq_dec ("touchend", touchEndHandler i))
      by fresh_listener Hw.
    rewrite (add_listener_new clistener_eq_dec (i, "click")) by fresh_listener Hc.
    rewrite IH; cbn [containerListeners windowListeners with_containerListeners
                     with_windowListeners].
    + cbn [List.length seq flat_map combine map fst snd].
      unfold stdListeners at 2, containerEvents at 2.
      rewrite <- !app_assoc. reflexivity.
    + intros eh Hin.
      repeat (apply in_app_or in Hin; destruct Hin as [Hin|Hin]);
        [apply Hw in Hin; lia | simpl in Hin; destruct Hin as [<-|[]]; simpl; lia ..].
    + intros ce Hin.
      repeat (apply in_app_or in Hin; destruct Hin as [Hin|Hin]);
        [apply Hc in Hin; lia | simpl in Hin; destruct Hin as [<-|[]]; simpl; lia ..].
    + exact Hrest.
Qed.

Lemma combine_seq_map {A B C} (F : nat -> A -> B) (G : nat -> B -> C) cs : forall k,
  let l' := map (fun jc => F (fst jc) (snd jc)) (combine (seq k (List.length cs)) cs) in
  List.length l' = List.length cs /\
  map (fun jb => G (fst jb) (snd jb)) (combine (seq k (List.length l')) l')
  = map (fun jc => G (fst jc) (F (fst jc) (snd jc)))
        (combine (seq k (List.length cs)) cs).
Proof.
  induction cs as [|c cs IH]; intros k; simpl; [auto|].
  destruct (IH (S k)) as [L E]. cbv zeta in *. rewrite L in *. split; [reflexivity|].
  now rewrite E.
Qed.

Lemma nth_error_combine_seq {A B} (F : nat -> A -> B) cs : forall k j c,
  nth_error cs j = Some c ->
  nth_error (map (fun jc => F (fst jc) (snd jc)) (combine (seq k (List.length cs)) cs)) j
  = Some (F (k + j) c).
Proof.
  induction cs as [|c0 cs IH]; intros k [|j] c H; simpl in *; try discriminate.
  - injection H as ->. now rewrite Nat.add_0_r.
  - rewrite (IH (S k) j c H). f_equal. f_equal. lia.
Qed.

Lemma parentNode_diag n : forall k j,
  k <= j < k + n -> parentNode j (map (fun i => (i, i)) (seq k n)) = Some j.
Proof.
  induction n as [|n IH]; intros k j H; simpl; [lia|].
  destruct (Nat.eqb_spec k j) as [->|Hne]; [reflexivity|].
  apply IH. lia.
Qed.

(** The state [initSocialIcons] leaves on a fresh page, in full. *)
Lemma boot_exact page c0 rest footer :
  iconContainers page = c0 :: rest ->
  orElse (closest_footer c0) (social_links_3d page) = Some footer ->
  boot page
  = Some
      {| browser :=
           {| dom := map (fun j => (j, j)) (seq 0 (List.length (iconContainers page)));
              containerListeners :=
                flat_map containerEvents (seq 0 (List.length (iconContainers page)));
              windowListeners :=
                flat_map stdListeners (seq 0 (List.length (iconContainers page)));
              observed := [footer]; rafPending := []; rafNext := 0;
              loadRequests := []; inflight := []; opened := []; renderers := [];
              drawLog := []; disposed := [] |};
         closure :=
           {| pixelRatio := Js.Math_min (devicePixelRatio page) 2;
              sharedRenderer := None;
              icons :=
                map (fun jc => set_windowListeners (stdListeners (fst jc))
                                 (newIcon (Js.Math_min (devicePixelRatio page) 2)
                                          (snd jc) (fst jc)))
                    (combine (seq 0 (List.length (iconContainers page)))
                             (iconContainers page));
              modelsRequested := false; animFrameId := None;
              isAnimating := false |} |}.
Proof.
  intros Hc Hf. unfold boot, initSocialIcons. rewrite Hc, Hf, <- Hc.
  rewrite createIcons_exact by (intros e []).
  set (pr := Js.Math_min (devicePixelRatio page) 2).
  destruct (combine_seq_map (fun j c => newIcon pr c j)
              (fun j ic => set_windowListeners (stdListeners j) ic)
              (iconContainers page) 0) as [L E].
  cbv zeta in L, E.
  rewrite attachListeners_exact.
  - rewrite E, L. reflexivity.
  - intros eh [].
  - intros ce [].
  - rewrite L. clear. generalize 0.
    induction (iconContainers page) as [|c cs IH]; intros k; simpl; [reflexivity|].
    now rewrite IH.
Qed.

Lemma boot_found page s0 :
  boot page = Some s0 ->
  exists c0 rest footer,
    iconContainers page = c0 :: rest /\
    orElse (closest_footer c0) (social_links_3d page) = Some footer.
Proof.
  unfold boot, initSocialIcons. intros Hb.
  destruct (iconContainers page) as [|c0 rest]; [discriminate|].
  destruct (orElse _ _) as [f|] eqn:E; [|discriminate]. eauto.
Qed.

Lemma boot_quiet page s0 :
  boot page = Some s0 ->
  Forall unloaded (icons (closure s0)) /\
  isAnimating (closure s0) = false /\ animFrameId (closure s0) = None /\
  modelsRequested (closure s0) = false /\ sharedRenderer (closure s0) = None /\
  loadRequests (browser s0) = [] /\ inflight (browser s0) = [] /\
  renderers (browser s0) = [] /\ drawLog (browser s0) = [] /\
  rafPending (browser s0) = [] /\ disposed (browser s0) = [] /\
  opened (browser s0) = [].
Proof.
  intros Hb. destruct (boot_found _ Hb) as (c0 & rest & footer & Hc & Hf).
  rewrite (boot_exact page Hc Hf) in Hb. injection Hb as <-. cbn.
  split; [|repeat split].
  apply Forall_forall. intros ic Hin. apply in_map_iff in Hin.
  destruct Hin as (jc & <- & _). split; reflexivity.
Qed.

Lemma reflect_in_range default a :
  (0 <= Js.trunc a <= 2147483647)%Z ->
  Js.reflect_unsigned_long default a = Js.of_nat (Z.to_nat (Js.trunc a)).
Proof.
  intros H. unfold Js.reflect_unsigned_long, Js.of_nat.
  rewrite Z.mod_small by (change (2 ^ 32)%Z with 4294967296%Z; lia).
  rewrite Z2Nat.id by lia.
  destruct (Z.leb_spec (Js.trunc a) 2147483647); [reflexivity | lia].
Qed.

(** X1.  On a fresh page with at least one container and a footer to watch
    ([closest('footer')] of the first container, or else the element with id
    [social-links-3d]), [initSocialIcons] makes one icon per container, in
    order: icon [k] carries index [k], the container's link and model path and
    a 2D canvas appended to container [k]; it is not loaded, not rotated and
    not being dragged.  The canvas is given [80 * min(devicePixelRatio, 2)]
    as width and as height and keeps what an [unsigned long] attribute keeps
    of it: the integer part, when that lies in 0..2147483647, and the canvas
    is then square.  The observer watches the footer, and nothing else has
    started: no renderer, no load request, no frame callback, nothing drawn
    or opened. *)
Theorem X1_init_one_icon_per_container (page : Page) (c0 : ContainerEl)
    (rest : list ContainerEl) (footer : nat) :
  iconContainers page = c0 :: rest ->
  orElse (closest_footer c0) (social_links_3d page) = Some footer ->
  exists s0,
    boot page = Some s0 /\
    List.length (icons (closure s0)) = List.length (iconContainers page) /\
    (forall k c, nth_error (iconContainers page) k = Some c ->
       exists ic,
         nth_error (icons (closure s0)) k = Some ic /\
         index ic = k /\ link ic = dataset_link c /\ modelPath ic = dataset_model c /\
         canvas_width (canvas2d ic)
         = Js.reflect_unsigned_long 300 (80 * Js.Math_min (devicePixelRatio page) 2) /\
         canvas_height (canvas2d ic)
         = Js.reflect_unsigned_long 150 (80 * Js.Math_min (devicePixelRatio page) 2) /\
         ((0 <= Js.trunc (80 * Js.Math_min (devicePixelRatio page) 2) <= 2147483647)%Z ->
          canvas_width (canvas2d ic)
          = Js.of_nat (Z.to_nat (Js.trunc (80 * Js.Math_min (devicePixelRatio page) 2))) /\
          canvas_height (canvas2d ic) = canvas_width (canvas2d ic)) /\
         parentNode (canvas_id (canvas2d ic)) (dom (browser s0)) = Some (container ic) /\
         container ic = k /\
         unloaded ic /\ manualRotation ic = 0%float /\
         isDragging ic = false /\ hasDragged ic = false) /\
    observed (browser s0) = [footer] /\
    pixelRatio (closure s0) = Js.Math_min (devicePixelRatio page) 2 /\
    sharedRenderer (closure s0) = None /\ renderers (browser s0) = [] /\
    modelsRequested (closure s0) = false /\ loadRequests (browser s0) = [] /\
    isAnimating (closure s0) = false /\ rafPending (browser s0) = [] /\
    drawLog (browser s0) = [] /\ opened (browser s0) = [].
Proof.
  intros Hc Hf. eexists. split; [apply (boot_exact page Hc Hf)|]. cbn.
  split.
  { rewrite length_map, length_combine, length_seq. apply Nat.min_id. }
  split; [|repeat split].
  intros k c Hk.
  eexists. split.
  { apply (nth_error_combine_seq
             (fun j c => set_windowListeners (stdListeners j)
                           (newIcon (Js.Math_min (devicePixelRatio page) 2) c j))
             _ 0 _ Hk). }
  cbn [index link modelPath canvas2d canvas_width canvas_height canvas_id container
       newIcon set_windowListeners pivot modelLoaded manualRotation isDragging
       hasDragged unloaded].
  do 5 (split; [reflexivity|]).
  split.
  { intros Hr. change RENDER_SIZE with 80%float.
    rewrite !(reflect_in_range _ _ Hr). split; reflexivity. }
  split; [|repeat split].
  apply parentNode_diag. split; [lia|]. cbn [Nat.add].
  apply nth_error_Some. congruence.
Qed.

Lemma X1_init_one_icon_per_container_witness :
  (exists s0, boot samplePage = Some s0 /\
              map link (icons (closure s0)) = ["https://a.example"; "https://b.example"] /\
              map (fun ic => (canvas_width (canvas2d ic), canvas_height (canvas2d ic)))
                  (icons (closure s0)) = [(160, 160); (160, 160)]%float /\
              dom (browser s0) = [(0, 0); (1, 1)] /\
              observed (browser s0) = [100]) /\
  (exists s0, boot sampleFractionalPage = Some s0 /\
              map (fun ic => (canvas_width (canvas2d ic), canvas_height (canvas2d ic)))
                  (icons (closure s0)) = [(106, 106); (106, 106)]%float).
Proof.
  split.
  - destruct (@X1_init_one_icon_per_container samplePage _ _ 100 eq_refl eq_refl)
      as (s0 & E & _).
    exists s0. split; [exact E|].
    assert (E' : Some s0 = boot samplePage) by (symmetry; exact E).
    vm_compute in E'. injection E' as ->. repeat split.
  - destruct (@X1_init_one_icon_per_container sampleFractionalPage _ _ 100
                eq_refl eq_refl) as (s0 & E & _).
    exists s0. split; [exact E|].
    assert (E' : Some s0 = boot sampleFractionalPage) by (symmetry; exact E).
    vm_compute in E'. injection E' as ->. reflexivity.
Defined.

Lemma stash_matches pr cs : forall k,
  flat_map _windowListeners
    (map (fun jc => set_windowListeners (stdListeners (fst jc))
                      (newIcon pr (snd jc) (fst jc)))
         (combine (seq k (List.length cs)) cs))
  = flat_map stdListeners (seq k (List.length cs)).
Proof.
  induction cs as [|c cs IH]; intros k; simpl; [reflexivity|]. now rewrite IH.
Qed.

Lemma boot_listeners page s0 : boot page = Some s0 -> wired s0.
Proof.
  intros Hb.
  assert (H : exists c0 rest footer,
             iconContainers page = c0 :: rest /\
             orElse (closest_footer c0) (social_links_3d page) = Some footer).
  { unfold boot, initSocialIcons in Hb.
    destruct (iconContainers page) as [|c0 rest]; [discriminate|].
    destruct (orElse _ _) as [f|] eqn:E; [|discriminate]. eauto. }
  destruct H as (c0 & rest & footer & Hc & Hf).
  rewrite (boot_exact page Hc Hf) in Hb. injection Hb as <-. unfold wired. cbn.
  now rewrite length_map, length_combine, length_seq, Nat.min_id.
Qed.

(** X2.  Initialisation registers, for every icon and in icon order, exactly
    four listeners on the window ([mousemove], [mouseup], [touchmove],
    [touchend]) and three on the icon's container ([mousedown], [touchstart],
    [click]); each icon's [_windowListeners] stash lists exactly its four
    window listeners, so the stashes together are the window's listener
    list. *)
Theorem X2_init_registers_listeners (page : Page) (s0 : State) :
  boot page = Some s0 ->
  let n := List.length (icons (closure s0)) in
  windowListeners (browser s0) = flat_map stdListeners (seq 0 n) /\
  containerListeners (browser s0) = flat_map containerEvents (seq 0 n) /\
  List.length (windowListeners (browser s0)) = 4 * n /\
  List.length (containerListeners (browser s0)) = 3 * n /\
  (forall k ic, nth_error (icons (closure s0)) k = Some ic ->
                _windowListeners ic = stdListeners k) /\
  flat_map _windowListeners (icons (closure s0)) = windowListeners (browser s0).
Proof.
  intros Hb. cbv zeta.
  assert (H : exists c0 rest footer,
             iconContainers page = c0 :: rest /\
             orElse (closest_footer c0) (social_links_3d page) = Some footer).
  { unfold boot, initSocialIcons in Hb.
    destruct (iconContainers page) as [|c0 rest]; [discriminate|].
    destruct (orElse _ _) as [f|] eqn:E; [|discriminate]. eauto. }
  destruct H as (c0 & rest & footer & Hc & Hf).
  rewrite (boot_exact page Hc Hf) in Hb. injection Hb as <-. cbn.
  assert (Hn : List.length
                 (map (fun jc => set_windowListeners (stdListeners (fst jc))
                                   (newIcon (Js.Math_min (devicePixelRatio page) 2)
                                            (snd jc) (fst jc)))
                      (combine (seq 0 (List.length (iconContainers page)))
                               (iconContainers page)))
               = List.length (iconContainers page)).
  { rewrite length_map, length_combine, length_seq. apply Nat.min_id. }
  rewrite Hn.
  assert (L4 : forall m k, List.length (flat_map stdListeners (seq k m)) = 4 * m).
  { induction m as [|m IH]; intros k; simpl; [reflexivity|]. rewrite IH. lia. }
  assert (L3 : forall m k, List.length (flat_map containerEvents (seq k m)) = 3 * m).
  { induction m as [|m IH]; intros k; simpl; [reflexivity|]. rewrite IH. lia. }
  repeat split; auto.
  - intros k ic Hk.
    destruct (nth_error (iconContainers page) k) as [c|] eqn:Ek.
    + rewrite (nth_error_combine_seq
                 (fun j c => set_windowListeners (stdListeners j)
                               (newIcon (Js.Math_min (devicePixelRatio page) 2) c j))
                 _ 0 _ Ek) in Hk.
      injection Hk as <-. reflexivity.
    + apply nth_error_None in Ek.
      assert (Hlt : k < List.length (iconContainers page)).
      { rewrite <- Hn. apply nth_error_Some. congruence. }
      lia.
  - apply stash_matches.
Qed.

Lemma X2_init_registers_listeners_witness :
  windowListeners (browser (sampleAfter []))
  = stdListeners 0 ++ stdListeners 1 /\
  List.length (containerListeners (browser (sampleAfter []))) = 6.
Proof.
  assert (B : boot samplePage = Some (sampleAfter [])) by (vm_compute; reflexivity).
  destruct (@X2_init_registers_listeners samplePage _ B) as (W & _ & _ & C & _).
  split; [exact W | exact C].
Defined.

(** ** A scheme for invariants of the running module *)

Lemma animate_after_frame now s :
  isAnimating (closure s) = true ->
  Forall loaded_has_pivot (icons (closure s)) ->
  exists ics',
    Forall2 (frame_rel (now * 0.001)) (icons (closure s)) ics' /\
    animate now s = Some (after_frame s ics').
Proof. exact (animate_running now s). Qed.

Lemma stopAnimating_steps s :
  stopAnimating s
  = match animFrameId (closure s) with
    | Some id =>
        on_closure (with_animFrameId None)
          (on_browser (cancelAnimationFrame id)
             (on_closure (with_isAnimating false) s))
    | None => on_closure (with_isAnimating false) s
    end.
Proof. unfold stopAnimating. cbn. now destruct (animFrameId (closure s)). Qed.

Section StepScheme.

Variable page : Page.
Variable Q : State -> Prop.

Hypothesis Q_icon : forall s i f, drag_handler f -> Q s -> Q (on_icon i f s).
Hypothesis Q_open : forall s url target,
  Q s -> Q (on_browser (fun b => with_opened (opened b ++ [(url, target)]) b) s).
Hypothesis Q_animating : forall s v, Q s -> Q (on_closure (with_isAnimating v) s).
Hypothesis Q_frameId : forall s v, Q s -> Q (on_closure (with_animFrameId v) s).
Hypothesis Q_cancel : forall s id, Q s -> Q (on_browser (cancelAnimationFrame id) s).
Hypothesis Q_load : forall s, Q s -> Q (loadModels s).
Hypothesis Q_frame : forall s t ics',
  Q s -> Forall2 (frame_rel t) (icons (closure s)) ics' -> Q (after_frame s ics').
Hypothesis Q_loaded : forall s i g,
  In i (inflight (browser s)) -> Q s ->
  Q (on_icon i (onModelLoaded g)
       (on_browser (fun b => with_loads (loadRequests b)
                               (remove Nat.eq_dec i (inflight b)) b) s)).
Hypothesis Q_failed : forall s i,
  Q s ->
  Q (on_browser (fun b => with_loads (loadRequests b)
                            (remove Nat.eq_dec i (inflight b)) b) s).
Hypothesis Q_dispose : forall s, Q s -> Q (dispose s).

Lemma scheme_stop s : Q s -> Q (stopAnimating s).
Proof.
  intros H. rewrite stopAnimating_steps.
  destruct (animFrameId (closure s)); auto.
Qed.

Lemma scheme_start now s s' :
  Inv page s -> Q s -> startAnimating now s = Some s' -> Q s'.
Proof.
  intros HI H. unfold startAnimating.
  destruct (isAnimating (closure s)) eqn:Ha; [now intros [= <-]|].
  set (s1 := on_closure (with_isAnimating true) s).
  assert (Hi : icons (closure (loadModels s1)) = icons (closure s)).
  { rewrite loadModels_spec. now destruct (modelsRequested (closure s1)). }
  assert (Hr : isAnimating (closure (loadModels s1)) = true).
  { rewrite loadModels_spec. now destruct (modelsRequested (closure s1)). }
  destruct (animate_after_frame now (loadModels s1) Hr) as (ics' & F & E).
  { rewrite Hi. apply icon_ok_loaded, HI. }
  rewrite E. intros [= <-]. eapply Q_frame; [|exact F].
  apply Q_load. apply Q_animating. exact H.
Qed.

Lemma scheme_intersection now entries : forall s s',
  Inv page s -> observed (browser s) <> [] -> Q s ->
  onIntersection now entries s = Some s' -> Q s'.
Proof.
  induction entries as [|[|] rest IH]; intros s s' HI Ho H; simpl.
  - now intros [= <-].
  - destruct (startAnimating_Inv now HI Ho) as (s1 & E & I1 & _ & O1 & _).
    rewrite E. intros E'. apply (IH s1 s'); auto; [congruence|].
    exact (@scheme_start now s s1 HI H E).
  - intros E'. apply (IH (stopAnimating s) s'); auto.
    + now apply stopAnimating_Inv.
    + now rewrite stopAnimating_observed.
    + now apply scheme_stop.
Qed.

Lemma step_scheme s e s' : Inv page s -> Q s -> step s e = Some s' -> Q s'.
Proof.
  intros HI H.
  destruct e as [i type x|type x|entries now|id now|i g|i|]; simpl.
  - destruct (in_dec _ _ _); [|now intros [= <-]]. intros [= <-].
    unfold containerHandler, onClick.
    repeat match goal with |- context [string_dec ?a ?b] => destruct (string_dec a b) end;
      auto using dh_start.
    destruct (nth_error _ i) as [ic|]; auto.
    destruct (negb (hasDragged ic)); auto.
  - intros [= <-]. unfold dispatchWindow. apply fold_left_inv; auto.
    intros b eh Hb. destruct (string_dec (fst eh) type); auto.
    destruct (snd eh); simpl; auto using dh_move, dh_touch, dh_end.
  - destruct (observed (browser s)) eqn:Eo; [now intros [= <-]|].
    intros E'. apply (@scheme_intersection now entries s s'); auto.
    rewrite Eo. discriminate.
  - destruct (in_natb id (rafPending (browser s))); [|now intros [= <-]].
    destruct (isAnimating (closure s)) eqn:Ea.
    + destruct (animate_after_frame now (on_browser (cancelAnimationFrame id) s))
        as (ics' & F & E); [exact Ea | apply icon_ok_loaded, HI |].
      rewrite E. intros [= <-]. eapply Q_frame; [|exact F]. auto.
    + rewrite animate_idle by exact Ea. intros [= <-]. auto.
  - destruct (in_natb i (inflight (browser s))) eqn:Ei; [|now intros [= <-]].
    intros [= <-]. apply Q_loaded; auto.
    unfold in_natb in Ei. now destruct (in_dec _ _ _).
  - intros [= <-]. auto.
  - intros [= <-]. auto.
Qed.

Lemma run_scheme es : forall s s',
  Inv page s -> Q s -> run s es = Some s' -> Q s'.
Proof.
  induction es as [|e es IH]; intros s s' HI H; simpl.
  - now intros [= <-].
  - destruct (step_Inv e HI) as (s1 & E & I1 & _). rewrite E.
    intros E'. apply (IH s1 s'); auto. exact (@step_scheme s e s1 HI H E).
Qed.

Lemma reachable_scheme s :
  (forall s0, boot page = Some s0 -> Q s0) -> reachable page s -> Q s.
Proof.
  intros H0 (s0 & es & Hb & Hr).
  eapply run_scheme; [apply (boot_Inv _ Hb) | apply H0, Hb | exact Hr].
Qed.

End StepScheme.

(** ** What is set up stays until [dispose()] *)

Lemma boot_unique page s0 s0' : boot page = Some s0 -> boot page = Some s0' -> s0' = s0.
Proof. congruence. Qed.

Lemma setup_or_gone page s0 s :
  boot page = Some s0 -> reachable page s ->
  page_setup (browser s) = page_setup (browser s0) \/ observed (browser s) = [].
Proof.
  intros Hb.
  apply (@reachable_scheme page
           (fun s => page_setup (browser s) = page_setup (browser s0) \/
                     observed (browser s) = [])).
  - intros s1 i f _ H. exact H.
  - intros s1 url target H. exact H.
  - intros s1 v H. exact H.
  - intros s1 v H. exact H.
  - intros s1 id H. exact H.
  - intros s1 H. rewrite loadModels_spec.
    destruct (modelsRequested (closure s1)); exact H.
  - intros s1 t ics' H _. unfold after_frame, getSharedRenderer, requestAnimationFrame.
    cbn. destruct (sharedRenderer (closure s1)); exact H.
  - intros s1 i g _ H. exact H.
  - intros s1 i H. exact H.
  - intros s1 _. right. apply dispose_spec.
  - intros s1 Hb1. left. now rewrite (@boot_unique page s0 s1 Hb Hb1).
Qed.

(** X3.  Until [dispose()] is called, nothing that initialisation put on the
    page changes, whatever events arrive: every canvas is still the child of
    its container, the window and container listeners are exactly the ones
    registered, the observer still watches the footer, no [dispose()] call
    has been made on any resource, and each icon's container, canvas, context,
    lights, camera, link, model path, index and listener stash are as
    created. *)
Theorem X3_setup_stays_until_dispose (page : Page) (s0 s : State) :
  boot page = Some s0 ->
  live page s ->
  dom (browser s) = dom (browser s0) /\
  windowListeners (browser s) = windowListeners (browser s0) /\
  containerListeners (browser s) = containerListeners (browser s0) /\
  observed (browser s) = observed (browser s0) /\
  disposed (browser s) = [] /\
  map static (icons (closure s)) = map static (icons (closure s0)).
Proof.
  intros Hb [Hr Ho].
  destruct (setup_or_gone Hb Hr) as [H|H]; [|contradiction].
  unfold page_setup in H. injection H as H1 H2 H3 H4 H5.
  assert (D0 : disposed (browser s0) = []) by apply (boot_quiet _ Hb).
  repeat split; try congruence.
  destruct Hr as (s1 & es & Hb1 & Hrun).
  rewrite (@boot_unique page s0 s1 Hb Hb1) in Hrun.
  destruct (run_Inv es (boot_Inv _ Hb)) as (s' & E & _ & _ & _ & F).
  congruence.
Qed.

Lemma X3_setup_stays_until_dispose_witness :
  let s := sampleAfter sampleShown in
  windowListeners (browser s) = stdListeners 0 ++ stdListeners 1 /\
  dom (browser s) = [(0, 0); (1, 1)] /\
  disposed (browser s) = [].
Proof.
  intros s.
  assert (B : boot samplePage = Some (sampleAfter [])) by (vm_compute; reflexivity).
  assert (L : live samplePage s).
  { split; [subst s; sample_reachable | vm_compute; discriminate]. }
  destruct (@X3_setup_stays_until_dispose samplePage _ s B L) as (D & W & _ & _ & X & _).
  split; [rewrite W; vm_compute; reflexivity|].
  split; [rewrite D; vm_compute; reflexivity | exact X].
Defined.

(** ** Window events reach every icon *)

Lemma nth_error_update_at {A} (f : A -> A) i j (l : list A) :
  nth_error (update_at i f l) j
  = if Nat.eqb i j then option_map f (nth_error l j) else nth_error l j.
Proof.
  destruct (Nat.eqb_spec i j) as [->|Hne].
  - destruct (nth_error l j) as [a|] eqn:E.
    + now apply nth_error_update_at_same.
    + apply nth_error_None. rewrite update_at_length. now apply nth_error_None.
  - now apply nth_error_update_at_other.
Qed.

Lemma windowHandler_on_icon h x s :
  windowHandler h x s = on_icon (handler_icon h) (handler_fun h x) s.
Proof. now destruct h. Qed.

Lemma dispatch_browser type x L : forall s,
  browser (fold_left
             (fun s eh => if string_dec (fst eh) type
                          then windowHandler (snd eh) x s else s) L s)
  = browser s.
Proof.
  induction L as [|eh L IH]; intros s; simpl; [reflexivity|].
  rewrite IH. destruct (string_dec (fst eh) type); [|reflexivity].
  now destruct (snd eh).
Qed.

Lemma dispatch_closure type x L : forall s,
  let s' := fold_left
              (fun s eh => if string_dec (fst eh) type
                           then windowHandler (snd eh) x s else s) L s in
  closure s' = with_icons (icons (closure s')) (closure s).
Proof.
  induction L as [|eh L IH]; intros s; simpl.
  - now destruct s as [b []].
  - cbv zeta in IH. rewrite IH at 1.
    destruct (string_dec (fst eh) type); [|reflexivity].
    now destruct (snd eh).
Qed.

Lemma dispatch_nth type x j L : forall s,
  nth_error
    (icons (closure (fold_left
                       (fun s eh => if string_dec (fst eh) type
                                    then windowHandler (snd eh) x s else s) L s))) j
  = option_map (apply_listeners type x j L) (nth_error (icons (closure s)) j).
Proof.
  induction L as [|eh L IH]; intros s; simpl.
  - now destruct (nth_error _ j).
  - rewrite IH. unfold apply_listeners. simpl.
    destruct (string_dec (fst eh) type); [|reflexivity].
    rewrite windowHandler_on_icon. simpl. rewrite nth_error_update_at.
    destruct (Nat.eqb (handler_icon (snd eh)) j); [|reflexivity].
    now destruct (nth_error (icons (closure s)) j).
Qed.

Lemma apply_std type x j : forall m i ic,
  apply_listeners type x j (flat_map stdListeners (seq i m)) ic
  = if (Nat.leb i j && Nat.ltb j (i + m))%bool then window_effect type x ic else ic.
Proof.
  induction m as [|m IH]; intros i ic.
  - simpl. replace (Nat.ltb j (i + 0)) with (Nat.ltb j i) by (f_equal; lia).
    destruct (Nat.leb_spec i j), (Nat.ltb_spec j i); simpl; auto; lia.
  - cbn [seq flat_map]. unfold apply_listeners in *. rewrite fold_left_app, IH.
    unfold stdListeners, window_effect. cbn [fold_left fst snd handler_icon handler_fun].
    destruct (Nat.eqb_spec i j) as [->|Hne].
    + replace (Nat.leb (S j) j) with false by (symmetry; apply Nat.leb_gt; lia).
      replace (Nat.leb j j) with true by (symmetry; apply Nat.leb_refl).
      replace (Nat.ltb j (j + S m)) with true by (symmetry; apply Nat.ltb_lt; lia).
      cbn [andb].
      destruct (string_dec "mousemove" type) as [<-|]; [reflexivity|].
      destruct (string_dec "mouseup" type) as [<-|]; [reflexivity|].
      destruct (string_dec "touchmove" type) as [<-|]; [reflexivity|].
      destruct (string_dec "touchend" type) as [<-|]; reflexivity.
    + replace (Nat.leb (S i) j && Nat.ltb j (S i + m))%bool
        with (Nat.leb i j && Nat.ltb j (i + S m))%bool.
      * destruct (string_dec "mousemove" type), (string_dec "mouseup" type),
          (string_dec "touchmove" type), (string_dec "touchend" type); reflexivity.
      * destruct (Nat.leb_spec i j), (Nat.leb_spec (S i) j),
          (Nat.ltb_spec j (i + S m)), (Nat.ltb_spec j (S i + m)); simpl; auto; lia.
Qed.

Lemma live_wired page s : live page s -> wired s.
Proof.
  intros [Hr Ho]. pose proof Hr as (s0 & es & Hb & Hrun).
  destruct (setup_or_gone Hb Hr) as [H|H]; [|contradiction].
  unfold page_setup in H. injection H as _ Hc Hw _ _.
  destruct (run_Inv es (boot_Inv _ Hb)) as (s' & E & _ & _ & _ & F).
  assert (s' = s) by congruence. subst s'.
  destruct (boot_listeners _ Hb) as [W0 C0].
  unfold wired. now rewrite Hw, Hc, (length_static _ _ F).
Qed.

Lemma state_eta (s : State) b c : browser s = b -> closure s = c ->
  s = {| browser := b; closure := c |}.
Proof. destruct s. simpl. now intros -> ->. Qed.

Lemma dispatch_wired type x s :
  wired s ->
  dispatchWindow type x s
  = {| browser := browser s;
       closure := with_icons (map (window_effect type x) (icons (closure s)))
                             (closure s) |}.
Proof.
  intros [Hw _]. unfold dispatchWindow. apply state_eta.
  - apply dispatch_browser.
  - rewrite dispatch_closure. f_equal.
    apply nth_error_ext. intros j.
    rewrite dispatch_nth, Hw, nth_error_map.
    destruct (nth_error (icons (closure s)) j) as [ic|] eqn:E; [|reflexivity].
    simpl. rewrite apply_std. simpl.
    replace (Nat.ltb j (List.length (icons (closure s)))) with true; [reflexivity|].
    symmetry. apply Nat.ltb_lt. apply nth_error_Some. congruence.
Qed.

(** X4.  While the module is live (set up and not disposed), a window event
    reaches every icon through that icon's own listener: [mousemove] runs
    [onDragMove] on each icon, [touchmove] does so on the icons being
    dragged, [mouseup] and [touchend] clear [isDragging] on every icon, and an
    event of any other type changes nothing.  Nothing but the icons
    changes. *)
Theorem X4_window_event_reaches_every_icon (page : Page) (s : State)
    (type : string) (clientX : float) :
  live page s ->
  exists s',
    step s (WindowEvent type clientX) = Some s' /\
    browser s' = browser s /\
    closure s' = with_icons (map (window_effect type clientX) (icons (closure s)))
                            (closure s) /\
    (type = "mousemove" -> icons (closure s') = map (onDragMove clientX) (icons (closure s))) /\
    (type = "touchmove" -> icons (closure s') = map (touchMove clientX) (icons (closure s))) /\
    (type = "mouseup" \/ type = "touchend" ->
     icons (closure s') = map onDragEnd (icons (closure s)) /\
     Forall (fun ic => isDragging ic = false) (icons (closure s'))) /\
    (type <> "mousemove" -> type <> "touchmove" -> type <> "mouseup" ->
     type <> "touchend" -> s' = s).
Proof.
  intros L. exists (dispatchWindow type clientX s). split; [reflexivity|].
  rewrite (dispatch_wired type clientX (live_wired L)). cbn.
  split; [reflexivity|]. split; [reflexivity|].
  split; [intros ->; reflexivity|]. split; [intros ->; reflexivity|].
  split.
  - intros [-> | ->]; (split; [reflexivity|]);
      apply Forall_forall; intros ic Hin; apply in_map_iff in Hin;
      destruct Hin as (ic0 & <- & _); reflexivity.
  - intros N1 N2 N3 N4.
    assert (E : map (window_effect type clientX) (icons (closure s)) = icons (closure s)).
    { rewrite <- (map_id (icons (closure s))) at 2. apply map_ext. intros ic.
      unfold window_effect.
      destruct (string_dec "mousemove" type); [congruence|].
      destruct (string_dec "mouseup" type); [congruence|].
      destruct (string_dec "touchmove" type); [congruence|].
      destruct (string_dec "touchend" type); [congruence | reflexivity]. }
    rewrite E. now destruct s as [b []].
Qed.

Lemma X4_window_event_reaches_every_icon_witness :
  let s := sampleAfter (sampleShown ++ [ContainerEvent 0 "mousedown" 5]) in
  exists s', step s (WindowEvent "mouseup" 0) = Some s' /\
             map isDragging (icons (closure s)) = [true; false] /\
             map isDragging (icons (closure s')) = [false; false].
Proof.
  intros s.
  assert (L : live samplePage s).
  { split; [subst s; simpl app; sample_reachable | vm_compute; discriminate]. }
  destruct (@X4_window_event_reaches_every_icon samplePage s "mouseup" 0 L)
    as (s' & E & _ & _ & _ & _ & H & _).
  exists s'. split; [exact E|]. split; [vm_compute; reflexivity|].
  destruct (H (or_introl eq_refl)) as [-> _]. vm_compute. reflexivity.
Defined.

(** ** A whole mouse gesture *)

Lemma In_containerEvents k n type :
  k < n -> In type ["mousedown"; "touchstart"; "click"] ->
  In (k, type) (flat_map containerEvents (seq 0 n)).
Proof.
  intros Hk Ht. apply in_flat_map. exists k. split; [apply in_seq; lia|].
  unfold containerEvents. simpl in *. intuition (subst; auto).
Qed.

Lemma wired_on_icon i f s : wired s -> wired (on_icon i f s).
Proof. unfold wired. simpl. now rewrite update_at_length. Qed.

Lemma wired_dispatch type x s : wired s -> wired (dispatchWindow type x s).
Proof.
  intros H. rewrite (dispatch_wired type x H). unfold wired in *. simpl.
  now rewrite length_map.
Qed.

Lemma run_moves xs : forall s,
  wired s ->
  run s (map (WindowEvent "mousemove") xs)
  = Some {| browser := browser s;
            closure := with_icons
                         (map (fun ic => fold_left (fun ic x => onDragMove x ic) xs ic)
                              (icons (closure s)))
                         (closure s) |}.
Proof.
  induction xs as [|x xs IH]; intros s Hw; simpl.
  - rewrite map_id. now destruct s as [b []].
  - rewrite IH by now apply wired_dispatch.
    rewrite (dispatch_wired "mousemove" x Hw). simpl. now rewrite map_map.
Qed.

Lemma run_app es1 : forall es2 s s1,
  run s es1 = Some s1 -> run s (es1 ++ es2) = run s1 es2.
Proof.
  induction es1 as [|e es1 IH]; intros es2 s s1; simpl.
  - now intros [= ->].
  - destruct (step s e); [apply IH | discriminate].
Qed.



(** ** Each icon's model is installed once *)

Lemma drag_handler_view f ic : drag_handler f -> loaded_view (f ic) = loaded_view ic.
Proof.
  intros [x|x|x|]; unfold loaded_view; try reflexivity.
  - unfold onDragMove.
    destruct (negb (isDragging ic) || Js.is_null (pivot ic))%bool; [reflexivity|].
    destruct (2 <? abs (x - lastX ic))%float; reflexivity.
  - unfold touchMove, onDragMove. destruct (isDragging ic); [|reflexivity].
    destruct (negb true || Js.is_null (pivot ic))%bool; [reflexivity|].
    destruct (2 <? abs (x - lastX ic))%float; reflexivity.
Qed.

Lemma frame_rel_view t ic ic' : frame_rel t ic ic' -> loaded_view ic' = loaded_view ic.
Proof.
  unfold frame_rel, loaded_view. destruct (modelLoaded ic) eqn:E.
  - intros (p & Hp & ->). simpl. now rewrite Hp, E.
  - intros ->. now rewrite E.
Qed.

Lemma Forall2_frame_view t ics ics' :
  Forall2 (frame_rel t) ics ics' -> map loaded_view ics' = map loaded_view ics.
Proof. induction 1; simpl; auto. f_equal; eauto using frame_rel_view. Qed.

Lemma unloaded_view ic : unloaded ic <-> loaded_view ic = (true, false).
Proof.
  unfold unloaded, loaded_view. destruct (pivot ic), (modelLoaded ic); simpl;
    intuition (congruence || discriminate).
Qed.

Lemma agree_view ic :
  (modelLoaded ic = true <-> pivot ic <> None)
  <-> fst (loaded_view ic) = negb (snd (loaded_view ic)).
Proof.
  unfold loaded_view. destruct (pivot ic), (modelLoaded ic); simpl;
    intuition (congruence || discriminate).
Qed.

Lemma view_nth l l' i (ic : Icon) :
  map loaded_view l' = map loaded_view l -> nth_error l i = Some ic ->
  exists ic', nth_error l' i = Some ic' /\ loaded_view ic' = loaded_view ic.
Proof.
  intros H Hn.
  pose proof (f_equal (fun m => nth_error m i) H) as E. cbn beta in E.
  rewrite !nth_error_map, Hn in E.
  destruct (nth_error l' i) as [ic'|]; [|discriminate].
  exists ic'. split; [reflexivity|]. simpl in E. congruence.
Qed.

Lemma view_Forall (P : bool * bool -> Prop) l l' :
  map loaded_view l' = map loaded_view l ->
  Forall (fun ic => P (loaded_view ic)) l -> Forall (fun ic => P (loaded_view ic)) l'.
Proof.
  intros H Hl. apply Forall_map. rewrite H. now apply Forall_map.
Qed.

Lemma load_ok_same s s' :
  inflight (browser s') = inflight (browser s) ->
  modelsRequested (closure s') = modelsRequested (closure s) ->
  map loaded_view (icons (closure s')) = map loaded_view (icons (closure s)) ->
  load_ok s -> load_ok s'.
Proof.
  intros Hi Hm Hv (A & B & C & D). unfold load_ok. rewrite Hi, Hm.
  split; [exact A|]. split; [|split].
  - intros i Hin. destruct (B i Hin) as (ic & Hn & Hu).
    destruct (@view_nth _ _ _ _ Hv Hn) as (ic' & Hn' & E).
    exists ic'. split; [exact Hn'|]. apply unloaded_view. rewrite E.
    now apply unloaded_view.
  - eapply Forall_impl; [intros ic H; apply agree_view; exact H|].
    apply (@view_Forall (fun v => fst v = negb (snd v)) _ _ Hv).
    eapply Forall_impl; [intros ic H; apply agree_view; exact H | exact C].
  - intros Hf. destruct (D Hf) as [D1 D2]. split; [exact D1|].
    eapply Forall_impl; [intros ic H; apply unloaded_view; exact H|].
    apply (@view_Forall (fun v => v = (true, false)) _ _ Hv).
    eapply Forall_impl; [intros ic H; apply unloaded_view; exact H | exact D2].
Qed.

Lemma NoDup_remove_nat i l : NoDup l -> NoDup (remove Nat.eq_dec i l).
Proof.
  induction 1 as [|a l Ha Hl IH]; simpl; [constructor|].
  destruct (Nat.eq_dec i a); [exact IH|].
  constructor; [|exact IH]. intros Hin. apply in_remove in Hin. tauto.
Qed.

Lemma dispose_inflight s : inflight (browser (dispose s)) = inflight (browser s).
Proof.
  unfold dispose, on_browser, on_closure. cbn [browser closure].
  rewrite fold_disposeIcon, fold_removeIconListeners.
  destruct (stopAnimating_spec s) as (_ & _ & _ & D & _ & _ & G).
  rewrite D, G.
  destruct (sharedRenderer (closure s)), (animFrameId (closure s)); reflexivity.
Qed.

Lemma load_ok_on_icon s i f : drag_handler f -> load_ok s -> load_ok (on_icon i f s).
Proof.
  intros Hf. apply load_ok_same; try reflexivity.
  simpl. apply map_update_at. intros ic. now apply drag_handler_view.
Qed.

Lemma load_ok_loadModels s : load_ok s -> load_ok (loadModels s).
Proof.
  intros H. rewrite loadModels_spec.
  destruct (modelsRequested (closure s)) eqn:Em; [exact H|].
  destruct H as (A & B & C & D).
  destruct (D Em) as [D1 D2]. unfold load_ok. cbn. rewrite D1. cbn.
  split; [apply seq_NoDup|]. split; [|split; [exact C | discriminate]].
  intros i Hin. apply in_seq in Hin.
  destruct (nth_error (icons (closure s)) i) as [ic|] eqn:En.
  + exists ic. split; [reflexivity|].
    rewrite Forall_forall in D2. apply D2. eapply nth_error_In; eauto.
  + apply nth_error_None in En. lia.
Qed.

Lemma load_ok_after_frame s t ics' :
  load_ok s -> Forall2 (frame_rel t) (icons (closure s)) ics' ->
  load_ok (after_frame s ics').
Proof.
  intros H F. revert H. apply load_ok_same.
  + unfold after_frame, getSharedRenderer, requestAnimationFrame. cbn.
    now destruct (sharedRenderer (closure s)).
  + unfold after_frame, getSharedRenderer, requestAnimationFrame. cbn.
    now destruct (sharedRenderer (closure s)).
  + unfold after_frame. cbn. eapply Forall2_frame_view; eauto.
Qed.

Lemma load_ok_loaded s i g :
  In i (inflight (browser s)) -> load_ok s ->
  load_ok (on_icon i (onModelLoaded g)
             (on_browser (fun b => with_loads (loadRequests b)
                                     (remove Nat.eq_dec i (inflight b)) b) s)).
Proof.
  intros Hin (A & B & C & D). unfold load_ok. cbn.
  split; [now apply NoDup_remove_nat|]. split; [|split].
  + intros j Hj. apply in_remove in Hj. destruct Hj as [Hj Hne].
    destruct (B j Hj) as (ic & Hn & Hu). exists ic. split; [|exact Hu].
    rewrite nth_error_update_at_other; auto.
  + apply Forall_update_at; [|exact C].
    intros ic _. split; [discriminate | reflexivity].
  + intros Hf. destruct (D Hf) as [D1 _]. rewrite D1 in Hin. destruct Hin.
Qed.

Lemma load_ok_failed s i :
  load_ok s ->
  load_ok (on_browser (fun b => with_loads (loadRequests b)
                                  (remove Nat.eq_dec i (inflight b)) b) s).
Proof.
  intros (A & B & C & D). unfold load_ok. cbn.
  split; [now apply NoDup_remove_nat|]. split; [|split; [exact C|]].
  + intros j Hj. apply in_remove in Hj. destruct Hj as [Hj _]. auto.
  + intros Hf. destruct (D Hf) as [D1 D2]. rewrite D1. auto.
Qed.

Lemma load_ok_dispose s : load_ok s -> load_ok (dispose s).
Proof.
  apply load_ok_same.
  + apply dispose_inflight.
  + apply dispose_spec.
  + now destruct (dispose_spec s) as ((_ & _ & _ & -> & _) & _).
Qed.

Lemma boot_load_ok page s0 : boot page = Some s0 -> load_ok s0.
Proof.
  intros Hb.
  destruct (boot_quiet _ Hb) as (Hu & _ & _ & H2 & _ & _ & H1 & _).
  unfold load_ok. rewrite H1.
  split; [constructor|]. split; [intros i []|]. split; [|auto].
  eapply Forall_impl; [|exact Hu]. intros ic [Hp Hm]. rewrite Hp, Hm.
  split; [discriminate | congruence].
Qed.

Lemma reachable_load_ok page s : reachable page s -> load_ok s.
Proof.
  apply (@reachable_scheme page load_ok).
  - intros s1 i f Hf. now apply load_ok_on_icon.
  - intros s1 url target. now apply load_ok_same.
  - intros s1 v. now apply load_ok_same.
  - intros s1 v. now apply load_ok_same.
  - intros s1 id. now apply load_ok_same.
  - apply load_ok_loadModels.
  - intros s1 t ics' H F. now apply load_ok_after_frame with t.
  - intros s1 i g Hin. now apply load_ok_loaded.
  - intros s1 i. apply load_ok_failed.
  - apply load_ok_dispose.
  - apply boot_load_ok.
Qed.

(** X6.  In the running module an icon is marked [modelLoaded] exactly when
    it has its pivot; the load requests in flight are for distinct icons that
    have no model yet, and before the models are requested every icon is
    unloaded.  So the load callback installs a model into an unloaded icon
    only: it marks that icon loaded, gives it its pivot, leaves every other
    icon alone, and no callback is left that could install a second model
    into a loaded icon. *)
Theorem X6_model_installed_once (page : Page) (s : State) :
  reachable page s ->
  Forall (fun ic => modelLoaded ic = true <-> pivot ic <> None) (icons (closure s)) /\
  NoDup (inflight (browser s)) /\
  (forall i, In i (inflight (browser s)) ->
     exists ic, nth_error (icons (closure s)) i = Some ic /\
                pivot ic = None /\ modelLoaded ic = false) /\
  (modelsRequested (closure s) = false -> Forall unloaded (icons (closure s))) /\
  (forall i ic g, nth_error (icons (closure s)) i = Some ic ->
     modelLoaded ic = true -> step s (ModelLoaded i g) = Some s) /\
  (forall i g, In i (inflight (browser s)) ->
     exists s' ic',
       step s (ModelLoaded i g) = Some s' /\
       nth_error (icons (closure s')) i = Some ic' /\
       modelLoaded ic' = true /\ pivot ic' <> None /\
       ~ In i (inflight (browser s')) /\
       forall j, j <> i ->
         nth_error (icons (closure s')) j = nth_error (icons (closure s)) j).
Proof.
  intros Hr. destruct (reachable_load_ok Hr) as (A & B & C & D).
  split; [exact C|]. split; [exact A|]. split; [exact B|].
  split; [intros Hf; apply (D Hf)|]. split.
  - intros i ic g Hn Hm. simpl.
    destruct (in_natb i (inflight (browser s))) eqn:Ei; [|reflexivity].
    unfold in_natb in Ei. destruct (in_dec _ _ _) as [Hin|]; [|discriminate].
    destruct (B i Hin) as (ic0 & Hn0 & _ & Hm0). congruence.
  - intros i g Hin. destruct (B i Hin) as (ic & Hn & _).
    simpl. unfold in_natb. destruct (in_dec _ _ _) as [_|N]; [|contradiction].
    eexists. exists (onModelLoaded g ic). split; [reflexivity|]. cbn.
    split; [now apply nth_error_update_at_same|].
    split; [reflexivity|]. split; [discriminate|].
    split; [apply remove_In|].
    intros j Hj. apply nth_error_update_at_other. congruence.
Qed.

Lemma X6_model_installed_once_witness :
  let s := sampleAfter sampleShown in
  inflight (browser s) = [1] /\
  step s (ModelLoaded 0 sampleGltf) = Some s.
Proof.
  intros s.
  assert (R : reachable samplePage s) by (subst s; sample_reachable).
  destruct (nth_error (icons (closure s)) 0) as [ic|] eqn:Ek;
    [|vm_compute in Ek; discriminate].
  destruct (@X6_model_installed_once samplePage s R) as (_ & _ & _ & _ & H & _).
  split; [vm_compute; reflexivity|].
  apply (H 0 ic sampleGltf Ek).
  vm_compute in Ek. injection Ek as <-. reflexivity.
Defined.

(** ** Nothing happens before the footer shows *)

Lemma drag_handler_unloaded f ic : drag_handler f -> unloaded ic -> unloaded (f ic).
Proof.
  intros Hf Hu. apply unloaded_view. rewrite (drag_handler_view ic Hf).
  now apply unloaded_view.
Qed.

Lemma dormant_on_icon i f s : drag_handler f -> dormant s -> dormant (on_icon i f s).
Proof.
  intros Hf (A & B & C & D & E & F & G & H & I & J).
  repeat (split; [assumption|]). simpl.
  apply Forall_update_at; auto using drag_handler_unloaded.
Qed.

Lemma dormant_stop s : dormant s -> stopAnimating s = on_closure (with_isAnimating false) s.
Proof.
  intros (_ & B & _). rewrite stopAnimating_steps. now rewrite B.
Qed.

Lemma step_dormant s e :
  dormant s -> shows e = false -> exists s', step s e = Some s' /\ dormant s'.
Proof.
  intros Hd Hs. destruct e as [i type x|type x|entries now|id now|i g|i|]; simpl.
  - destruct (in_dec _ _ _); [|exists s; auto].
    eexists; split; [reflexivity|]. unfold containerHandler, onClick.
    repeat match goal with |- context [string_dec ?a ?b] => destruct (string_dec a b) end;
      auto using dormant_on_icon, dh_start.
    destruct (nth_error _ i) as [ic|]; auto. destruct (negb (hasDragged ic)); auto.
  - eexists; split; [reflexivity|]. unfold dispatchWindow.
    apply (fold_left_inv dormant); auto.
    intros b eh Hb. destruct (string_dec (fst eh) type); auto.
    destruct (snd eh); simpl; auto using dormant_on_icon, dh_move, dh_touch, dh_end.
  - destruct (observed (browser s)); [exists s; auto|].
    revert s Hd. simpl in Hs.
    induction entries as [|[|] rest IH]; intros s Hd; simpl in *; try discriminate.
    + exists s. auto.
    + apply (IH Hs). rewrite (dormant_stop Hd).
      destruct Hd as (A & B & C & D & E & F & G & H & I & J).
      repeat (split; [assumption || reflexivity|]). exact J.
  - destruct Hd as (A & B & C & D & E & F & G & H & I & J).
    rewrite I. simpl. exists s. split; [reflexivity|].
    repeat (split; [assumption|]). exact J.
  - destruct Hd as (A & B & C & D & E & F & G & H & I & J).
    rewrite F. simpl. exists s. split; [reflexivity|].
    repeat (split; [assumption|]). exact J.
  - eexists; split; [reflexivity|].
    destruct Hd as (A & B & C & D & E & F & G & H & I & J).
    unfold dormant. cbn. rewrite F. simpl.
    repeat (split; [assumption || reflexivity|]). exact J.
  - exists (dispose s). split; [reflexivity|].
    destruct Hd as (A & B & C & D & E & F & G & H & I & J).
    destruct (dispose_spec s)
      as ((A1 & A2 & A3 & A4 & A5 & A6) & (B1 & B2 & B3 & B4 & B5 & B6) & R & _).
    unfold dormant.
    rewrite A1, A2, A3, A4, A5, B3, B4, B5, R, B, I, dispose_inflight.
    repeat (split; [assumption || reflexivity|]). exact J.
Qed.

(** X7.  Until the footer first intersects the viewport the module stays
    idle, whatever else happens to it (pointer events, stray callbacks, even
    [dispose()]): no model is requested, no renderer is constructed, no frame
    callback is scheduled, nothing is drawn, and every icon stays unloaded. *)
Theorem X7_idle_until_footer_shows (page : Page) (s0 : State) (es : list Event) :
  boot page = Some s0 ->
  forallb (fun e => negb (shows e)) es = true ->
  exists s,
    run s0 es = Some s /\
    modelsRequested (closure s) = false /\ loadRequests (browser s) = [] /\
    sharedRenderer (closure s) = None /\ renderers (browser s) = [] /\
    isAnimating (closure s) = false /\ rafPending (browser s) = [] /\
    drawLog (browser s) = [] /\
    Forall unloaded (icons (closure s)).
Proof.
  intros Hb Hq.
  assert (Hd : dormant s0).
  { destruct (boot_quiet _ Hb) as (U & A & B & C & D & E & F & G & H & I & _).
    repeat (split; [assumption|]). exact U. }
  clear Hb. revert s0 Hd.
  induction es as [|e es IH]; intros s0 Hd; simpl in *.
  - exists s0. split; [reflexivity|].
    destruct Hd as (A & B & C & D & E & F & G & H & I & J). repeat split; assumption.
  - apply andb_true_iff in Hq. destruct Hq as [He Hq]. apply negb_true_iff in He.
    destruct (@step_dormant s0 e Hd He) as (s1 & E & Hd1). rewrite E. auto.
Qed.

Lemma X7_idle_until_footer_shows_witness :
  exists s,
    run (sampleAfter [])
        [ ContainerEvent 0 "mousedown" 3; WindowEvent "mousemove" 30;
          Intersection [false] 1000; AnimationFrame 0 1500;
          ModelLoaded 0 sampleGltf; WindowEvent "mouseup" 30;
          ContainerEvent 0 "click" 30 ] = Some s /\
    loadRequests (browser s) = [] /\ renderers (browser s) = [] /\
    drawLog (browser s) = [].
Proof.
  assert (B : boot samplePage = Some (sampleAfter [])) by (vm_compute; reflexivity).
  destruct (@X7_idle_until_footer_shows samplePage _
              [ ContainerEvent 0 "mousedown" 3; WindowEvent "mousemove" 30;
                Intersection [false] 1000; AnimationFrame 0 1500;
                ModelLoaded 0 sampleGltf; WindowEvent "mouseup" 30;
                ContainerEvent 0 "click" 30 ] B eq_refl)
    as (s & E & _ & L & _ & R & _ & _ & D & _).
  exists s. auto.
Defined.

(** ** No handler throws *)

(** X8.  No event handler of the running module throws: from any state the
    module can reach, any further sequence of events runs to the end.  In
    particular a frame never reads [rotation] on a [null] pivot, because
    every icon marked [modelLoaded] has its pivot. *)
Theorem X8_no_handler_throws (page : Page) (s : State) (es : list Event) :
  reachable page s ->
  Forall loaded_has_pivot (icons (closure s)) /\
  exists s', run s es = Some s' /\ reachable page s'.
Proof.
  intros Hr. pose proof (reachable_Inv Hr) as HI.
  split; [apply icon_ok_loaded, HI|].
  destruct (run_Inv es HI) as (s' & E & _). exists s'. split; [exact E|].
  destruct Hr as (s0 & es0 & Hb & Hrun). exists s0, (es0 ++ es).
  split; [exact Hb|]. now rewrite (@run_app _ _ _ _ Hrun).
Qed.

Lemma X8_no_handler_throws_witness :
  exists s', run (sampleAfter sampleShown)
                 [ AnimationFrame 1 2500; Dispose; AnimationFrame 2 3000;
                   ModelLoaded 1 sampleGltf; Intersection [true] 3500 ] = Some s'.
Proof.
  assert (R : reachable samplePage (sampleAfter sampleShown)) by sample_reachable.
  destruct (@X8_no_handler_throws samplePage _
              [ AnimationFrame 1 2500; Dispose; AnimationFrame 2 3000;
                ModelLoaded 1 sampleGltf; Intersection [true] 3500 ] R)
    as (_ & s' & E & _).
  exists s'. exact E.
Defined.

(** ** The loop keeps itself going *)

(** X9.  While the loop runs exactly one frame callback is pending, the one
    [animFrameId] names.  When it comes due, the frame re-arms the loop
    before anything else: afterwards the loop still runs, exactly one
    callback is pending again, the shared renderer exists, and every other
    frame id the browser might offer is ignored. *)
Theorem X9_frame_rearms_the_loop (page : Page) (s : State) (now : float) :
  reachable page s ->
  isAnimating (closure s) = true ->
  exists id,
    animFrameId (closure s) = Some id /\ rafPending (browser s) = [id] /\
    (forall id', id' <> id -> step s (AnimationFrame id' now) = Some s) /\
    exists s' next,
      step s (AnimationFrame id now) = Some s' /\
      isAnimating (closure s') = true /\
      animFrameId (closure s') = Some next /\ rafPending (browser s') = [next] /\
      next = rafNext (browser s) /\ rafNext (browser s') = S next /\
      sharedRenderer (closure s') = Some (renderer0 page) /\
      Forall2 (frame_rel (now * 0.001)) (icons (closure s)) (icons (closure s')).
Proof.
  intros Hr Ha. pose proof (reachable_Inv Hr) as HI.
  pose proof (inv_raf HI) as R. unfold raf_ok in R. rewrite Ha in R.
  destruct R as (id & Hf & Hp). exists id. split; [exact Hf|]. split; [exact Hp|].
  split.
  { intros id' Hne. simpl. rewrite Hp. unfold in_natb.
    destruct (in_dec Nat.eq_dec id' [id]) as [[->|[]]|]; [congruence | reflexivity]. }
  simpl. rewrite Hp. unfold in_natb.
  destruct (in_dec Nat.eq_dec id [id]) as [_|N]; [|elim N; now left].
  set (s1 := on_browser (cancelAnimationFrame id) s).
  destruct (animate_after_frame now s1) as (ics' & F & E);
    [exact Ha | apply icon_ok_loaded, HI |].
  rewrite E. eexists. exists (rafNext (browser s)). split; [reflexivity|].
  destruct (inv_renderer HI) as (N1 & N2 & N3).
  subst s1. unfold after_frame, getSharedRenderer, requestAnimationFrame. cbn.
  destruct (sharedRenderer (closure s)) as [r|] eqn:Er; cbn;
    rewrite Hp; simpl; (destruct (Nat.eq_dec id id) as [_|N]; [|congruence]).
  - destruct N3 as [-> _]. repeat split; auto.
  - destruct N3 as [N3|[N3 _]].
    + rewrite N3, N1. repeat split; auto.
    + rewrite (N2 N3) in Ha. discriminate.
Qed.

Lemma X9_frame_rearms_the_loop_witness :
  let s := sampleAfter sampleShown in
  rafPending (browser s) = [1] /\
  exists s', step s (AnimationFrame 1 2500) = Some s' /\
             rafPending (browser s') = [2].
Proof.
  intros s.
  assert (R : reachable samplePage s) by (subst s; sample_reachable).
  destruct (@X9_frame_rearms_the_loop samplePage s 2500 R eq_refl)
    as (id & Hf & Hp & _ & s' & next & E & _ & _ & P & Hn & _).
  assert (Hid : id = 1).
  { assert (E1 : Some id = animFrameId (closure s)) by (symmetry; exact Hf).
    vm_compute in E1. now injection E1. }
  subst id. split; [exact Hp|]. exists s'. split; [exact E|].
  rewrite P, Hn. vm_compute. reflexivity.
Defined.

(** ** After [dispose()] *)

Lemma fold_filter_id ics : forall d,
  (forall e ic, In e d -> In ic ics -> fst e <> canvas_id (canvas2d ic)) ->
  fold_left (fun d ic => filter (not_canvas_of ic) d) ics d = d.
Proof.
  induction ics as [|ic rest IH]; intros d H; simpl; [reflexivity|].
  rewrite filter_keeps_all.
  - apply IH. intros e ic' He Hic. apply (H e ic'); auto. now right.
  - intros e He. unfold not_canvas_of.
    destruct (Nat.eqb_spec (fst e) (canvas_id (canvas2d ic))) as [E|]; [|reflexivity].
    elim (H e ic He); auto. now left.
Qed.

Lemma remove_all_nil L : remove_all L [] = [].
Proof. unfold remove_all. induction L; simpl; auto. Qed.

Lemma closure_ext (c c' : Closure) :
  pixelRatio c' = pixelRatio c -> sharedRenderer c' = sharedRenderer c ->
  icons c' = icons c -> modelsRequested c' = modelsRequested c ->
  animFrameId c' = animFrameId c -> isAnimating c' = isAnimating c -> c' = c.
Proof. destruct c, c'. simpl. intros; subst; reflexivity. Qed.

Lemma icon_resources_no_renderer ic n : ~ In (RendererRes n) (icon_resources ic).
Proof.
  unfold icon_resources. intros H. apply in_flat_map in H.
  destruct H as (p & _ & H). unfold disposeObject in H.
  apply in_app_or in H. destruct H as [H|H].
  - destruct (geometry p); simpl in H; [destruct H as [H|[]]; discriminate|contradiction].
  - destruct (material p) as [|m|ms]; simpl in H.
    + contradiction.
    + destruct H as [H|[]]; discriminate.
    + apply in_map_iff in H. destruct H as (m & H & _). discriminate.
Qed.

(** X10.  Calling [dispose()] a second time is harmless.  It repeats the
    [dispose()] calls on the geometries and materials of the icons' scenes
    and does nothing else: the closure and the page are as the first call
    left them, and the shared renderer is not disposed again. *)
Theorem X10_dispose_twice (page : Page) (s : State) :
  reachable page s ->
  let s1 := dispose s in
  let s2 := dispose s1 in
  closure s2 = closure s1 /\
  disposed (browser s2)
  = disposed (browser s1) ++ flat_map icon_resources (icons (closure s)) /\
  dom (browser s2) = dom (browser s1) /\
  windowListeners (browser s2) = [] /\
  containerListeners (browser s2) = containerListeners (browser s1) /\
  observed (browser s2) = [] /\ rafPending (browser s2) = [] /\
  renderers (browser s2) = renderers (browser s1) /\
  loadRequests (browser s2) = loadRequests (browser s1) /\
  inflight (browser s2) = inflight (browser s1) /\
  drawLog (browser s2) = drawLog (browser s1) /\
  opened (browser s2) = opened (browser s1) /\
  forall n, ~ In (RendererRes n) (flat_map icon_resources (icons (closure s))).
Proof.
  intros Hr. cbv zeta. pose proof (reachable_Inv Hr) as HI.
  destruct (dispose_spec s)
    as ((A1 & A2 & A3 & A4 & A5 & A6) & (B1 & B2 & B3 & B4 & B5 & B6) & R & W & D & X).
  destruct (dispose_spec (dispose s))
    as ((A1' & A2' & A3' & A4' & A5' & A6') & (B1' & B2' & B3' & B4' & B5' & B6')
        & R' & W' & D' & X').
  assert (P1 : rafPending (browser (dispose s)) = []).
  { pose proof (inv_raf (dispose_Inv HI)) as Rf. unfold raf_ok in Rf.
    rewrite A1 in Rf. tauto. }
  assert (W1 : windowListeners (browser (dispose s)) = []).
  { rewrite W. apply remove_all_incl. apply (inv_listeners HI). }
  split.
  { apply closure_ext; congruence. }
  split.
  { rewrite X', A3, A4, app_nil_r. reflexivity. }
  split.
  { rewrite D', A4. apply fold_filter_id. intros e ic He Hic. rewrite D in He.
    apply In_fold_filter in He. destruct He as [_ He]. auto. }
  split; [rewrite W', W1; apply remove_all_nil|].
  split; [exact B2'|]. split; [exact B1'|].
  split; [rewrite R', A2; exact P1|].
  split; [exact B3'|]. split; [exact B4'|].
  split; [apply dispose_inflight|]. split; [exact B5'|]. split; [exact B6'|].
  intros n Hn. apply in_flat_map in Hn. destruct Hn as (ic & _ & Hn).
  exact (icon_resources_no_renderer ic n Hn).
Qed.

Lemma X10_dispose_twice_witness :
  let s := sampleAfter sampleShown in
  disposed (browser (dispose (dispose s)))
  = [ GeometryRes 7; MaterialRes 8; GeometryRes 9; MaterialRes 10; MaterialRes 11;
      RendererRes 0;
      GeometryRes 7; MaterialRes 8; GeometryRes 9; MaterialRes 10; MaterialRes 11 ].
Proof.
  intros s.
  assert (R : reachable samplePage s) by (subst s; sample_reachable).
  destruct (@X10_dispose_twice samplePage s R) as (_ & X & _).
  rewrite X. vm_compute. reflexivity.
Defined.

(** X11.  [dispose()] leaves two things alone.  The listeners on the icons'
    own elements stay registered, so a click on an icon that was not dragged
    still opens its link.  And the load requests in flight are not cancelled:
    a model that arrives afterwards is still installed in its icon, but
    nothing of it is disposed and nothing is ever drawn again. *)
Theorem X11_dispose_leaves_clicks_and_loads (page : Page) (s : State) :
  reachable page s ->
  containerListeners (browser (dispose s)) = containerListeners (browser s) /\
  inflight (browser (dispose s)) = inflight (browser s) /\
  (forall k ic x, nth_error (icons (closure s)) k = Some ic ->
     hasDragged ic = false ->
     exists s', step (dispose s) (ContainerEvent k "click" x) = Some s' /\
                opened (browser s') = opened (browser s) ++ [(link ic, "_blank")]) /\
  (forall i g, In i (inflight (browser s)) ->
     exists s' ic,
       nth_error (icons (closure s)) i = Some ic /\ unloaded ic /\
       step (dispose s) (ModelLoaded i g) = Some s' /\
       nth_error (icons (closure s')) i = Some (onModelLoaded g ic) /\
       disposed (browser s') = disposed (browser (dispose s)) /\
       forall es, exists s'', run s' es = Some s'' /\
                              drawLog (browser s'') = drawLog (browser s)).
Proof.
  intros Hr. pose proof (reachable_Inv Hr) as HI.
  destruct (dispose_spec s)
    as ((A1 & A2 & A3 & A4 & A5 & A6) & (B1 & B2 & B3 & B4 & B5 & B6) & _).
  split; [exact B2|]. split; [apply dispose_inflight|]. split.
  - intros k ic x Hn Hd.
    destruct (@click_opens (dispose s) k ic x) as (s' & E & O); auto.
    + now rewrite A4.
    + rewrite B2. apply (inv_listeners HI). apply nth_error_Some. congruence.
    + exists s'. split; [exact E|]. now rewrite O, B6.
  - intros i g Hin.
    destruct (reachable_load_ok Hr) as (_ & B & _).
    destruct (B i Hin) as (ic & Hn & Hu).
    simpl. rewrite dispose_inflight. unfold in_natb.
    destruct (in_dec _ _ _) as [_|N]; [|contradiction].
    eexists. exists ic. split; [exact Hn|]. split; [exact Hu|].
    split; [reflexivity|].
    set (s' := on_icon i (onModelLoaded g) _).
    split; [subst s'; cbn; rewrite A4; now apply nth_error_update_at_same|].
    split; [reflexivity|].
    intros es.
    destruct (run_disconnected es s') as (s'' & E & Dl).
    + subst s'. cbn. exact B1.
    + subst s'. cbn. exact A1.
    + exists s''. split; [exact E|]. rewrite Dl. subst s'. cbn. exact B5.
Qed.

Lemma X11_dispose_leaves_clicks_and_loads_witness :
  let s := sampleAfter sampleShown in
  exists s', step (dispose s) (ContainerEvent 1 "click" 0) = Some s' /\
             opened (browser s') = [("https://b.example", "_blank")].
Proof.
  intros s.
  assert (R : reachable samplePage s) by (subst s; sample_reachable).
  destruct (nth_error (icons (closure s)) 1) as [ic|] eqn:Ek;
    [|vm_compute in Ek; discriminate].
  destruct (@X11_dispose_leaves_clicks_and_loads samplePage s R) as (_ & _ & H & _).
  destruct (H 1 ic 0%float Ek) as (s' & E & O).
  { vm_compute in Ek. injection Ek as <-. reflexivity. }
  exists s'. split; [exact E|]. rewrite O.
  vm_compute in Ek. injection Ek as <-. vm_compute. reflexivity.
Defined.

(** ** Touch and mouse *)

Lemma touchMove_onDragMove x ic : touchMove x ic = onDragMove x ic.
Proof.
  unfold touchMove, onDragMove. destruct (isDragging ic); reflexivity.
Qed.

Lemma touch_step_move s x :
  wired s -> step s (WindowEvent "touchmove" x) = step s (WindowEvent "mousemove" x).
Proof.
  intros Hw. cbn [step]. rewrite !(dispatch_wired _ x Hw). do 3 f_equal.
  apply map_ext. intros ic.
  change (touchMove x ic = onDragMove x ic). apply touchMove_onDragMove.
Qed.

Lemma run_touch_moves xs : forall s,
  wired s ->
  run s (map (WindowEvent "touchmove") xs) = run s (map (WindowEvent "mousemove") xs).
Proof.
  induction xs as [|x xs IH]; intros s Hw; [reflexivity|].
  cbn [map run]. rewrite (touch_step_move x Hw). cbn [step].
  apply IH. now apply wired_dispatch.
Qed.

(** X12.  Touch input drives an icon exactly as the mouse does.  The
    [touchmove] listener's own test of [isDragging] changes nothing, since
    [onDragMove] makes the same test; and on a live module a touch gesture
    on icon [k] ([touchstart], [touchmove]s, [touchend], click) leaves the
    module in the state the mouse gesture with the same coordinates does. *)
Theorem X12_touch_gesture_as_mouse (page : Page) (s : State) (k : nat)
    (ic : Icon) (x0 xEnd : float) (xs : list float) :
  live page s ->
  nth_error (icons (closure s)) k = Some ic ->
  (forall x ic', touchMove x ic' = onDragMove x ic') /\
  run s (touchGesture k x0 xs xEnd) = run s (mouseGesture k x0 xs xEnd).
Proof.
  intros L Hk. pose proof (live_wired L) as Hw.
  split; [intros; apply touchMove_onDragMove|].
  assert (Hlt : k < List.length (icons (closure s))).
  { apply nth_error_Some. congruence. }
  unfold touchGesture, mouseGesture. cbn [run step].
  destruct (in_dec clistener_eq_dec (k, "mousedown") (containerListeners (browser s)))
    as [_|N].
  2:{ elim N. rewrite (proj2 Hw). apply In_containerEvents; simpl; auto. }
  destruct (in_dec clistener_eq_dec (k, "touchstart") (containerListeners (browser s)))
    as [_|N].
  2:{ elim N. rewrite (proj2 Hw). apply In_containerEvents; simpl; auto. }
  change (containerHandler k "touchstart" x0 s) with (on_icon k (onDragStart x0) s).
  change (containerHandler k "mousedown" x0 s) with (on_icon k (onDragStart x0) s).
  set (s1 := on_icon k (onDragStart x0) s).
  assert (Hw1 : wired s1) by now apply wired_on_icon.
  pose proof (run_moves xs Hw1) as Em.
  pose proof (run_touch_moves xs Hw1) as Et. rewrite Em in Et.
  rewrite (@run_app _ _ _ _ Em), (@run_app _ _ _ _ Et).
  set (s2 := {| browser := browser s1; closure := _ |}).
  assert (Hw2 : wired s2).
  { unfold wired in *. subst s2. simpl. rewrite length_map. exact Hw1. }
  cbn [run step].
  rewrite (dispatch_wired "touchend" xEnd Hw2), (dispatch_wired "mouseup" xEnd Hw2).
  reflexivity.
Qed.

Lemma X12_touch_gesture_as_mouse_witness :
  let s := sampleAfter sampleShown in
  run s (touchGesture 0 100 [110; 95]%float 95)
  = run s (mouseGesture 0 100 [110; 95]%float 95).
Proof.
  intros s.
  assert (L : live samplePage s).
  { split; [subst s; sample_reachable | vm_compute; discriminate]. }
  destruct (nth_error (icons (closure s)) 0) as [ic|] eqn:Ek;
    [|vm_compute in Ek; discriminate].
  exact (proj2 (@X12_touch_gesture_as_mouse samplePage s 0 ic 100 95
                  [110; 95]%float L Ek)).
Defined.

(** ** What reaches the screen *)

Lemma drag_handler_static f ic : drag_handler f -> static (f ic) = static ic.
Proof.
  intros [x|x|x|]; auto using onDragStart_static, onDragMove_static,
    touchMove_static, onDragEnd_static.
Qed.

Lemma drag_handler_pivot f ic : drag_handler f -> pivot (f ic) = pivot ic.
Proof.
  intros Hf. pose proof (drag_handler_view ic Hf) as E. unfold loaded_view in E.
  destruct Hf as [x|x|x|]; try reflexivity.
  - unfold onDragMove.
    destruct (negb (isDragging ic) || Js.is_null (pivot ic))%bool; [reflexivity|].
    destruct (2 <? abs (x - lastX ic))%float; reflexivity.
  - unfold touchMove, onDragMove. destruct (isDragging ic); [|reflexivity].
    destruct (negb true || Js.is_null (pivot ic))%bool; [reflexivity|].
    destruct (2 <? abs (x - lastX ic))%float; reflexivity.
Qed.

Lemma same_but_yaw_refl p : same_but_yaw p p.
Proof. repeat split. Qed.

Lemma same_but_yaw_join q p p' :
  same_but_yaw q p -> same_but_yaw p' p -> same_but_yaw q p'.
Proof.
  intros (A1 & A2 & A3 & A4 & A5 & A6) (B1 & B2 & B3 & B4 & B5 & B6).
  unfold same_but_yaw. repeat split; congruence.
Qed.

Lemma pivots_kept_refl ics : pivots_kept ics ics.
Proof.
  intros ic p Hin Hp. exists ic, p. auto using same_but_yaw_refl.
Qed.

Lemma pivots_kept_update i f ics :
  (forall ic, static (f ic) = static ic) ->
  (forall ic p, nth_error ics i = Some ic -> pivot ic = Some p ->
     exists p', pivot (f ic) = Some p' /\ same_but_yaw p' p) ->
  pivots_kept ics (update_at i f ics).
Proof.
  intros Hs Hp ic p Hin Hpiv.
  apply In_nth_error in Hin. destruct Hin as [j Hj].
  destruct (Nat.eq_dec i j) as [->|Hne].
  - destruct (Hp ic p Hj Hpiv) as (p' & E & Y).
    exists (f ic), p'. split; [|auto].
    eapply nth_error_In. now apply nth_error_update_at_same.
  - exists ic, p. split; [|auto using same_but_yaw_refl].
    eapply nth_error_In. rewrite nth_error_update_at_other; eauto.
Qed.

Lemma pivots_kept_frame t ics ics' :
  Forall2 (frame_rel t) ics ics' -> pivots_kept ics ics'.
Proof.
  induction 1 as [|a a' l l' Hf _ IH]; intros ic p Hin Hp; [destruct Hin|].
  destruct Hin as [->|Hin].
  - unfold frame_rel in Hf. destruct (modelLoaded ic).
    + destruct Hf as (p0 & E0 & ->). exists (set_pivot (Some (set_rotation_y (frame_yaw t ic) p0))
                                           (set_manualRotation (frame_yaw t ic) ic)).
      exists (set_rotation_y (frame_yaw t ic) p0).
      split; [now left|]. split; [reflexivity|]. split; [reflexivity|].
      assert (p0 = p) as -> by congruence. apply set_rotation_y_same_but_yaw.
    + subst a'. exists ic, p. split; [now left|]. auto using same_but_yaw_refl.
  - destruct (IH ic p Hin Hp) as (ic' & p' & H1 & H2). exists ic', p'.
    split; [now right | exact H2].
Qed.

Lemma blit_kept page ic ic' p p' ops :
  static ic' = static ic -> pivot ic = Some p -> pivot ic' = Some p' ->
  same_but_yaw p' p -> blit page ic ops -> blit page ic' ops.
Proof.
  unfold static. intros [= _ Hc Hx Hs Hm _ _ _ _] Hp Hp' Y (r & p1 & q & E & Yq & R & ->).
  exists r, p', q. split; [exact Hp'|].
  split; [|split; [exact R | now rewrite Hc, Hx, Hs, Hm]].
  assert (p1 = p) as -> by congruence. now apply same_but_yaw_join with p.
Qed.

Lemma draws_ok_kept page ics ics' log :
  pivots_kept ics ics' -> draws_ok page ics log -> draws_ok page ics' log.
Proof.
  intros K (groups & -> & H). exists groups. split; [reflexivity|].
  eapply Forall_impl; [|exact H]. intros ops (ic & Hin & B).
  assert (B' := B). destruct B' as (r & p & q & Hp & _).
  destruct (K ic p Hin Hp) as (ic' & p' & Hin' & Hs & Hp' & Y).
  exists ic'. split; [exact Hin'|]. exact (blit_kept Hs Hp Hp' Y B).
Qed.

Lemma draws_ok_nil page ics : draws_ok page ics [].
Proof. exists []. split; [reflexivity | constructor]. Qed.

Lemma draws_ok_app page ics a b :
  draws_ok page ics a -> draws_ok page ics b -> draws_ok page ics (a ++ b).
Proof.
  intros (ga & -> & Ha) (gb & -> & Hb). exists (ga ++ gb).
  split; [now rewrite concat_app | now apply Forall_app].
Qed.

Lemma frame_rel_loaded t ic ic' : frame_rel t ic ic' -> loaded_has_pivot ic'.
Proof.
  unfold frame_rel, loaded_has_pivot. destruct (modelLoaded ic) eqn:E.
  - intros (p & _ & ->) _. discriminate.
  - intros ->. congruence.
Qed.

Lemma frame_draws_ok page r all ics :
  renderer_std page r -> incl ics all -> Forall loaded_has_pivot ics ->
  draws_ok page all (flat_map (frame_draws r) ics).
Proof.
  intros R. induction ics as [|ic rest IH]; intros Hi Hp.
  - apply draws_ok_nil.
  - cbn [flat_map]. apply draws_ok_app.
    + apply Forall_inv in Hp. unfold frame_draws, loaded_has_pivot in *.
      destruct (modelLoaded ic); [|apply draws_ok_nil].
      destruct (pivot ic) as [p|] eqn:Ep; [|now elim Hp].
      eexists [_]. split; [symmetry; apply app_nil_r|]. constructor; [|constructor].
      exists ic. split; [apply Hi; now left|].
      exists r, p, p. split; [exact Ep|]. split; [apply same_but_yaw_refl|].
      split; [exact R|]. unfold scene_children. now rewrite Ep.
    + apply IH; [|now inversion Hp]. intros a Ha. apply Hi. now right.
Qed.

Lemma reachable_draws page s :
  reachable page s ->
  pixelRatio (closure s) = Js.Math_min (devicePixelRatio page) 2 /\
  (forall r, sharedRenderer (closure s) = Some r -> renderer_std page r) /\
  draws_ok page (icons (closure s)) (drawLog (browser s)).
Proof.
  intros Hr.
  apply (@reachable_scheme page
           (fun s => load_ok s /\
                     pixelRatio (closure s) = Js.Math_min (devicePixelRatio page) 2 /\
                     (forall r, sharedRenderer (closure s) = Some r ->
                                renderer_std page r) /\
                     draws_ok page (icons (closure s)) (drawLog (browser s))))
    in Hr; [tauto|..].
  - intros s1 i f Hf (L & P & R & D).
    split; [now apply load_ok_on_icon|]. split; [exact P|]. split; [exact R|].
    apply draws_ok_kept with (ics := icons (closure s1)); [|exact D].
    apply pivots_kept_update.
    + intros ic. now apply drag_handler_static.
    + intros ic p _ Hp. exists p. rewrite (drag_handler_pivot ic Hf).
      auto using same_but_yaw_refl.
  - intros s1 url target H. exact H.
  - intros s1 v H. exact H.
  - intros s1 v H. exact H.
  - intros s1 id H. exact H.
  - intros s1 (L & P & R & D). split; [now apply load_ok_loadModels|].
    rewrite loadModels_spec. now destruct (modelsRequested (closure s1)).
  - intros s1 t ics' (L & P & R & D) F.
    split; [now apply load_ok_after_frame with t|].
    assert (Pv : Forall loaded_has_pivot ics').
    { clear - F. induction F as [|ic ic' l l' Hf _ IH]; constructor; auto.
      exact (@frame_rel_loaded _ _ _ Hf). }
    unfold after_frame, getSharedRenderer, requestAnimationFrame. cbn.
    destruct (sharedRenderer (closure s1)) as [r0|] eqn:Er; cbn.
    + assert (R0 : renderer_std page r0) by now apply R.
      split; [exact P|]. split; [intros r E; apply R; congruence|].
      apply draws_ok_app.
      * apply draws_ok_kept with (ics := icons (closure s1)); [|exact D].
        now apply pivots_kept_frame with t.
      * apply frame_draws_ok; auto using incl_refl.
    + assert (R0 : renderer_std page
                     {| rid := List.length (renderers (browser s1));
                        r_width := RENDER_SIZE; r_height := RENDER_SIZE;
                        r_pixelRatio := pixelRatio (closure s1) |}).
      { repeat split. exact P. }
      split; [exact P|]. split; [intros r [= <-]; exact R0|].
      apply draws_ok_app.
      * apply draws_ok_kept with (ics := icons (closure s1)); [|exact D].
        now apply pivots_kept_frame with t.
      * apply frame_draws_ok; auto using incl_refl.
  - intros s1 i g Hin (L & P & R & D).
    split; [now apply load_ok_loaded|]. split; [exact P|]. split; [exact R|].
    apply draws_ok_kept with (ics := icons (closure s1)); [|exact D].
    apply pivots_kept_update.
    + intros ic. apply onModelLoaded_static.
    + intros ic p Hn Hp. destruct L as (_ & B & _).
      destruct (B i Hin) as (ic0 & Hn0 & Hu & _). cbn in Hn. congruence.
  - intros s1 i (L & P & R & D). split; [now apply load_ok_failed|]. auto.
  - intros s1 (L & P & R & D). split; [now apply load_ok_dispose|].
    destruct (dispose_spec s1)
      as ((_ & _ & A3 & A4 & _ & A6) & (_ & _ & _ & _ & B5 & _) & _).
    rewrite A3, A4, A6, B5. split; [exact P|]. split; [discriminate | exact D].
  - intros s0 Hb. split; [now apply (boot_load_ok _ Hb)|].
    destruct (boot_quiet _ Hb) as (_ & _ & _ & _ & N & _ & _ & _ & Dl & _).
    destruct (boot_found _ Hb) as (c0 & rest & footer & Hc & Hf).
    rewrite Dl, N. split; [|split; [discriminate | apply draws_ok_nil]].
    rewrite (boot_exact page Hc Hf) in Hb. now injection Hb as <-.
Qed.

Lemma reachable_drawn_as page s :
  reachable page s ->
  Forall (drawn_as page) (icons (closure s)) /\
  map ctx (icons (closure s)) = seq 0 (List.length (iconContainers page)).
Proof.
  intros (s0 & es & Hb & Hrun).
  destruct (run_Inv es (boot_Inv _ Hb)) as (s' & E & _ & _ & _ & St).
  assert (s' = s) as -> by congruence.
  assert (G : forall X (g : Icon -> X),
            (forall a b, static a = static b -> g a = g b) ->
            map g (icons (closure s)) = map g (icons (closure s0))).
  { intros X g Hg. clear - St Hg. revert St.
    generalize (icons (closure s0)). induction (icons (closure s)) as [|a l IH];
      intros [|b l']; simpl; try discriminate; [reflexivity|].
    intros H.
    assert (H1 : static a = static b) by exact (f_equal (hd (static a)) H).
    assert (H2 : map static l = map static l') by exact (f_equal (@tl _) H).
    f_equal; [now apply Hg | now apply IH]. }
  destruct (boot_found _ Hb) as (c0 & rest & footer & Hc & Hf).
  rewrite (boot_exact page Hc Hf) in Hb. injection Hb as <-. cbn [closure icons] in G.
  split.
  - assert (M := G _ (fun ic => (scene ic, camera ic, canvas2d ic))).
    rewrite map_map in M. cbn in M.
    apply Forall_forall. intros ic Hin.
    apply (in_map (fun ic => (scene ic, camera ic, canvas2d ic))) in Hin.
    rewrite M in Hin.
    + apply in_map_iff in Hin. destruct Hin as (jc & E1 & _).
      injection E1 as E1 E2 E3. unfold drawn_as. rewrite <- E1, <- E2, <- E3.
      repeat split.
    + unfold static. intros a b [= _ Hc' _ Hs Hm _ _ _ _]. now rewrite Hc', Hs, Hm.
  - rewrite (G _ ctx).
    + rewrite map_map. cbn. clear. generalize 0.
      induction (iconContainers page) as [|c cs IH]; intros k; simpl;
        [reflexivity | now rewrite IH].
    + unfold static. now intros a b [= _ _ Hx _ _ _ _ _ _].
Qed.

(** X13.  Everything the module ever draws comes in whole groups of three
    calls, each the drawing of one of the page's icons: a renderer of 80 by
    80 at the capped pixel ratio renders that icon's scene, which is its
    lights and its own pivot at some yaw, with that icon's camera; then that
    icon's own 2D context is cleared and the renderer's image is copied onto
    it, both over the width and height of the icon's canvas.  The lights and
    the camera are those of initialisation, the canvas size is what the
    canvas kept of [80 * min(devicePixelRatio, 2)], and the icons' contexts
    are distinct. *)
Theorem X13_draws_in_whole_blits (page : Page) (s : State) :
  reachable page s ->
  draws_ok page (icons (closure s)) (drawLog (browser s)) /\
  Forall (drawn_as page) (icons (closure s)) /\
  map ctx (icons (closure s)) = seq 0 (List.length (iconContainers page)).
Proof.
  intros Hr. split; [apply (reachable_draws Hr) | apply (reachable_drawn_as Hr)].
Qed.

Lemma X13_draws_in_whole_blits_witness :
  (exists sc cam,
     drawLog (browser (sampleAfter sampleShown))
     = [ Render (renderer0 samplePage) sc cam;
         ClearRect 0 160 160; DrawImage 0 0 160 160 ] /\
     draws_ok samplePage (icons (closure (sampleAfter sampleShown)))
              (drawLog (browser (sampleAfter sampleShown)))) /\
  (exists s0 s sc cam,
     boot sampleFractionalPage = Some s0 /\ run s0 sampleShown = Some s /\
     drawLog (browser s)
     = [ Render (renderer0 sampleFractionalPage) sc cam;
         ClearRect 0 106 106; DrawImage 0 0 106 106 ] /\
     Forall (drawn_as sampleFractionalPage) (icons (closure s))).
Proof.
  split.
  - do 2 eexists. split; [vm_compute; reflexivity|].
    assert (R : reachable samplePage (sampleAfter sampleShown)) by sample_reachable.
    exact (proj1 (@X13_draws_in_whole_blits samplePage (sampleAfter sampleShown) R)).
  - destruct (boot sampleFractionalPage) as [s0|] eqn:Eb; [|vm_compute in Eb; discriminate].
    destruct (run s0 sampleShown) as [s|] eqn:Er.
    2:{ exfalso. vm_compute in Eb. injection Eb as <-. vm_compute in Er. discriminate. }
    assert (R : reachable sampleFractionalPage s) by (exists s0, sampleShown; auto).
    exists s0, s. do 2 eexists. split; [reflexivity|]. split; [exact Er|].
    split; [|exact (proj1 (proj2 (@X13_draws_in_whole_blits sampleFractionalPage s R)))].
    vm_compute in Eb. injection Eb as <-. vm_compute in Er. injection Er as <-.
    vm_compute. reflexivity.
Defined.

(** ** A load that fails *)

(** X14.  [gltfLoader.load] is given no error callback and [loadModels]
    runs once, so a model whose load fails is never asked for again: whatever
    happens afterwards, the icon stays without pivot and unloaded, no
    request for it is in flight, and the list of load requests made is as it
    was. *)
Theorem X14_failed_load_is_final (page : Page) (s : State) (i : nat)
    (es : list Event) :
  reachable page s ->
  In i (inflight (browser s)) ->
  exists s' ic,
    run s (ModelFailed i :: es) = Some s' /\
    nth_error (icons (closure s')) i = Some ic /\ unloaded ic /\
    ~ In i (inflight (browser s')) /\
    loadRequests (browser s') = loadRequests (browser s) /\
    modelsRequested (closure s') = true.
Proof.
  intros Hr Hin. pose proof (reachable_Inv Hr) as HI.
  destruct (reachable_load_ok Hr) as (_ & B & _ & D).
  destruct (B i Hin) as (ic & Hn & Hu).
  assert (Hm : modelsRequested (closure s) = true).
  { destruct (modelsRequested (closure s)); [reflexivity|].
    destruct D as [D _]; [reflexivity|]. rewrite D in Hin. destruct Hin. }
  destruct (step_Inv (ModelFailed i) HI) as (s1 & E1 & I1 & _).
  destruct (run_Inv es I1) as (s' & E & _).
  cbn [run]. rewrite E1.
  set (Q := fun s' : State =>
    modelsRequested (closure s') = true /\
    ~ In i (inflight (browser s')) /\
    loadRequests (browser s') = loadRequests (browser s) /\
    nth_error (map loaded_view (icons (closure s'))) i = Some (true, false)).
  assert (Q1 : Q s1).
  { simpl in E1. injection E1 as <-. unfold Q. cbn.
    split; [exact Hm|]. split; [apply remove_In|]. split; [reflexivity|].
    rewrite nth_error_map, Hn. simpl. f_equal. now apply unloaded_view. }
  assert (Q' : Q s').
  { apply (@run_scheme page Q) with (es := es) (s := s1);
      [ | | | | | | | | | | exact I1 | exact Q1 | exact E ]; unfold Q.
    - intros s2 k f Hf (A1 & A2 & A3 & A4). repeat (split; [assumption|]).
      simpl. rewrite map_update_at; [exact A4|]. intros a. now apply drag_handler_view.
    - intros s2 url target H. exact H.
    - intros s2 v H. exact H.
    - intros s2 v H. exact H.
    - intros s2 id H. exact H.
    - intros s2 (A1 & A2 & A3 & A4). rewrite loadModels_spec, A1. auto.
    - intros s2 t ics' (A1 & A2 & A3 & A4) F.
      unfold after_frame, getSharedRenderer, requestAnimationFrame. cbn.
      rewrite (Forall2_frame_view F).
      destruct (sharedRenderer (closure s2)); cbn; auto.
    - intros s2 k g Hk (A1 & A2 & A3 & A4). cbn.
      split; [exact A1|]. split.
      { intros H. apply in_remove in H. tauto. }
      split; [exact A3|].
      rewrite nth_error_map, nth_error_update_at_other, <- nth_error_map; [exact A4|].
      intros ->. contradiction.
    - intros s2 k (A1 & A2 & A3 & A4). cbn. split; [exact A1|].
      split; [|split; assumption]. intros H. apply in_remove in H. tauto.
    - intros s2 (A1 & A2 & A3 & A4).
      destruct (dispose_spec s2)
        as ((_ & _ & _ & P4 & P5 & _) & (_ & _ & _ & R4 & _) & _).
      rewrite P4, P5, R4, dispose_inflight. auto. }
  destruct Q' as (A1 & A2 & A3 & A4).
  rewrite nth_error_map in A4.
  destruct (nth_error (icons (closure s')) i) as [ic'|] eqn:En; [|discriminate].
  exists s', ic'. split; [exact E|]. split; [exact En|].
  split; [apply unloaded_view; simpl in A4; congruence|]. auto.
Qed.

Lemma X14_failed_load_is_final_witness :
  let s := sampleAfter [Intersection [true] 1000] in
  exists s' ic,
    run s [ModelFailed 1; ModelLoaded 1 sampleGltf; Intersection [false; true] 3000;
           AnimationFrame 2 4000] = Some s' /\
    nth_error (icons (closure s')) 1 = Some ic /\ unloaded ic.
Proof.
  intros s.
  assert (R : reachable samplePage s) by (subst s; sample_reachable).
  destruct (@X14_failed_load_is_final samplePage s 1
              [ModelLoaded 1 sampleGltf; Intersection [false; true] 3000;
               AnimationFrame 2 4000] R)
    as (s' & ic & E & Hn & Hu & _).
  { vm_compute. auto. }
  exists s', ic. auto.
Defined.
